(** * tiktorch: the dry-run shape negotiation and the model adapters

    A shallow embedding of [tiktorch/handler/dryrun.py] (class
    [DryRunProcess]) and of the constructors of
    [tiktorch/server/model_adapter/_exemplum.py] and
    [_tensorflow_model_adapter.py], with the properties of the
    specification proved or refuted against it.

    Python objects are modelled as follows.
    - [self] of a [DryRunProcess] is a record that is threaded through every
      method by a state-and-exception monad; a raised exception keeps the
      mutations made before it, as in Python.
    - The logger and the subprocesses started with [in_subproc] are effects:
      the record keeps the list of log records and the list of launched
      subprocesses, newest first.
    - What a subprocess answers (the toy model of [_minimal_device_test],
      the user's network in [_validate_shape]) is tensor code outside the
      program; it is a variable of the section.
    - [int], [float]: integers are [Z]; the one float of the program, the
      [discard] fraction, is a rational and the arithmetic on it is exact. *)

From Stdlib Require Import ZArith QArith Qround Lia List String Ascii.
From stdpp Require Import gmap strings list.
Close Scope Q_scope.
Open Scope string_scope.
Open Scope list_scope.
Open Scope Z_scope.

(** ** Exceptions and the state-and-exception monad *)

Inductive exn :=
| ValueError (msg : string)
| AssertionError (msg : string)
| KeyError (key : string)
| TypeError (msg : string)
| AttributeError (msg : string)
| IndexError (msg : string)
| NotImplementedError (msg : string).

(** What running a piece of code gives: a value, a raised exception, or
    [OutOfFuel] when the bound given to a [while] loop was too small (never
    a behaviour of the program). *)
Inductive result (A : Type) :=
| Ok (a : A)
| Raise (e : exn)
| OutOfFuel.
Arguments Ok {A} a.
Arguments Raise {A} e.
Arguments OutOfFuel {A}.

Definition M (S A : Type) : Type := S -> result A * S.

Definition ret {S A} (a : A) : M S A := fun s => (Ok a, s).

Definition bind {S A B} (m : M S A) (k : A -> M S B) : M S B :=
  fun s =>
    match m s with
    | (Ok a, s') => k a s'
    | (Raise e, s') => (Raise e, s')
    | (OutOfFuel, s') => (OutOfFuel, s')
    end.

Definition raise {S A} (e : exn) : M S A := fun s => (Raise e, s).

Definition get {S} : M S S := fun s => (Ok s, s).

Definition gets {S A} (f : S -> A) : M S A := fun s => (Ok (f s), s).

Definition modify {S} (f : S -> S) : M S unit := fun s => (Ok tt, f s).

(** [lift r]: a pure computation that may raise. *)
Definition lift {S A} (r : result A) : M S A := fun s => (r, s).

(** [try: m except Exception as e: h e]. *)
Definition try_except {S A} (m : M S A) (h : exn -> M S A) : M S A :=
  fun s =>
    match m s with
    | (Raise e, s') => h e s'
    | r => r
    end.

Declare Scope monad_scope.
Delimit Scope monad_scope with monad.
Notation "'let*' x ':=' m 'in' k" := (bind m (fun x => k))
  (at level 10, x name, m at level 100, k at level 200, only parsing) : monad_scope.
Notation "'let*' ' p ':=' m 'in' k" := (bind m (fun x => let 'p := x in k))
  (at level 10, p pattern, m at level 100, k at level 200, only parsing) : monad_scope.
Open Scope monad_scope.

(** The pure fragment: [result] alone is the exception monad. *)
Definition rbind {A B} (r : result A) (k : A -> result B) : result B :=
  match r with
  | Ok a => k a
  | Raise e => Raise e
  | OutOfFuel => OutOfFuel
  end.

(** ** Python values of the configuration *)

#[warnings="-register-all"]
Inductive pyval :=
| PNone
| PInt (n : Z)
| PStr (s : string)
| PInts (l : list Z)
| PDict (d : gmap string pyval).

Definition is_dict (v : pyval) : bool :=
  match v with PDict _ => true | _ => false end.

Definition is_None (v : pyval) : bool :=
  match v with PNone => true | _ => false end.

(** [d[key]] on a dict. *)
Definition dict_getitem (d : gmap string pyval) (key : string) : result pyval :=
  match d !! key with
  | Some v => Ok v
  | None => Raise (KeyError key)
  end.

(** [v[key]] on any value: only dicts are subscripted by the program. *)
Definition py_getitem (v : pyval) (key : string) : result pyval :=
  match v with
  | PDict d => dict_getitem d key
  | _ => Raise (TypeError "object is not subscriptable")
  end.

(** [key in v]. *)
Definition py_contains (v : pyval) (key : string) : result bool :=
  match v with
  | PDict d => Ok (bool_decide (is_Some (d !! key)))
  | PStr s => Ok (bool_decide (is_Some (index 0 key s)))
  | PInts _ => Ok false
  | PInt _ | PNone => Raise (TypeError "argument is not iterable")
  end.

(** [del v[key]]. *)
Definition py_delitem (v : pyval) (key : string) : result pyval :=
  match v with
  | PDict d =>
      match d !! key with
      | Some _ => Ok (PDict (delete key d))
      | None => Raise (KeyError key)
      end
  | _ => Raise (TypeError "object does not support item deletion")
  end.

(** [v[key] = x]. *)
Definition py_setitem (v : pyval) (key : string) (x : pyval) : result pyval :=
  match v with
  | PDict d => Ok (PDict (<[key := x]> d))
  | _ => Raise (TypeError "object does not support item assignment")
  end.

(** [for a in l: body a]. *)
Fixpoint for_each {S A} (l : list A) (body : A -> M S unit) : M S unit :=
  match l with
  | [] => ret tt
  | a :: l' => let* _ := body a in for_each l' body
  end.

(** ** [DryRunProcess.update_config]

    The method only touches [self.config]; it is written over the
    configuration mapping and lifted to the process below.  The partial
    configuration is iterated with [.items()]: it is the list of its items
    in insertion order (keys pairwise distinct).  The items of a nested dict
    are visited in the order of [map_to_list]; they touch pairwise distinct
    subkeys of the same entry. *)

Module Config.

(** The two statements on [self.config[key]] of the inner loop; the
    nested mapping is mutated in place, that is, the entry [key] of the
    configuration afterwards holds the updated mapping. *)
Definition update_subkey (key subkey : string) (subvalue : pyval)
  : M (gmap string pyval) unit :=
  if is_None subvalue then
    let* inner := (fun cfg => (dict_getitem cfg key, cfg)) in
    let* present := lift (py_contains inner subkey) in
    if (present : bool) then
      let* inner' := lift (py_delitem inner subkey) in
      modify (<[key := inner']>)
    else ret tt
  else
    let* inner := (fun cfg => (dict_getitem cfg key, cfg)) in
    let* inner' := lift (py_setitem inner subkey subvalue) in
    modify (<[key := inner']>).

Definition update_key (key : string) (value : pyval)
  : M (gmap string pyval) unit :=
  match value with
  | PDict sub =>
      for_each (map_to_list sub)
        (fun kv => update_subkey key kv.1 kv.2)
  | PNone =>
      let* present :=
        gets (fun cfg : gmap string pyval => bool_decide (is_Some (cfg !! key))) in
      if (present : bool) then modify (delete key) else ret tt
  | _ => modify (<[key := value]>)
  end.

Definition update_config (partial_config : list (string * pyval))
  : M (gmap string pyval) unit :=
  for_each partial_config (fun kv => update_key kv.1 kv.2).

End Config.

(** ** Shapes *)

(** Modelled from the spec: [tiktorch.tiktypes] (the classes [Point2D],
    [Point3D], [Point4D] and their batched variants) is not among the
    sources.  Following the specification's data model, a shape is an
    ordered mapping from axis labels to extents; its class is its sequence
    of axis labels; comparison and subtraction are elementwise and defined
    only between shapes of the same axes, anything else being a usage
    error. *)
Module Points.

Abbreviation Point := (list (ascii * Z)).

(** Modelled from the spec: the class of a shape, as its axis labels. *)
Definition order (p : Point) : list ascii := p.*1.

(** Modelled from the spec: [numpy.array(p)], the extents in axis order. *)
Definition array (p : Point) : list Z := p.*2.

(** Modelled from the spec: the six classes, by their axis labels. *)
Definition Point2D : list ascii := ["c"; "y"; "x"]%char.
Definition Point3D : list ascii := ["c"; "z"; "y"; "x"]%char.
Definition Point4D : list ascii := ["c"; "t"; "z"; "y"; "x"]%char.
Definition BatchPoint2D : list ascii := "b"%char :: Point2D.
Definition BatchPoint3D : list ascii := "b"%char :: Point3D.
Definition BatchPoint4D : list ascii := "b"%char :: Point4D.

(** Modelled from the spec: [cls( *args )], positional arguments in axis
    order, absent ones 0. *)
Definition construct (cls : list ascii) (args : list Z) : result Point :=
  if bool_decide (length args ≤ length cls)%nat then
    Ok (zip cls (args ++ replicate (length cls - length args) 0))
  else Raise (TypeError "too many positional arguments").

(** [{a: s for a, s in items}] *)
Definition dict_of_items (items : list (ascii * Z)) : gmap ascii Z :=
  foldl (fun d kv => <[kv.1 := kv.2]> d) ∅ items.

(** Modelled from the spec: [cls( **kwargs )], keyword arguments by axis
    label, absent ones 0. *)
Definition construct_kw (cls : list ascii) (kwargs : gmap ascii Z) : result Point :=
  if bool_decide (dom kwargs ⊆ list_to_set cls) then
    Ok ((fun a => (a, default 0 (kwargs !! a))) <$> cls)
  else Raise (TypeError "unexpected keyword argument").

(** Modelled from the spec: [cls()], all extents 0. *)
Definition zeros (cls : list ascii) : Point := (fun a => (a, 0)) <$> cls.

(** Modelled from the spec: [p[a]], the extent of axis [a]. *)
Definition getitem (p : Point) (a : ascii) : result Z :=
  match list_find (fun kv => kv.1 = a) p with
  | Some (_, (_, v)) => Ok v
  | None => Raise (AttributeError (String a ""))
  end.

(** Modelled from the spec: [p.drop_batch()], the shape without its
    leading batch axis. *)
Definition drop_batch (p : Point) : result Point :=
  match p with
  | (a, _) :: p' =>
      if bool_decide (a = "b"%char) then Ok p'
      else Raise (AttributeError "drop_batch")
  | [] => Raise (AttributeError "drop_batch")
  end.

(** Modelled from the spec: [p.add_batch(n)], the shape with a leading
    batch axis of extent [n]. *)
Definition add_batch (p : Point) (n : Z) : result Point :=
  if bool_decide ("b"%char ∈ order p) then Raise (AttributeError "add_batch")
  else Ok (("b"%char, n) :: p).

(** Modelled from the spec: the usage error of an operation on shapes of
    different axes. *)
Definition same_axes (p q : Point) : result unit :=
  if bool_decide (order p = order q) then Ok tt
  else Raise (TypeError "mismatched axes").

(** Modelled from the spec: [p - q], elementwise, for shapes of the same
    axes. *)
Definition sub (p q : Point) : result Point :=
  rbind (same_axes p q) (fun _ =>
    Ok (zip_with (fun kv kw => (kv.1, kv.2 - kw.2)) p q)).

(** Modelled from the spec: [p == q], elementwise, for shapes of the same
    axes. *)
Definition eq (p q : Point) : result bool :=
  rbind (same_axes p q) (fun _ => Ok (bool_decide (array p = array q))).

(** Modelled from the spec: [p != q]. *)
Definition ne (p q : Point) : result bool :=
  rbind (eq p q) (fun r => Ok (negb r)).

(** Modelled from the spec: [p <= q], that is, every extent of [p] is at
    most that of [q]. *)
Definition le (p q : Point) : result bool :=
  rbind (same_axes p q) (fun _ =>
    Ok (bool_decide (Forall2 Z.le (array p) (array q)))).

(** Modelled from the spec: [PointBase.from_spacetime(c, spacetime)], the
    class chosen by the number of spatial extents. *)
Definition from_spacetime (c : Z) (spacetime : list Z) : result Point :=
  match length spacetime with
  | 2%nat => construct Point2D (c :: spacetime)
  | 3%nat => construct Point3D (c :: spacetime)
  | 4%nat => construct Point4D (c :: spacetime)
  | _ => Raise (ValueError "spacetime")
  end.

(** Modelled from the spec: [BatchPointBase.from_spacetime(b, c,
    spacetime)]. *)
Definition batch_from_spacetime (b c : Z) (spacetime : list Z) : result Point :=
  match length spacetime with
  | 2%nat => construct BatchPoint2D (b :: c :: spacetime)
  | 3%nat => construct BatchPoint3D (b :: c :: spacetime)
  | 4%nat => construct BatchPoint4D (b :: c :: spacetime)
  | _ => Raise (ValueError "spacetime")
  end.

End Points.
Import Points.

(** ** The state of a [DryRunProcess] *)

(** Modelled from the spec: [tiktorch.configkeys] is not among the sources;
    each key is taken to be the lower-case spelling of the constant's
    name. *)
Definition INPUT_CHANNELS := "input_channels".
Definition INPUT_AXIS_ORDER := "input_axis_order".
Definition OUTPUT_AXIS_ORDER := "output_axis_order".
Definition TRAINING := "training".
Definition BATCH_SIZE := "batch_size".
Definition TRAINING_SHAPE := "training_shape".
Definition TRAINING_SHAPE_LOWER_BOUND := "training_shape_lower_bound".
Definition TRAINING_SHAPE_UPPER_BOUND := "training_shape_upper_bound".
Definition LOSS_CRITERION_CONFIG := "loss_criterion_config".

(** A [torch.device], by its name. *)
Abbreviation device := string.

Inductive level := DEBUG | INFO | WARNING | ERROR.

Inductive log_arg :=
| ADevices (ds : list device)
| AShape (p : option Point)
| AExc (e : exn).

Record log_record := LogRecord {
  levelname : level;
  msg : string;
  args : list log_arg;
}.

(** A subprocess started with [in_subproc]: the function it runs and the
    arguments that matter. *)
Inductive subproc :=
| SubMinimalDeviceTest (d : device)
| SubValidateShape (d : device) (shape : list Z) (train_mode : bool).

(** An element of [self.valid_shapes]. *)
Inductive pyobj :=
| ONone
| OPoint (p : Point)
| OBool (b : bool).

Definition of_optional (o : option Point) : pyobj :=
  match o with Some p => OPoint p | None => ONone end.

(** The tuple a successful dry run resolves its future with. *)
Record dry_run_record := DryRunRecord {
  res_devices : list device;
  res_training_shape : option Point;
  res_valid_shapes : option (list pyobj);
  res_shrinkage : option Point;
}.

Inductive future_state :=
| FutResult (r : dry_run_record)
| FutException (e : exn).

(** The arguments [dry_run] puts on the queue; [fut] names the [RPCFuture]
    created for the call. *)
Record job := Job {
  job_devices : list device;
  job_training_shape : option Point;
  job_valid_shapes : option (list Point);
  job_shrinkage : option Point;
  job_fut : nat;
}.

(** The attributes of [self], followed by the effects: the log, the
    subprocesses launched (both newest first) and the futures handed out,
    a future being absent from the map while it is pending. *)
Record DryRunProcess := {
  config : gmap string pyval;
  training_shape : option Point;
  valid_shapes : option (list pyobj);
  shrinkage : option Point;
  dry_run_queue : list job;
  shutdown_event : bool;
  logger : list log_record;
  subprocs : list subproc;
  futures : gmap nat future_state;
  next_future : nat;
}.

Definition set_config (f : gmap string pyval -> gmap string pyval) (self : DryRunProcess) :=
  {| config := f (config self); training_shape := training_shape self;
     valid_shapes := valid_shapes self; shrinkage := shrinkage self;
     dry_run_queue := dry_run_queue self; shutdown_event := shutdown_event self;
     logger := logger self; subprocs := subprocs self;
     futures := futures self; next_future := next_future self |}.

Definition set_training_shape (v : option Point) (self : DryRunProcess) :=
  {| config := config self; training_shape := v;
     valid_shapes := valid_shapes self; shrinkage := shrinkage self;
     dry_run_queue := dry_run_queue self; shutdown_event := shutdown_event self;
     logger := logger self; subprocs := subprocs self;
     futures := futures self; next_future := next_future self |}.

Definition set_valid_shapes (v : option (list pyobj)) (self : DryRunProcess) :=
  {| config := config self; training_shape := training_shape self;
     valid_shapes := v; shrinkage := shrinkage self;
     dry_run_queue := dry_run_queue self; shutdown_event := shutdown_event self;
     logger := logger self; subprocs := subprocs self;
     futures := futures self; next_future := next_future self |}.

Definition set_shrinkage (v : option Point) (self : DryRunProcess) :=
  {| config := config self; training_shape := training_shape self;
     valid_shapes := valid_shapes self; shrinkage := v;
     dry_run_queue := dry_run_queue self; shutdown_event := shutdown_event self;
     logger := logger self; subprocs := subprocs self;
     futures := futures self; next_future := next_future self |}.

Definition set_dry_run_queue (f : list job -> list job) (self : DryRunProcess) :=
  {| config := config self; training_shape := training_shape self;
     valid_shapes := valid_shapes self; shrinkage := shrinkage self;
     dry_run_queue := f (dry_run_queue self); shutdown_event := shutdown_event self;
     logger := logger self; subprocs := subprocs self;
     futures := futures self; next_future := next_future self |}.

Definition set_shutdown_event (self : DryRunProcess) :=
  {| config := config self; training_shape := training_shape self;
     valid_shapes := valid_shapes self; shrinkage := shrinkage self;
     dry_run_queue := dry_run_queue self; shutdown_event := true;
     logger := logger self; subprocs := subprocs self;
     futures := futures self; next_future := next_future self |}.

Definition add_log (r : log_record) (self : DryRunProcess) :=
  {| config := config self; training_shape := training_shape self;
     valid_shapes := valid_shapes self; shrinkage := shrinkage self;
     dry_run_queue := dry_run_queue self; shutdown_event := shutdown_event self;
     logger := r :: logger self; subprocs := subprocs self;
     futures := futures self; next_future := next_future self |}.

Definition add_subprocs (ps : list subproc) (self : DryRunProcess) :=
  {| config := config self; training_shape := training_shape self;
     valid_shapes := valid_shapes self; shrinkage := shrinkage self;
     dry_run_queue := dry_run_queue self; shutdown_event := shutdown_event self;
     logger := logger self; subprocs := reverse ps ++ subprocs self;
     futures := futures self; next_future := next_future self |}.

Definition set_future (fut : nat) (v : future_state) (self : DryRunProcess) :=
  {| config := config self; training_shape := training_shape self;
     valid_shapes := valid_shapes self; shrinkage := shrinkage self;
     dry_run_queue := dry_run_queue self; shutdown_event := shutdown_event self;
     logger := logger self; subprocs := subprocs self;
     futures := <[fut := v]> (futures self); next_future := next_future self |}.

Definition new_future (self : DryRunProcess) :=
  {| config := config self; training_shape := training_shape self;
     valid_shapes := valid_shapes self; shrinkage := shrinkage self;
     dry_run_queue := dry_run_queue self; shutdown_event := shutdown_event self;
     logger := logger self; subprocs := subprocs self;
     futures := futures self; next_future := S (next_future self) |}.

(** [self.training_shape], [self.valid_shapes] and [self.shrinkage] inside
    the methods that have an argument of the same name. *)
Definition self_training_shape := training_shape.
Definition self_valid_shapes := valid_shapes.
Definition self_shrinkage := shrinkage.

(** [self.logger.<level>(msg, *args)] *)
Definition log (l : level) (m : string) (a : list log_arg) : M DryRunProcess unit :=
  modify (add_log (LogRecord l m a)).

(** [assert cond, msg] *)
Definition py_assert {S} (cond : bool) (m : string) : M S unit :=
  if cond then ret tt else raise (AssertionError m).

(** [self.config[key]] *)
Definition config_getitem (key : string) : M DryRunProcess pyval :=
  let* cfg := gets config in lift (dict_getitem cfg key).

Definition as_int {S} (v : pyval) : M S Z :=
  match v with PInt n => ret n | _ => raise (TypeError "int expected") end.

Definition as_ints {S} (v : pyval) : M S (list Z) :=
  match v with PInts l => ret l | _ => raise (TypeError "sequence of int expected") end.

Definition as_str {S} (v : pyval) : M S string :=
  match v with PStr s => ret s | _ => raise (TypeError "str expected") end.

Definition as_dict {S} (v : pyval) : M S (gmap string pyval) :=
  match v with PDict d => ret d | _ => raise (TypeError "dict expected") end.

(** [[f a for a in l]] where [f] may raise. *)
Fixpoint list_comprehension {S A B} (f : A -> M S B) (l : list A) : M S (list B) :=
  match l with
  | [] => ret []
  | a :: l' =>
      let* v := f a in
      let* vs := list_comprehension f l' in
      ret (v :: vs)
  end.

Definition update_config (partial_config : list (string * pyval)) : M DryRunProcess unit :=
  fun self =>
    let '(r, cfg) := Config.update_config partial_config (config self) in
    (r, set_config (fun _ => cfg) self).

(** ** Arithmetic of [find_one_shape] *)

(** [int(q)] on a float: truncation toward zero. *)
Definition Qtrunc (q : Q) : Z := Z.quot (Qnum q) (Z.pos (Qden q)).

(** [int((1.0 - discard) * slack - 1)] *)
Definition reduce (discard : Q) (slack : Z) : Z :=
  Qtrunc ((1 - discard) * inject_Z slack - 1)%Q.

(** The value of a product in a 64-bit signed integer. *)
Definition wrap64 (n : Z) : Z := (n + 2 ^ 63) mod 2 ^ 64 - 2 ^ 63.

(** [numpy.prod] of an [int64] array. *)
Definition prod (a : list Z) : Z := wrap64 (foldr Z.mul 1 a).

(** [a.nonzero()[0]]: the indices of the nonzero entries, ascending. *)
Definition nonzero_indices (a : list Z) : list nat :=
  filter (fun i => a !!! i ≠ 0) (seq 0 (length a)).

(** The local function [update_nonzero] of [find_one_shape]. *)
Definition update_nonzero (diff : list Z) : list nat * list Z * nat :=
  let nonzero_index := nonzero_indices diff in
  let nonzero := (fun i => diff !!! i) <$> nonzero_index in
  let ndiff := length nonzero in
  (nonzero_index, nonzero, ndiff).

(** [numpy.argsort(a)]: the indices that sort [a] into ascending order.
    [a] has at most six entries here, for which numpy's default sort is an
    insertion sort: equal entries keep their order. *)
Fixpoint insert_sorted (a : list Z) (i : nat) (l : list nat) : list nat :=
  match l with
  | [] => [i]
  | j :: l' =>
      if bool_decide (a !!! i ≤ a !!! j) then i :: l
      else j :: insert_sorted a i l'
  end.

Definition argsort (a : list Z) : list nat :=
  foldr (insert_sorted a) [] (seq 0 (length a)).

(** ** The methods of [DryRunProcess] *)

Section DryRun.

(** What the subprocess of [_minimal_device_test] sends back for a
    device. *)
Variable _minimal_device_test : device -> bool.

(** What the subprocess of [_validate_shape] sends back: the exception
    caught, or [output.shape].  The model is an attribute of the process;
    the criterion is [Some criterion_kwargs] when [criterion_class] is
    not [None]. *)
Variable _validate_shape :
  device -> list Z -> option (gmap string pyval) -> exn + list Z.

Definition minimal_device_test (devices : list device) : M DryRunProcess (list device) :=
  let* _ := modify (add_subprocs (SubMinimalDeviceTest <$> devices)) in
  ret (filter (fun d => _minimal_device_test d = true) devices).

(** The first exception among the answers, as the loop
    [for e in output_shapes] meets it. *)
Fixpoint first_exception (output_shapes : list (exn + list Z)) : option exn :=
  match output_shapes with
  | [] => None
  | inl e :: _ => Some e
  | inr _ :: rest => first_exception rest
  end.

Definition output_of (r : exn + list Z) : list Z :=
  match r with inr o => o | inl _ => [] end.

(** The class of the output shape and its keyword arguments, from the
    configured output axis order and the output shape [out]. *)
Definition output_point (output_axis_order : string) (out : list Z) : result Point :=
  let axes := list_ascii_of_string output_axis_order in
  let output_shape :=
    if bool_decide ("t"%char ∈ axes) then Point4D
    else if bool_decide ("z"%char ∈ axes) then Point3D
    else Point2D in
  construct_kw output_shape
    (dict_of_items (filter (fun kv => kv.1 ≠ "b"%char) (zip axes out))).

(** [shape.drop_batch() - output_shape] *)
Definition compute_shrinkage (output_axis_order : string) (shape : Point) (out : list Z)
  : result Point :=
  rbind (output_point output_axis_order out) (fun output_shape =>
  rbind (drop_batch shape) (fun dropped =>
  sub dropped output_shape)).

(** [crit_class] and [criterion_kwargs]: [Some] of the keyword arguments
    in training mode, [None] when [crit_class] is [None]. *)
Definition criterion_arguments (train_mode : bool)
  : M DryRunProcess (option (gmap string pyval)) :=
  if train_mode then
    let* training := config_getitem TRAINING in
    let* lcc := lift (py_getitem training LOSS_CRITERION_CONFIG) in
    let* items := as_dict lcc in
    ret (Some (delete "method" items))
  else ret None.

(** [[shape[a] for a in self.config[INPUT_AXIS_ORDER]]] *)
Definition shape_argument (shape : Point) : M DryRunProcess (list Z) :=
  let* input_axis_order := config_getitem INPUT_AXIS_ORDER in
  let* input_axis_order := as_str input_axis_order in
  list_comprehension (fun a => lift (getitem shape a))
    (list_ascii_of_string input_axis_order).

Definition validate_shape (devices : list device) (shape : Point) (train_mode : bool)
  : M DryRunProcess bool :=
  let* _ := py_assert (bool_decide (devices ≠ [])) "" in
  let* criterion := criterion_arguments train_mode in
  let* input := shape_argument shape in
  let* _ := modify (add_subprocs ((fun d => SubValidateShape d input train_mode) <$> devices)) in
  let output_shapes := (fun d => _validate_shape d input criterion) <$> devices in
  match first_exception output_shapes with
  | Some e =>
      let* _ := log DEBUG "Shape %s invalid: %r" [AShape (Some shape); AExc e] in
      ret false
  | None =>
      let out := output_of (output_shapes !!! 0%nat) in
      if bool_decide (Exists (fun o => output_of o ≠ out) (drop 1 output_shapes)) then
        let* _ :=
          log WARNING
            "different devices returned different output shapes for same input shape!" [] in
        ret false
      else
        let* output_axis_order := config_getitem OUTPUT_AXIS_ORDER in
        let* output_axis_order := as_str output_axis_order in
        let* shrinkage' := lift (compute_shrinkage output_axis_order shape out) in
        let* recorded := gets shrinkage in
        match recorded with
        | None =>
            let* _ := modify (set_shrinkage (Some shrinkage')) in
            let* _ := log INFO "Determined shrinkage to be {%s}" [AShape (Some shrinkage')] in
            ret true
        | Some recorded => lift (Points.eq recorded shrinkage')
        end
  end.

(** *** [find_one_shape] *)

Section FindOneShape.

Variables (devices : list device) (train_mode : bool) (discard : Q).
Variables (shape_class : list ascii) (lower_limit : list Z).

(** The body of [for diff_i in search_order], from the remaining part
    of [search_order] on.  It gives the shape found, if any, and the
    array [diff] as the loop leaves it. *)
Fixpoint search_pass (search_order : list nat)
    (nonzero_index : list nat) (nonzero : list Z) (diff : list Z)
  : M DryRunProcess (option Point * list Z) :=
  match search_order with
  | [] => ret (None, diff)
  | diff_i :: search_order' =>
      let* shape := lift (construct shape_class (zip_with Z.add lower_limit diff)) in
      let* valid := validate_shape devices shape train_mode in
      if (valid : bool) then ret (Some shape, diff)
      else
        let reduced := reduce discard (nonzero !!! diff_i) in
        search_pass search_order' nonzero_index nonzero
          (<[nonzero_index !!! diff_i := reduced]> diff)
  end.

(** [while ndiff: ...], at most [fuel] times round the loop. *)
Fixpoint search_loop (fuel : nat) (diff : list Z)
    (nonzero_index : list nat) (nonzero : list Z) (ndiff : nat)
  : M DryRunProcess (option Point) :=
  if bool_decide (ndiff = 0%nat) then ret None
  else
    match fuel with
    | O => lift OutOfFuel
    | S fuel' =>
        let search_order := reverse (argsort nonzero) in
        let* '(found, diff') := search_pass search_order nonzero_index nonzero diff in
        match found with
        | Some shape => ret (Some shape)
        | None =>
            let '(nonzero_index', nonzero', ndiff') := update_nonzero diff' in
            search_loop fuel' diff' nonzero_index' nonzero' ndiff'
        end
    end.

End FindOneShape.

Definition find_one_shape_fuel (fuel : nat) (lower_limit upper_limit : Point)
    (devices : list device) (train_mode : bool) (discard : Q)
  : M DryRunProcess (option Point) :=
  let shape_class := order lower_limit in
  let* _ := py_assert (bool_decide (order upper_limit = shape_class))
              "type(upper_limit) == type(lower_limit)" in
  let lower_limit := array lower_limit in
  let upper_limit := array upper_limit in
  let diff := zip_with Z.sub upper_limit lower_limit in
  let* _ := py_assert (bool_decide (Forall (fun d => 0 ≤ d) diff)) "negative diff" in
  let* _ := py_assert (Qle_bool 0 discard && negb (Qle_bool 1 discard)) "" in
  let '(nonzero_index, nonzero, ndiff) := update_nonzero diff in
  let ncomb := prod nonzero in
  let* _ :=
    if bool_decide (ncomb > 10000) then
      log WARNING "Possibly testing too many combinations!!!" []
    else ret tt in
  search_loop devices train_mode discard shape_class lower_limit
    fuel diff nonzero_index nonzero ndiff.

(** A number of rounds the [while] loop cannot exceed: the largest
    entry of [upper_limit - lower_limit]. *)
Definition enough_fuel (lower_limit upper_limit : Point) : nat :=
  Z.to_nat (foldr Z.max 0 (zip_with Z.sub (array upper_limit) (array lower_limit))).

Definition find_one_shape (lower_limit upper_limit : Point)
    (devices : list device) (train_mode : bool) (discard : Q)
  : M DryRunProcess (option Point) :=
  find_one_shape_fuel (enough_fuel lower_limit upper_limit)
    lower_limit upper_limit devices train_mode discard.

(** *** Training shape and valid shapes *)

(** [BatchPointBase.from_spacetime(batch_size, input_channels,
    self.config[TRAINING][key])] *)
Definition bound_from_config (batch_size input_channels : Z) (training : pyval)
    (key : string) : M DryRunProcess Point :=
  let* spacetime := lift (py_getitem training key) in
  let* spacetime := as_ints spacetime in
  lift (batch_from_spacetime batch_size input_channels spacetime).

(** [if not cond: raise ValueError(msg)] *)
Definition unless_raise {S} (cond : bool) (m : string) : M S unit :=
  if cond then ret tt else raise (ValueError m).

(** [obj.drop_batch()] where [obj] may be [None]. *)
Definition drop_batch_optional (obj : option Point) : result Point :=
  match obj with
  | Some p => drop_batch p
  | None => Raise (AttributeError "'NoneType' object has no attribute 'drop_batch'")
  end.

Definition _determine_training_shape (devices : list device)
    (training_shape : option Point) : M DryRunProcess Point :=
  let* training := config_getitem TRAINING in
  let* batch_size := lift (py_getitem training BATCH_SIZE) in
  let* batch_size := as_int batch_size in
  let* input_channels := config_getitem INPUT_CHANNELS in
  let* input_channels := as_int input_channels in
  let* has_training_shape := lift (py_contains training TRAINING_SHAPE) in
  let* training_shape :=
    if (has_training_shape : bool) then
      let* spacetime := lift (py_getitem training TRAINING_SHAPE) in
      let* spacetime := as_ints spacetime in
      let* config_training_shape := lift (from_spacetime input_channels spacetime) in
      let* training_shape :=
        match training_shape with
        | None => ret config_training_shape
        | Some training_shape =>
            let* same := lift (Points.eq training_shape config_training_shape) in
            let* _ := py_assert same "training shape unequal to config training shape" in
            ret training_shape
        end in
      let* training_shape := lift (add_batch training_shape batch_size) in
      let* has_upper := lift (py_contains training TRAINING_SHAPE_UPPER_BOUND) in
      let* _ :=
        if (has_upper : bool) then
          let* training_shape_upper_bound :=
            bound_from_config batch_size input_channels training TRAINING_SHAPE_UPPER_BOUND in
          let* fits := lift (le training_shape training_shape_upper_bound) in
          unless_raise fits "training_shape incompatible with training_shape_upper_bound"
        else ret tt in
      let* has_lower := lift (py_contains training TRAINING_SHAPE_LOWER_BOUND) in
      let* training_shape_lower_bound :=
        if (has_lower : bool) then
          bound_from_config batch_size input_channels training TRAINING_SHAPE_LOWER_BOUND
        else ret (zeros (order training_shape)) in
      let* fits := lift (le training_shape_lower_bound training_shape) in
      let* _ :=
        unless_raise fits "training_shape_lower_bound incompatible with training_shape" in
      let* valid := validate_shape devices training_shape true in
      let* _ := unless_raise valid "training_shape could not be processed on devices" in
      ret (Some training_shape)
    else
      let* has_upper := lift (py_contains training TRAINING_SHAPE_UPPER_BOUND) in
      let* _ :=
        unless_raise has_upper
          "config is missing training_shape and/or training_shape_upper_bound." in
      let* training_shape_upper_bound :=
        bound_from_config batch_size input_channels training TRAINING_SHAPE_UPPER_BOUND in
      let* has_lower := lift (py_contains training TRAINING_SHAPE_LOWER_BOUND) in
      let* training_shape_lower_bound :=
        if (has_lower : bool) then
          bound_from_config batch_size input_channels training TRAINING_SHAPE_LOWER_BOUND
        else ret (zeros (order training_shape_upper_bound)) in
      let* fits := lift (le training_shape_lower_bound training_shape_upper_bound) in
      let* _ :=
        unless_raise fits
          "training_shape_lower_bound incompatible with training_shape_upper_bound" in
      find_one_shape training_shape_lower_bound training_shape_upper_bound
        devices false 0%Q in
  lift (drop_batch_optional training_shape).

Definition _determine_valid_shapes (devices : list device)
    (valid_shapes : option (list Point)) : M DryRunProcess unit :=
  match valid_shapes with
  | None =>
      let* training_shape := gets training_shape in
      modify (set_valid_shapes (Some [of_optional training_shape]))
  | Some valid_shapes =>
      let* verdicts :=
        list_comprehension
          (fun s =>
             let* batched := lift (add_batch s 1) in
             let* valid := validate_shape devices batched false in
             ret (OBool valid))
          valid_shapes in
      modify (set_valid_shapes (Some verdicts))
  end.

(** *** The worker *)

Definition failed_devices_of (devices working_devices : list device) : gset device :=
  list_to_set devices ∖ list_to_set working_devices.

(** The [try] block of [_dry_run]. *)
Definition _dry_run_try (devices : list device) (training_shape : option Point)
    (valid_shapes : option (list Point)) (shrinkage : option Point) (fut : nat)
  : M DryRunProcess unit :=
  let* _ :=
    if bool_decide (devices = []) then raise (ValueError "Dry run on empty device list")
    else ret tt in
  let* recorded := gets self_shrinkage in
  let* _ :=
    match recorded, shrinkage with
    | None, _ => modify (set_shrinkage shrinkage)
    | Some recorded, Some given =>
        let* differs := lift (ne given recorded) in
        if (differs : bool) then
          raise (ValueError "given shrinkage incompatible with self.shrinkage")
        else ret tt
    | Some _, None => ret tt
    end in
  let* working_devices := minimal_device_test devices in
  let failed_devices := failed_devices_of devices working_devices in
  let* _ :=
    if bool_decide (failed_devices ≠ ∅) then
      log ERROR "Minimal device test failed for {failed_devices}"
        [ADevices (elements failed_devices)]
    else ret tt in
  let* recorded := gets self_training_shape in
  let* _ :=
    match recorded, training_shape with
    | None, _ =>
        let* found := _determine_training_shape devices training_shape in
        modify (set_training_shape (Some found))
    | Some recorded, Some given =>
        let* differs := lift (ne recorded given) in
        if (differs : bool) then
          raise (ValueError "given training_shape incompatible with self.training_shape")
        else ret tt
    | Some _, None => ret tt
    end in
  let* _ := _determine_valid_shapes devices valid_shapes in
  let* self := get in
  let* _ :=
    modify (set_future fut
      (FutResult (DryRunRecord devices (self_training_shape self)
                    (self_valid_shapes self) (self_shrinkage self)))) in
  log INFO "dry run done" [].

Definition _dry_run (devices : list device) (training_shape : option Point)
    (valid_shapes : option (list Point)) (shrinkage : option Point) (fut : nat)
  : M DryRunProcess unit :=
  let* _ := log INFO "Starting dry run for %s" [ADevices devices] in
  try_except
    (_dry_run_try devices training_shape valid_shapes shrinkage fut)
    (fun e =>
       let* _ := log ERROR "traceback.format_exc()" [AExc e] in
       modify (set_future fut (FutException e))).

(** [dry_run]: a fresh future is created, the arguments are put on the
    queue and the future is returned. *)
Definition dry_run (devices : list device) (training_shape : option Point)
    (valid_shapes : option (list Point)) (shrinkage : option Point)
  : M DryRunProcess nat :=
  let* fut := gets next_future in
  let* _ := modify new_future in
  let* _ :=
    modify (set_dry_run_queue
      (fun q => q ++ [Job devices training_shape valid_shapes shrinkage fut])) in
  ret fut.

(** One round of the loop of [_dry_run_worker]: [queue.Empty] after the
    timeout when the queue is empty, the oldest job otherwise. *)
Definition worker_round : M DryRunProcess unit :=
  let* q := gets dry_run_queue in
  match q with
  | [] => ret tt
  | args :: _ =>
      let* _ := modify (set_dry_run_queue (drop 1)) in
      _dry_run (job_devices args) (job_training_shape args)
        (job_valid_shapes args) (job_shrinkage args) (job_fut args)
  end.

(** [while not self.shutdown_event.is_set(): ...], at most [fuel] rounds.
    The loop ends only when another thread sets the event; [OutOfFuel]
    stands for a worker that is still polling its queue. *)
Fixpoint _dry_run_worker (fuel : nat) : M DryRunProcess unit :=
  let* stop := gets shutdown_event in
  if (stop : bool) then ret tt
  else
    match fuel with
    | O => lift OutOfFuel
    | S fuel' =>
        let* _ := worker_round in
        _dry_run_worker fuel'
    end.

End DryRun.

(** ** The model adapters

    The constructors of [Exemplum] and [TensorflowModelAdapter].  What they
    do to the outside (instantiating the model, moving it to a device,
    loading weights) is recorded in a list of effects, newest first; the
    value of a successful construction is the record of the attributes. *)

Module Adapters.

(** An entry of [spec.inputs] or [spec.outputs]. *)
Record tensor_spec := {
  axes : string;
  shape : list Z;
  halo : option (list Z);
}.

(** [pybio_model.spec], as far as the constructors read it;
    [weights_source] is [spec.prediction.weights.source], [None] when
    [spec.prediction.weights] is [None]. *)
Record model_spec := {
  name : string;
  inputs : list tensor_spec;
  outputs : list tensor_spec;
  framework : string;
  weights_source : option string;
  preprocess : list string;
  postprocess : list string;
}.

Inductive effect :=
| GetInstance (what : string)
| ModelTo (d : device)
| TorchLoad (source : string) (map_location : device)
| LoadStateDict
| KerasLoadModel (source : string)
| SetModel.

Inductive batch_transform := _noop | _add_batch_dim | _remove_batch_dim.

Record adapter := {
  adapter_name : string;
  _internal_input_axes : string;
  _internal_output_axes : string;
  input_axes : string;
  _input_batch_dimension_transform : batch_transform;
  input_shape : list (ascii * Z);
  output_axes : string;
  _output_batch_dimension_transform : batch_transform;
  adapter_halo : list (ascii * Z);
  devices : list device;
  _prediction_preprocess : list string;
  _prediction_postprocess : list string;
}.

Definition do (e : effect) : M (list effect) unit := modify (cons e).

(** [s[1:]] on a string. *)
Definition str_tail (s : string) : string :=
  match s with EmptyString => EmptyString | String _ s' => s' end.

(** [l[0]] *)
Definition first {A} (l : list A) : result A :=
  match l with
  | a :: _ => Ok a
  | [] => Raise (IndexError "list index out of range")
  end.

(** [halo or [0 for _ in axes]] *)
Definition halo_or_zeros (h : option (list Z)) (out_axes : string) : list Z :=
  match h with
  | Some (v :: h') => v :: h'
  | _ => (fun _ => 0) <$> list_ascii_of_string out_axes
  end.

Section Constructors.

(** [has_batch_dim] of [model_adapter/_utils.py], which is not among
    the sources; it is a parameter of the development. *)
Variable has_batch_dim : string -> result bool.

(** The part the two constructors share word for word: from the check
    of the number of inputs and outputs to [self.halo]. *)
Definition read_spec (spec : model_spec) (check_framework : bool)
  : M (list effect)
      (string * string * string * batch_transform * list (ascii * Z)
       * string * batch_transform * list (ascii * Z)) :=
  let* _ :=
    if bool_decide (length (inputs spec) ≠ 1%nat) || bool_decide (length (outputs spec) ≠ 1%nat)
    then raise (NotImplementedError "Only single input, single output models are supported")
    else ret tt in
  let* _ := py_assert (bool_decide (length (inputs spec) = 1%nat)) "" in
  let* _ := py_assert (bool_decide (length (outputs spec) = 1%nat)) "" in
  let* _ :=
    if check_framework then py_assert (bool_decide (framework spec = "tensorflow")) ""
    else ret tt in
  let* _input := lift (first (inputs spec)) in
  let* _output := lift (first (outputs spec)) in
  let internal_in := axes _input in
  let internal_out := axes _output in
  let* in_batch := lift (has_batch_dim internal_in) in
  let '(in_axes, in_transform, _input_shape) :=
    if (in_batch : bool) then (str_tail internal_in, _add_batch_dim, drop 1 (shape _input))
    else (internal_in, _noop, shape _input) in
  let in_shape := zip (list_ascii_of_string in_axes) _input_shape in
  let _halo := halo_or_zeros (halo _output) (axes _output) in
  let* out_batch := lift (has_batch_dim internal_out) in
  let '(out_axes, out_transform, _halo) :=
    if (out_batch : bool) then (str_tail internal_out, _remove_batch_dim, drop 1 _halo)
    else (internal_out, _noop, _halo) in
  let out_halo := zip (list_ascii_of_string out_axes) _halo in
  ret (internal_in, internal_out, in_axes, in_transform, in_shape,
       out_axes, out_transform, out_halo).

End Constructors.

Module Exemplum.
Section Init.
Variable has_batch_dim : string -> result bool.

Definition __init__ (spec : model_spec) (devs : list device)
  : M (list effect) adapter :=
  let* '(internal_in, internal_out, in_axes, in_transform, in_shape,
         out_axes, out_transform, out_halo) := read_spec has_batch_dim spec false in
  let* _ := do (GetInstance "pybio_model") in
  let* _ :=
    if bool_decide (framework spec = "pytorch") then
      let* device0 := lift (first devs) in
      let* _ := do (ModelTo device0) in
      match weights_source spec with
      | Some source =>
          let* device0 := lift (first devs) in
          let* _ := do (TorchLoad source device0) in
          do LoadStateDict
      | None => ret tt
      end
    else raise (NotImplementedError "") in
  let* _ := for_each (preprocess spec) (fun tf => do (GetInstance tf)) in
  let* _ := for_each (postprocess spec) (fun tf => do (GetInstance tf)) in
  ret {| adapter_name := name spec;
         _internal_input_axes := internal_in;
         _internal_output_axes := internal_out;
         input_axes := in_axes;
         _input_batch_dimension_transform := in_transform;
         input_shape := in_shape;
         output_axes := out_axes;
         _output_batch_dimension_transform := out_transform;
         adapter_halo := out_halo;
         devices := devs;
         _prediction_preprocess := preprocess spec;
         _prediction_postprocess := postprocess spec |}.

End Init.
End Exemplum.

Module TensorflowModelAdapter.
Section Init.
Variable has_batch_dim : string -> result bool.

Definition __init__ (spec : model_spec) (devs : list device)
  : M (list effect) adapter :=
  let* '(internal_in, internal_out, in_axes, in_transform, in_shape,
         out_axes, out_transform, out_halo) := read_spec has_batch_dim spec true in
  let* _ := do (GetInstance "pybio_model") in
  let* source :=
    match weights_source spec with
    | Some source => ret source
    | None => raise (AttributeError "'NoneType' object has no attribute 'source'")
    end in
  let* _ := do (KerasLoadModel source) in
  let* _ := do SetModel in
  ret {| adapter_name := name spec;
         _internal_input_axes := internal_in;
         _internal_output_axes := internal_out;
         input_axes := in_axes;
         _input_batch_dimension_transform := in_transform;
         input_shape := in_shape;
         output_axes := out_axes;
         _output_batch_dimension_transform := out_transform;
         adapter_halo := out_halo;
         devices := [];
         _prediction_preprocess := [];
         _prediction_postprocess := [] |}.

End Init.
End TensorflowModelAdapter.

End Adapters.

(** ** The beginning and the end of a [DryRunProcess] *)

Section Lifecycle.

(** The classes that [torch.nn] and [inferno.extensions.criteria] define,
    by name: [getattr(module, name, None)].  Both modules are outside the
    program. *)
Context {criterion_class : Type}.
Variables torch_nn criteria : string -> option criterion_class.

(** [DryRunProcess.__init__]: the process and its [criterion_class].  The
    worker thread it starts is [_dry_run_worker]. *)
Definition DryRunProcess__init__ (config : gmap string pyval)
  : result (DryRunProcess * criterion_class) :=
  rbind (dict_getitem config TRAINING) (fun training =>
  rbind (py_getitem training LOSS_CRITERION_CONFIG) (fun lcc =>
  rbind (py_getitem lcc "method") (fun method =>
  match method with
  | PStr method =>
      let found :=
        match torch_nn method with
        | Some c => Some c
        | None => criteria method
        end in
      match found with
      | None => Raise (ValueError "Criterion {method} not found.")
      | Some c =>
          Ok ({| config := config; training_shape := None; valid_shapes := None;
                 shrinkage := None; dry_run_queue := []; shutdown_event := false;
                 logger := [LogRecord INFO "started" []]; subprocs := [];
                 futures := ∅; next_future := 0 |}, c)
      end
  | _ => Raise (TypeError "getattr(): attribute name must be string")
  end))).

End Lifecycle.

(** [DryRunProcess.shutdown].  [Thread.join] with a timeout returns when the
    worker has left its loop or the time is over; it does not raise. *)
Definition shutdown : M DryRunProcess unit :=
  let* _ := log DEBUG "Shutting down..." [] in
  let* _ := modify set_shutdown_event in
  let* _ := log DEBUG "Shutdown complete" [] in
  ret tt.

(** ** The batch dimension of the model adapters

    The helpers [_noop], [_remove_batch_dim] and [_add_batch_dim] of both
    adapter files.  A tensor is its shape, which is all the helpers look
    at; [reshape] fails when the number of elements changes. *)

Module Transforms.

Definition numel (shape : list Z) : Z := foldr Z.mul 1 shape.

(** [t.reshape(new_shape)] *)
Definition reshape (t new_shape : list Z) : option (list Z) :=
  if bool_decide (numel t = numel new_shape) then Some new_shape else None.

Definition _noop (tensor : list Z) : list Z := tensor.

(** [[t.reshape(t.shape[1:]) for t in batch]] *)
Fixpoint _remove_batch_dim (batch : list (list Z)) : option (list (list Z)) :=
  match batch with
  | [] => Some []
  | t :: batch' =>
      match reshape t (drop 1 t) with
      | Some t' =>
          match _remove_batch_dim batch' with
          | Some ts => Some (t' :: ts)
          | None => None
          end
      | None => None
      end
  end.

(** [tensor.reshape((1,) + tensor.shape)] *)
Definition _add_batch_dim (tensor : list Z) : option (list Z) :=
  reshape tensor (1 :: tensor).

End Transforms.

(** ** [tiktorch/server/reader.py] *)

Module Reader.

Definition MODEL_EXTENSIONS : list string := [".model.yaml"; ".model.yml"].

(** [s.endswith(suffix)] *)
Definition endswith (s suffix : string) : bool :=
  bool_decide (list_ascii_of_string suffix `suffix_of` list_ascii_of_string s).

(** [s.endswith(suffixes)] for a tuple of suffixes. *)
Definition endswith_any (s : string) (suffixes : list string) : bool :=
  existsb (endswith s) suffixes.

Fixpoint guess_model_path (file_names : list string) : option string :=
  match file_names with
  | [] => None
  | file_name :: file_names' =>
      if endswith_any file_name MODEL_EXTENSIONS then Some file_name
      else guess_model_path file_names'
  end.

(** What [eval_model_zip] raises: the [Exception] of its own, or what a
    function it calls raised. *)
Inductive error :=
| Exception (msg : string)
| Raised (e : exn).

(** What [eval_model_zip] does to the file system and to the libraries,
    oldest first. *)
Inductive effect :=
| Mkdtemp (path : string)
| ExtractAll (path : string)
| LoadModel (spec_file root_path cache_path : string)
| CreateModelAdapter (devices : list device)
| Train (devices : list device)
| Rmtree (path : string).

Section EvalModelZip.

(** The model description and the adapter are opaque here. *)
Context {pybio_model model_adapter : Type}.

(** The directory [tempfile.mkdtemp] creates, and the names that
    [temp_path.glob("*")] lists once the archive is extracted there. *)
Variable temp_path : string.
Variable extracted : list string.
(** [spec.utils.load_model], [pybio_model.spec.training is None],
    [create_model_adapter] and [train], which are outside the file. *)
Variable load_model : string -> string -> string -> exn + pybio_model.
Variable training_is_None : pybio_model -> bool.
Variable create_model_adapter : pybio_model -> list device -> exn + model_adapter.
Variable train : pybio_model -> list device -> exn + model_adapter.

Definition eval_model_zip (devices : list device) (cache_path : option string)
  : (error + model_adapter) * list effect :=
  let cache_path := default (temp_path +:+ "/cache") cache_path in
  let trace := [Mkdtemp temp_path; ExtractAll temp_path] in
  match guess_model_path extracted with
  | None =>
      (inl (Exception
              "Model config file not found, make sure that .model.yaml file in the root of your model archive"),
       trace)
  | Some "" =>
      (inl (Exception
              "Model config file not found, make sure that .model.yaml file in the root of your model archive"),
       trace)
  | Some spec_file_str =>
      let trace := trace ++ [LoadModel spec_file_str temp_path cache_path] in
      match load_model spec_file_str temp_path cache_path with
      | inl e => (inl (Raised e), trace)
      | inr pybio_model =>
          if training_is_None pybio_model then
            let trace := trace ++ [CreateModelAdapter devices] in
            match create_model_adapter pybio_model devices with
            | inl e => (inl (Raised e), trace)
            | inr adapter => (inr adapter, trace)
            end
          else
            let trace := trace ++ [Train devices] in
            match train pybio_model devices with
            | inl e => (inl (Raised e), trace)
            | inr ret => (inr ret, trace ++ [Rmtree temp_path])
            end
      end
  end.

End EvalModelZip.

End Reader.

(** * Vocabulary of the properties *)

(** Computations that only read the state and end within the program. *)
Definition readonly {S A} (m : M S A) : Prop :=
  forall s r s', m s = (r, s') -> s' = s /\ r <> OutOfFuel.

(** ** [update_config] *)

(** What one item of a nested dict does to the nested mapping. *)
Definition merge_item (d : gmap string pyval) (kv : string * pyval) : gmap string pyval :=
  if is_None kv.2 then delete kv.1 d else <[kv.1 := kv.2]> d.

(** The entry of a key after an item [(key, v)] of the partial configuration
    has been processed, from the entry before. *)
Definition entry_after (old : option pyval) (v : pyval) : option pyval :=
  match v with
  | PNone => None
  | PDict sub =>
      match old with
      | Some (PDict d) => Some (PDict (foldl merge_item d (map_to_list sub)))
      | _ => old
      end
  | _ => Some v
  end.

(** ** [validate_shape] *)

(** The attributes a rejected probe leaves alone: everything but the log
    and the list of subprocesses. *)
Definition frame (st : DryRunProcess) :=
  (config st, training_shape st, valid_shapes st, shrinkage st,
   dry_run_queue st, shutdown_event st, futures st, next_future st).

(** What no probe changes, and the one way [self.shrinkage] can change:
    from [None] to a value. *)
Definition probes (st st' : DryRunProcess) : Prop :=
  config st' = config st
  /\ training_shape st' = training_shape st
  /\ valid_shapes st' = valid_shapes st
  /\ dry_run_queue st' = dry_run_queue st
  /\ shutdown_event st' = shutdown_event st
  /\ futures st' = futures st
  /\ next_future st' = next_future st
  /\ forall s, shrinkage st = Some s -> shrinkage st' = Some s.

(** The subprocesses one call of [validate_shape] starts. *)
Definition launched (devices : list device) (input : list Z) (train_mode : bool)
  : list subproc :=
  (fun d => SubValidateShape d input train_mode) <$> devices.

(** Some answer after the first differs from the first. *)
Definition diverging (output_shapes : list (exn + list Z)) : Prop :=
  Exists (fun o => output_of o ≠ output_of (output_shapes !!! 0%nat)) (drop 1 output_shapes).

Definition debug_invalid (shape : Point) (e : exn) : log_record :=
  LogRecord DEBUG "Shape %s invalid: %r" [AShape (Some shape); AExc e].

Definition warning_different : log_record :=
  LogRecord WARNING
    "different devices returned different output shapes for same input shape!" [].

Definition info_shrinkage (s : Point) : log_record :=
  LogRecord INFO "Determined shrinkage to be {%s}" [AShape (Some s)].

Section ValidateShapeVocabulary.

Variable _validate_shape :
  device -> list Z -> option (gmap string pyval) -> exn + list Z.

(** What the devices answer. *)
Definition answers (devices : list device) (input : list Z)
    (criterion : option (gmap string pyval)) : list (exn + list Z) :=
  (fun d => _validate_shape d input criterion) <$> devices.

(** Every way a call of [validate_shape] can go. *)
Inductive validate_outcome (devices : list device) (shape : Point) (train_mode : bool)
    (st : DryRunProcess) : result bool -> DryRunProcess -> Prop :=
| VRaiseEarly e :
    validate_outcome devices shape train_mode st (Raise e) st
| VRaiseLate e input :
    validate_outcome devices shape train_mode st (Raise e)
      (add_subprocs (launched devices input train_mode) st)
| VException criterion input e :
    devices ≠ [] ->
    criterion_arguments train_mode st = (Ok criterion, st) ->
    shape_argument shape st = (Ok input, st) ->
    first_exception (answers devices input criterion) = Some e ->
    validate_outcome devices shape train_mode st (Ok false)
      (add_log (debug_invalid shape e)
         (add_subprocs (launched devices input train_mode) st))
| VDiverging criterion input :
    devices ≠ [] ->
    criterion_arguments train_mode st = (Ok criterion, st) ->
    shape_argument shape st = (Ok input, st) ->
    first_exception (answers devices input criterion) = None ->
    diverging (answers devices input criterion) ->
    validate_outcome devices shape train_mode st (Ok false)
      (add_log warning_different
         (add_subprocs (launched devices input train_mode) st))
| VFirst criterion input output_axis_order computed :
    devices ≠ [] ->
    criterion_arguments train_mode st = (Ok criterion, st) ->
    shape_argument shape st = (Ok input, st) ->
    first_exception (answers devices input criterion) = None ->
    ¬ diverging (answers devices input criterion) ->
    config st !! OUTPUT_AXIS_ORDER = Some (PStr output_axis_order) ->
    compute_shrinkage output_axis_order shape
      (output_of (answers devices input criterion !!! 0%nat)) = Ok computed ->
    shrinkage st = None ->
    validate_outcome devices shape train_mode st (Ok true)
      (add_log (info_shrinkage computed)
         (set_shrinkage (Some computed)
            (add_subprocs (launched devices input train_mode) st)))
| VCompared criterion input output_axis_order computed recorded r :
    devices ≠ [] ->
    criterion_arguments train_mode st = (Ok criterion, st) ->
    shape_argument shape st = (Ok input, st) ->
    first_exception (answers devices input criterion) = None ->
    ¬ diverging (answers devices input criterion) ->
    config st !! OUTPUT_AXIS_ORDER = Some (PStr output_axis_order) ->
    compute_shrinkage output_axis_order shape
      (output_of (answers devices input criterion !!! 0%nat)) = Ok computed ->
    shrinkage st = Some recorded ->
    Points.eq recorded computed = r ->
    r <> OutOfFuel ->
    validate_outcome devices shape train_mode st r
      (add_subprocs (launched devices input train_mode) st).

End ValidateShapeVocabulary.

(** ** [find_one_shape] *)

(** The slack the specification announces:
    [floor((1 - discard) * old_slack) - 1], clamped so that it cannot
    increase. *)
Definition claimed_slack (discard : Q) (old_slack : Z) : Z :=
  Z.min old_slack (Qfloor ((1 - discard) * inject_Z old_slack)%Q - 1).

(** [0 <= discard < 1] *)
Definition valid_discard (discard : Q) : Prop :=
  Qle_bool 0 discard && negb (Qle_bool 1 discard) = true.

(** The array [diff] after the iterations of a pass over [search_order]
    that all met an invalid shape. *)
Definition pass_result (discard : Q) (nonzero_index : list nat) (nonzero : list Z)
    (search_order : list nat) (diff : list Z) : list Z :=
  foldl (fun d diff_i => <[nonzero_index !!! diff_i := reduce discard (nonzero !!! diff_i)]> d)
    diff search_order.

(** The array [diff] after a whole pass of invalid shapes that starts from
    [diff]. *)
Definition full_pass (discard : Q) (diff : list Z) : list Z :=
  let '(nonzero_index, nonzero, _) := update_nonzero diff in
  pass_result discard nonzero_index nonzero (reverse (argsort nonzero)) diff.

(** [diff] is entrywise between 0 and [diff0]. *)
Definition shrunk (diff diff0 : list Z) : Prop :=
  length diff = length diff0
  /\ forall j, (j < length diff0)%nat -> 0 <= diff !!! j <= diff0 !!! j.

Section Candidates.

Variable discard : Q.

(** The arrays [diff] at which a pass probes a shape, when every shape
    probed is invalid. *)
Fixpoint pass_candidates (search_order : list nat)
    (nonzero_index : list nat) (nonzero : list Z) (diff : list Z) : list (list Z) :=
  match search_order with
  | [] => []
  | diff_i :: search_order' =>
      diff :: pass_candidates search_order' nonzero_index nonzero
                (<[nonzero_index !!! diff_i := reduce discard (nonzero !!! diff_i)]> diff)
  end.

(** The same for the whole loop. *)
Fixpoint loop_candidates (fuel : nat) (diff : list Z) : list (list Z) :=
  let '(nonzero_index, nonzero, ndiff) := update_nonzero diff in
  if bool_decide (ndiff = 0%nat) then []
  else
    match fuel with
    | O => []
    | S fuel' =>
        let search_order := reverse (argsort nonzero) in
        pass_candidates search_order nonzero_index nonzero diff
        ++ loop_candidates fuel'
             (pass_result discard nonzero_index nonzero search_order diff)
    end.

End Candidates.

(** The arrays [diff] that [find_one_shape] probes when it finds every
    probed shape invalid. *)
Definition probed_diffs (lower_limit upper_limit : Point) (discard : Q) : list (list Z) :=
  loop_candidates discard (enough_fuel lower_limit upper_limit)
    (zip_with Z.sub (array upper_limit) (array lower_limit)).

(** [shape] lies elementwise within [[lower_limit, upper_limit]], in the
    program's own terms: [lower_limit <= shape <= upper_limit]. *)
Definition within (lower_limit shape upper_limit : Point) : Prop :=
  le lower_limit shape = Ok true /\ le shape upper_limit = Ok true.

Section SearchVocabulary.

Variable _validate_shape :
  device -> list Z -> option (gmap string pyval) -> exn + list Z.
Variables (devices : list device) (train_mode : bool).
Variables (shape_class : list ascii) (lower_limit : list Z).

(** The candidate at [diff] was probed from a state like [st] and found
    invalid. *)
Definition rejected (st : DryRunProcess) (diff : list Z) : Prop :=
  exists shape st1 st2,
    construct shape_class (zip_with Z.add lower_limit diff) = Ok shape
    /\ frame st1 = frame st
    /\ validate_shape _validate_shape devices shape train_mode st1 = (Ok false, st2).

(** [shape] is the candidate at [diff] and the probe accepted it, taking
    the process to [st']. *)
Definition accepted (st : DryRunProcess) (diff : list Z) (shape : Point)
    (st' : DryRunProcess) : Prop :=
  construct shape_class (zip_with Z.add lower_limit diff) = Ok shape
  /\ exists st1,
       frame st1 = frame st
       /\ validate_shape _validate_shape devices shape train_mode st1 = (Ok true, st').

End SearchVocabulary.

(** ** The worker *)

(** The attributes of the worker: no method called by [_dry_run] touches
    them before the future is resolved. *)
Definition worker_frame (st : DryRunProcess) :=
  (dry_run_queue st, shutdown_event st, futures st, next_future st).

(** [m] ends within the program and leaves the worker's attributes alone. *)
Definition steady {A} (m : M DryRunProcess A) : Prop :=
  forall s r s', m s = (r, s') -> worker_frame s' = worker_frame s /\ r <> OutOfFuel.

(** The state in which the [try] block of [_dry_run] starts. *)
Definition started (devices : list device) (st : DryRunProcess) : DryRunProcess :=
  add_log (LogRecord INFO "Starting dry run for %s" [ADevices devices]) st.

Definition logged_exception (e : exn) : log_record :=
  LogRecord ERROR "traceback.format_exc()" [AExc e].

(** The record logged for the devices that fail the minimal test. *)
Definition logged_failed (failed : list device) : log_record :=
  LogRecord ERROR "Minimal device test failed for {failed_devices}" [ADevices failed].

(** [m] relates the state it starts from to the state it ends in by [R]. *)
Definition preserves {A} (R : relation DryRunProcess) (m : M DryRunProcess A) : Prop :=
  forall s r s', m s = (r, s') -> R s s'.

(** Every validity probe among [new] was launched on each of [devices]. *)
Definition on_all_devices (devices : list device) (new : list subproc) : Prop :=
  forall d input train_mode,
    SubValidateShape d input train_mode ∈ new ->
    forall d', d' ∈ devices -> SubValidateShape d' input train_mode ∈ new.

(** From [st] to [st'] the log has only grown, and the subprocesses started
    in between probed all of [devices]. *)
Definition probed_all (devices : list device) (st st' : DryRunProcess) : Prop :=
  logger st `suffix_of` logger st'
  /\ exists new, subprocs st' = new ++ subprocs st /\ on_all_devices devices new.

(** ** Further vocabulary *)

(** [m] leaves the state as it is. *)
Definition stateless {S A} (m : M S A) : Prop :=
  forall s r s', m s = (r, s') -> s' = s.

(** [m] reads nothing of the process but its configuration. *)
Definition config_only {A} (m : M DryRunProcess A) : Prop :=
  readonly m /\ forall s s1, config s1 = config s -> fst (m s1) = fst (m s).

(** The slack that is left to search: the sum of the entries of [diff]. *)
Definition total_slack (diff : list Z) : Z := foldr Z.add 0 diff.

(** The configuration asks for a search of the training shape between
    [lower_limit] and [upper_limit]: it has no training shape, it has an
    upper bound, and the lower bound is the configured one or all zeros. *)
Definition search_bounds (st : DryRunProcess) (lower_limit upper_limit : Point) : Prop :=
  exists (training : gmap string pyval) batch_size input_channels upper,
    config st !! TRAINING = Some (PDict training)
    /\ training !! BATCH_SIZE = Some (PInt batch_size)
    /\ config st !! INPUT_CHANNELS = Some (PInt input_channels)
    /\ training !! TRAINING_SHAPE = None
    /\ training !! TRAINING_SHAPE_UPPER_BOUND = Some (PInts upper)
    /\ batch_from_spacetime batch_size input_channels upper = Ok upper_limit
    /\ match training !! TRAINING_SHAPE_LOWER_BOUND with
       | Some lower =>
           exists spacetime,
             lower = PInts spacetime
             /\ batch_from_spacetime batch_size input_channels spacetime = Ok lower_limit
       | None => lower_limit = zeros (order upper_limit)
       end.

(** The configuration pins the training shape to [shape], with batches of
    [batch_size]. *)
Definition pinned_shape (st : DryRunProcess) (batch_size : Z) (shape : Point) : Prop :=
  exists (training : gmap string pyval) input_channels spacetime,
    config st !! TRAINING = Some (PDict training)
    /\ training !! BATCH_SIZE = Some (PInt batch_size)
    /\ config st !! INPUT_CHANNELS = Some (PInt input_channels)
    /\ training !! TRAINING_SHAPE = Some (PInts spacetime)
    /\ from_spacetime input_channels spacetime = Ok shape.

(** What [None.drop_batch()] raises. *)
Definition no_drop_batch : exn :=
  AttributeError "'NoneType' object has no attribute 'drop_batch'".

(** What a dry run leaves of the negotiation so far: the configuration,
    and the training shape and the shrinkage once they are set. *)
Definition keeps_negotiated (st st' : DryRunProcess) : Prop :=
  config st' = config st
  /\ (forall t, training_shape st = Some t -> training_shape st' = Some t)
  /\ (forall s, shrinkage st = Some s -> shrinkage st' = Some s).

(** * Example inputs

    A two-dimensional single-channel model: axis orders ["bcyx"], batch
    size 1.  The networks below stand for what the subprocesses answer. *)

Module Examples.

Definition criterion_config : pyval := PDict {[ "method" := PStr "MSELoss" ]}.

Definition config_of (training : gmap string pyval) : gmap string pyval :=
  {[ INPUT_CHANNELS := PInt 1;
     INPUT_AXIS_ORDER := PStr "bcyx";
     OUTPUT_AXIS_ORDER := PStr "bcyx";
     TRAINING := PDict training ]}.

(** Training shape searched between 4x4 and 6x7. *)
Definition searched : gmap string pyval :=
  {[ BATCH_SIZE := PInt 1;
     TRAINING_SHAPE_LOWER_BOUND := PInts [4; 4];
     TRAINING_SHAPE_UPPER_BOUND := PInts [6; 7];
     LOSS_CRITERION_CONFIG := criterion_config ]}.

(** Training shape pinned to 4x4. *)
Definition pinned : gmap string pyval :=
  {[ BATCH_SIZE := PInt 1;
     TRAINING_SHAPE := PInts [4; 4];
     LOSS_CRITERION_CONFIG := criterion_config ]}.

(** A process right after [__init__]. *)
Definition fresh (training : gmap string pyval) : DryRunProcess :=
  {| config := config_of training; training_shape := None; valid_shapes := None;
     shrinkage := None; dry_run_queue := []; shutdown_event := false;
     logger := []; subprocs := []; futures := ∅; next_future := 0 |}.

Definition batch_point2d (b c y x : Z) : Point :=
  [("b"%char, b); ("c"%char, c); ("y"%char, y); ("x"%char, x)].

Definition point2d (c y x : Z) : Point :=
  [("c"%char, c); ("y"%char, y); ("x"%char, x)].

Definition lower : Point := batch_point2d 1 1 4 4.
Definition upper : Point := batch_point2d 1 1 6 7.

(** A network that keeps the shape of its input. *)
Definition same_shape (d : device) (shape : list Z)
    (criterion : option (gmap string pyval)) : exn + list Z :=
  inr shape.

(** A network that keeps the shape but only runs on inputs of height 4
    and width 7. *)
Definition picky (d : device) (shape : list Z)
    (criterion : option (gmap string pyval)) : exn + list Z :=
  match shape with
  | [_; _; y; x] =>
      if bool_decide (y = 4 /\ x = 7) then inr shape
      else inl (ValueError "out of memory")
  | _ => inl (ValueError "rank")
  end.

(** A network that keeps the shape but only runs on inputs of height 4
    and width 4. *)
Definition smallest_only (d : device) (shape : list Z)
    (criterion : option (gmap string pyval)) : exn + list Z :=
  match shape with
  | [_; _; y; x] =>
      if bool_decide (y = 4 /\ x = 4) then inr shape
      else inl (ValueError "out of memory")
  | _ => inl (ValueError "rank")
  end.

(** A network that runs nowhere. *)
Definition broken (d : device) (shape : list Z)
    (criterion : option (gmap string pyval)) : exn + list Z :=
  inl (ValueError "out of memory").

(** A network that runs on the cpu only. *)
Definition cpu_only (d : device) (shape : list Z)
    (criterion : option (gmap string pyval)) : exn + list Z :=
  if bool_decide (d = "cpu") then inr shape else inl (ValueError "no such device").

(** A network whose output is one pixel narrower on the second gpu. *)
Definition uneven (d : device) (shape : list Z)
    (criterion : option (gmap string pyval)) : exn + list Z :=
  match shape with
  | [b; c; y; x] => if bool_decide (d = "cuda:1") then inr [b; c; y; x - 1] else inr shape
  | _ => inl (ValueError "rank")
  end.

Definition all_devices_work (d : device) : bool := true.

Definition only_cpu_works (d : device) : bool := bool_decide (d = "cpu").

(** A process that has recorded a shrinkage of zero. *)
Definition negotiated : DryRunProcess :=
  set_shrinkage (Some (point2d 0 0 0)) (fresh pinned).

(** A worker with two jobs on its queue, the first one without devices. *)
Definition two_jobs : DryRunProcess :=
  set_dry_run_queue
    (fun _ => [Job [] None None None 0; Job ["cpu"] None None None 1])
    (fresh pinned).

Definition partial_config : list (string * pyval) :=
  [ (TRAINING, PDict {[ BATCH_SIZE := PInt 2; TRAINING_SHAPE := PNone ]});
    (INPUT_CHANNELS, PInt 3);
    (OUTPUT_AXIS_ORDER, PNone) ].

Definition tensor_yx : Adapters.tensor_spec :=
  {| Adapters.axes := "bcyx"; Adapters.shape := [1; 1; 4; 4]; Adapters.halo := None |}.

(** A model description with two inputs. *)
Definition two_inputs : Adapters.model_spec :=
  {| Adapters.name := "unet"; Adapters.inputs := [tensor_yx; tensor_yx];
     Adapters.outputs := [tensor_yx]; Adapters.framework := "pytorch";
     Adapters.weights_source := Some "weights.pt";
     Adapters.preprocess := []; Adapters.postprocess := [] |}.

Definition batch_first (axes : string) : result bool :=
  Ok (bool_decide (String.get 0 axes = Some "b"%char)).

End Examples.

Module MoreExamples.

Import Examples.

(** Lower and upper bound of the training shape both 4x4. *)
Definition narrow : gmap string pyval :=
  {[ BATCH_SIZE := PInt 1;
     TRAINING_SHAPE_LOWER_BOUND := PInts [4; 4];
     TRAINING_SHAPE_UPPER_BOUND := PInts [4; 4];
     LOSS_CRITERION_CONFIG := criterion_config ]}.

(** Neither a training shape nor a bound. *)
Definition unbounded : gmap string pyval :=
  {[ BATCH_SIZE := PInt 1;
     LOSS_CRITERION_CONFIG := criterion_config ]}.

(** A process that has negotiated the training shape 4x4. *)
Definition settled : DryRunProcess :=
  set_training_shape (Some (point2d 1 4 4)) negotiated.

(** A worker whose second job asks for valid shapes. *)
Definition asked_twice : DryRunProcess :=
  set_dry_run_queue
    (fun _ => [Job ["cpu"] None None None 0;
               Job ["cpu"] None (Some [point2d 1 4 4]) None 1])
    (fresh pinned).

Definition torch_model : Adapters.model_spec :=
  {| Adapters.name := "unet"; Adapters.inputs := [tensor_yx];
     Adapters.outputs := [tensor_yx]; Adapters.framework := "pytorch";
     Adapters.weights_source := Some "weights.pt";
     Adapters.preprocess := []; Adapters.postprocess := [] |}.

Definition caffe_model : Adapters.model_spec :=
  {| Adapters.name := "unet"; Adapters.inputs := [tensor_yx];
     Adapters.outputs := [tensor_yx]; Adapters.framework := "caffe";
     Adapters.weights_source := Some "weights.caffemodel";
     Adapters.preprocess := []; Adapters.postprocess := [] |}.

(** The criteria of [torch.nn] and of [inferno.extensions.criteria], as
    far as the examples need them, each class by its qualified name. *)
Definition torch_nn (name : string) : option string :=
  if bool_decide (name = "MSELoss") then Some "torch.nn.MSELoss" else None.

Definition criteria (name : string) : option string :=
  if bool_decide (name = "SorensenDiceLoss")
  then Some "inferno.extensions.criteria.SorensenDiceLoss"
  else None.

End MoreExamples.

(** * Properties *)

(** ** The monad *)

Lemma bind_ok {S A B} (m : M S A) (k : A -> M S B) s a s' :
  m s = (Ok a, s') -> bind m k s = k a s'.
Proof. intros H. unfold bind. by rewrite H. Qed.

(** ** [update_config] *)

Module ConfigFacts.
Import Config.

Lemma update_subkey_dict key subkey subvalue (cfg d : gmap string pyval) :
  cfg !! key = Some (PDict d) ->
  update_subkey key subkey subvalue cfg
  = (Ok tt, <[key := PDict (merge_item d (subkey, subvalue))]> cfg).
Proof.
  intros Hkey. unfold update_subkey, merge_item. simpl.
  destruct (is_None subvalue) eqn:HN;
    unfold bind, lift, modify, dict_getitem, ret; rewrite Hkey; simpl.
  - case_bool_decide as Hin; simpl.
    + destruct Hin as [v Hv]. by rewrite Hv.
    + rewrite <- eq_None_not_Some in Hin. by rewrite delete_id, insert_id.
  - done.
Qed.

Lemma for_each_subkeys key (items : list (string * pyval)) :
  forall (cfg d : gmap string pyval),
  cfg !! key = Some (PDict d) ->
  for_each items (fun kv => update_subkey key kv.1 kv.2) cfg
  = (Ok tt, <[key := PDict (foldl merge_item d items)]> cfg).
Proof.
  induction items as [|[sk v] items IH]; intros cfg d Hkey; simpl.
  - unfold ret. by rewrite insert_id.
  - unfold bind. rewrite (update_subkey_dict _ _ _ _ d Hkey). simpl.
    rewrite (IH _ (merge_item d (sk, v))) by apply lookup_insert_eq.
    by rewrite insert_insert_eq.
Qed.

Lemma foldl_merge_item_lookup (items : list (string * pyval)) :
  NoDup items.*1 ->
  forall (d : gmap string pyval) subkey,
  foldl merge_item d items !! subkey
  = match (list_to_map items : gmap string pyval) !! subkey with
    | None => d !! subkey
    | Some PNone => None
    | Some v => Some v
    end.
Proof.
  induction items as [|[sk v] items IH]; intros Hnd d subkey; simpl.
  - by rewrite lookup_empty.
  - apply NoDup_cons in Hnd as [Hsk Hnd]. rewrite IH by done.
    destruct (decide (sk = subkey)) as [->|Hne].
    + rewrite lookup_insert_eq.
      rewrite (not_elem_of_list_to_map_1 items subkey) by done.
      unfold merge_item; simpl. destruct v; simpl;
        by rewrite ?lookup_delete_eq, ?lookup_insert_eq.
    + rewrite lookup_insert_ne by done.
      destruct (list_to_map items !! subkey) as [w|]; [done|].
      unfold merge_item; simpl. destruct v; simpl;
        by rewrite ?lookup_delete_ne, ?lookup_insert_ne.
Qed.

Lemma update_key_ok key value (cfg : gmap string pyval) :
  (forall sub, value = PDict sub -> exists d, cfg !! key = Some (PDict d)) ->
  exists cfg',
    update_key key value cfg = (Ok tt, cfg')
    /\ cfg' !! key = entry_after (cfg !! key) value
    /\ forall k, k ≠ key -> cfg' !! k = cfg !! k.
Proof.
  intros Hd. destruct value as [|n|s|l|sub]; simpl.
  - unfold bind, gets, modify, ret. case_bool_decide as Hin.
    + eexists; split; [done|]. split; [apply lookup_delete_eq|].
      intros k Hk. by apply lookup_delete_ne.
    + eexists; split; [done|]. rewrite <- eq_None_not_Some in Hin.
      by split.
  - eexists; split; [done|]. split; [apply lookup_insert_eq|].
    intros k Hk. by apply lookup_insert_ne.
  - eexists; split; [done|]. split; [apply lookup_insert_eq|].
    intros k Hk. by apply lookup_insert_ne.
  - eexists; split; [done|]. split; [apply lookup_insert_eq|].
    intros k Hk. by apply lookup_insert_ne.
  - destruct (Hd sub eq_refl) as [d Hkey].
    eexists; split; [by apply for_each_subkeys|]. rewrite Hkey.
    split; [apply lookup_insert_eq|].
    intros k Hk. by apply lookup_insert_ne.
Qed.

Lemma update_config_ok (partial_config : list (string * pyval)) :
  NoDup partial_config.*1 ->
  forall cfg : gmap string pyval,
  (forall key sub, (key, PDict sub) ∈ partial_config ->
     exists d, cfg !! key = Some (PDict d)) ->
  exists cfg',
    Config.update_config partial_config cfg = (Ok tt, cfg')
    /\ (forall key v, (key, v) ∈ partial_config ->
          cfg' !! key = entry_after (cfg !! key) v)
    /\ (forall key, key ∉ partial_config.*1 -> cfg' !! key = cfg !! key).
Proof.
  unfold Config.update_config.
  induction partial_config as [|[k0 v0] rest IH]; intros Hnd cfg Hdict; simpl.
  - exists cfg. split; [done|]. split; [|done].
    intros key v Hin. by apply elem_of_nil in Hin.
  - apply NoDup_cons in Hnd as [Hk0 Hnd].
    destruct (update_key_ok k0 v0 cfg) as (cfg1 & Hrun1 & Hk0' & Hother1).
    { intros sub ->. apply (Hdict k0 sub). left. }
    assert (Hne : forall key v, (key, v) ∈ rest -> key ≠ k0).
    { intros key v Hin ->. apply Hk0. apply list_elem_of_fmap. by exists (k0, v). }
    destruct (IH Hnd cfg1) as (cfg' & Hrun & Hin' & Hother).
    { intros key sub Hin. rewrite Hother1 by eauto.
      apply (Hdict key sub). by right. }
    exists cfg'. split.
    { unfold bind. simpl in Hrun1. by rewrite Hrun1. }
    split.
    + intros key v Hin. apply elem_of_cons in Hin as [[= -> ->]|Hin].
      * by rewrite Hother.
      * rewrite (Hin' key v Hin). by rewrite Hother1 by eauto.
    + intros key Hkey. rewrite not_elem_of_cons in Hkey. destruct Hkey as [Hkey1 Hkey2].
      simpl in Hkey1. rewrite Hother by done. by apply Hother1.
Qed.
End ConfigFacts.

(** ** Arithmetic of the slack *)

Section ReduceFacts.

(** Numerator and denominator of [(1 - discard) * slack - 1]. *)
Lemma reduce_quot (p : Z) (q : positive) (slack : Z) :
  reduce (p # q) slack = Z.quot ((Z.pos q - p) * slack - Z.pos q) (Z.pos q).
Proof.
  unfold reduce, Qtrunc. simpl. rewrite !Pos.mul_1_r. f_equal. lia.
Qed.

Lemma Qfloor_scaled (p : Z) (q : positive) (slack : Z) :
  Qfloor ((1 - (p # q)) * inject_Z slack)%Q = ((Z.pos q - p) * slack) / Z.pos q.
Proof.
  unfold Qfloor. simpl. rewrite !Pos.mul_1_r. f_equal. lia.
Qed.

Lemma Qle_bool_scaled (p : Z) (q : positive) (slack : Z) :
  Qle_bool 1 ((1 - (p # q)) * inject_Z slack)%Q = true <-> Z.pos q <= (Z.pos q - p) * slack.
Proof.
  rewrite Qle_bool_iff. unfold Qle. simpl. rewrite !Pos.mul_1_r. lia.
Qed.

Lemma discard_range (p : Z) (q : positive) :
  Qle_bool 0 (p # q) && negb (Qle_bool 1 (p # q)) = true <-> 0 <= p < Z.pos q.
Proof.
  rewrite andb_true_iff, negb_true_iff, <- not_true_iff_false, !Qle_bool_iff.
  unfold Qle. simpl. lia.
Qed.

(** The new slack is [floor((1 - discard) * old) - 1] as long as
    [(1 - discard) * old] is at least 1, and 0 below that. *)
Lemma reduce_cases (discard : Q) (slack : Z) :
  Qle_bool 0 discard && negb (Qle_bool 1 discard) = true ->
  1 <= slack ->
  reduce discard slack
  = if Qle_bool 1 ((1 - discard) * inject_Z slack)%Q
    then Qfloor ((1 - discard) * inject_Z slack)%Q - 1
    else 0.
Proof.
  destruct discard as [p q]. intros Hd%discard_range Hs.
  rewrite reduce_quot, Qfloor_scaled.
  destruct (Qle_bool 1 _) eqn:Hle.
  - apply Qle_bool_scaled in Hle.
    rewrite Z.quot_div_nonneg by lia.
    replace ((Z.pos q - p) * slack - Z.pos q)
      with ((Z.pos q - p) * slack + (-1) * Z.pos q) by lia.
    rewrite Z.div_add by lia. lia.
  - apply not_true_iff_false in Hle. rewrite Qle_bool_scaled in Hle.
    assert (Hneg : 0 <= - ((Z.pos q - p) * slack - Z.pos q) < Z.pos q) by nia.
    rewrite <- (Z.opp_involutive ((Z.pos q - p) * slack - Z.pos q)).
    rewrite Z.quot_opp_l by lia. rewrite Z.quot_small by lia. lia.
Qed.

Lemma reduce_bounds (discard : Q) (slack : Z) :
  Qle_bool 0 discard && negb (Qle_bool 1 discard) = true ->
  1 <= slack ->
  0 <= reduce discard slack <= slack - 1.
Proof.
  intros Hd Hs. rewrite reduce_cases by done.
  destruct discard as [p q]. apply discard_range in Hd.
  rewrite Qfloor_scaled.
  destruct (Qle_bool 1 _) eqn:Hle; [|lia].
  apply Qle_bool_scaled in Hle. split.
  - assert (1 <= (Z.pos q - p) * slack / Z.pos q); [|lia].
    apply Z.div_le_lower_bound; lia.
  - assert ((Z.pos q - p) * slack / Z.pos q <= slack); [|lia].
    apply Z.div_le_upper_bound; nia.
Qed.

Lemma reduce_no_discard (slack : Z) : reduce 0 slack = slack - 1.
Proof.
  unfold reduce, Qtrunc. simpl. rewrite Z.quot_1_r. lia.
Qed.

End ReduceFacts.

(** ** Read-only computations and [validate_shape] *)

Lemma readonly_ret {S A} (a : A) : readonly (ret a : M S A).
Proof. intros s r s' [= <- <-]. done. Qed.

Lemma readonly_raise {S A} e : readonly (raise e : M S A).
Proof. intros s r s' [= <- <-]. done. Qed.

Lemma readonly_gets {S A} (f : S -> A) : readonly (gets f).
Proof. intros s r s' [= <- <-]. done. Qed.

Lemma readonly_get {S} : readonly (get : M S S).
Proof. intros s r s' [= <- <-]. done. Qed.

Lemma readonly_lift {S A} (r : result A) : r <> OutOfFuel -> readonly (lift r : M S A).
Proof. intros Hr s r' s' [= <- <-]. done. Qed.

Lemma readonly_bind {S A B} (m : M S A) (k : A -> M S B) :
  readonly m -> (forall a, readonly (k a)) -> readonly (bind m k).
Proof.
  intros Hm Hk s r s' H. unfold bind in H.
  destruct (m s) as [[a|e|] s1] eqn:E; destruct (Hm _ _ _ E) as [-> Hne].
  - by apply (Hk a).
  - by simplify_eq.
  - done.
Qed.

Lemma rbind_no_OutOfFuel {A B} (r : result A) (k : A -> result B) :
  r <> OutOfFuel -> (forall a, k a <> OutOfFuel) -> rbind r k <> OutOfFuel.
Proof. destruct r; simpl; auto. Qed.

Lemma readonly_py_assert {S} c m : readonly (py_assert c m : M S unit).
Proof. destruct c; [apply readonly_ret|apply readonly_raise]. Qed.

Lemma readonly_config_getitem key : readonly (config_getitem key).
Proof.
  apply readonly_bind; [apply readonly_gets|]. intros cfg. apply readonly_lift.
  unfold dict_getitem. by destruct (cfg !! key).
Qed.

Lemma py_getitem_no_OutOfFuel v key : py_getitem v key <> OutOfFuel.
Proof. destruct v; simpl; try done. unfold dict_getitem. by destruct (d !! key). Qed.

Lemma py_contains_no_OutOfFuel v key : py_contains v key <> OutOfFuel.
Proof. by destruct v. Qed.

Lemma readonly_as_int {S} v : readonly (as_int v : M S Z).
Proof. destruct v; (apply readonly_ret || apply readonly_raise). Qed.
Lemma readonly_as_ints {S} v : readonly (as_ints v : M S (list Z)).
Proof. destruct v; (apply readonly_ret || apply readonly_raise). Qed.
Lemma readonly_as_str {S} v : readonly (as_str v : M S string).
Proof. destruct v; (apply readonly_ret || apply readonly_raise). Qed.
Lemma readonly_as_dict {S} v : readonly (as_dict v : M S (gmap string pyval)).
Proof. destruct v; (apply readonly_ret || apply readonly_raise). Qed.

Lemma readonly_list_comprehension {S A B} (f : A -> M S B) l :
  (forall a, readonly (f a)) -> readonly (list_comprehension f l).
Proof.
  intros Hf. induction l as [|a l IH]; simpl; [apply readonly_ret|].
  apply readonly_bind; [done|]. intros v.
  apply readonly_bind; [done|]. intros vs. apply readonly_ret.
Qed.

Lemma getitem_no_OutOfFuel p a : getitem p a <> OutOfFuel.
Proof. unfold getitem. by destruct (list_find _ p) as [[? [? ?]]|]. Qed.

Lemma readonly_criterion_arguments t : readonly (criterion_arguments t).
Proof.
  destruct t; simpl; [|apply readonly_ret].
  apply readonly_bind; [apply readonly_config_getitem|]. intros training.
  apply readonly_bind; [apply readonly_lift, py_getitem_no_OutOfFuel|]. intros lcc.
  apply readonly_bind; [apply readonly_as_dict|]. intros items. apply readonly_ret.
Qed.

Lemma readonly_shape_argument shape : readonly (shape_argument shape).
Proof.
  apply readonly_bind; [apply readonly_config_getitem|]. intros o.
  apply readonly_bind; [apply readonly_as_str|]. intros o'.
  apply readonly_list_comprehension. intros a. apply readonly_lift, getitem_no_OutOfFuel.
Qed.

Lemma same_axes_no_OutOfFuel p q : same_axes p q <> OutOfFuel.
Proof. unfold same_axes. by case_bool_decide. Qed.

Lemma sub_no_OutOfFuel p q : sub p q <> OutOfFuel.
Proof. apply rbind_no_OutOfFuel; [apply same_axes_no_OutOfFuel|done]. Qed.

Lemma eq_no_OutOfFuel p q : Points.eq p q <> OutOfFuel.
Proof. apply rbind_no_OutOfFuel; [apply same_axes_no_OutOfFuel|done]. Qed.

Lemma ne_no_OutOfFuel p q : ne p q <> OutOfFuel.
Proof. apply rbind_no_OutOfFuel; [apply eq_no_OutOfFuel|done]. Qed.

Lemma le_no_OutOfFuel p q : le p q <> OutOfFuel.
Proof. apply rbind_no_OutOfFuel; [apply same_axes_no_OutOfFuel|done]. Qed.

Lemma construct_no_OutOfFuel cls a : construct cls a <> OutOfFuel.
Proof. unfold construct. by case_bool_decide. Qed.

Lemma construct_kw_no_OutOfFuel cls kw : construct_kw cls kw <> OutOfFuel.
Proof. unfold construct_kw. by case_bool_decide. Qed.

Lemma drop_batch_no_OutOfFuel p : drop_batch p <> OutOfFuel.
Proof. destruct p as [|[a v] p]; simpl; [done|]. by case_bool_decide. Qed.

Lemma add_batch_no_OutOfFuel p n : add_batch p n <> OutOfFuel.
Proof. unfold add_batch. by case_bool_decide. Qed.

Lemma compute_shrinkage_no_OutOfFuel o shape out : compute_shrinkage o shape out <> OutOfFuel.
Proof.
  apply rbind_no_OutOfFuel; [apply construct_kw_no_OutOfFuel|]. intros p.
  apply rbind_no_OutOfFuel; [apply drop_batch_no_OutOfFuel|]. intros q.
  apply sub_no_OutOfFuel.
Qed.

Lemma from_spacetime_no_OutOfFuel c l : from_spacetime c l <> OutOfFuel.
Proof.
  unfold from_spacetime. destruct (length l) as [|[|[|[|[|n]]]]]; try done;
    apply construct_no_OutOfFuel.
Qed.

Lemma batch_from_spacetime_no_OutOfFuel b c l : batch_from_spacetime b c l <> OutOfFuel.
Proof.
  unfold batch_from_spacetime. destruct (length l) as [|[|[|[|[|n]]]]]; try done;
    apply construct_no_OutOfFuel.
Qed.

(** Equal axes and equal extents: equal shapes. *)
Lemma eq_true_iff (p q : Point) : Points.eq p q = Ok true <-> p = q.
Proof.
  unfold Points.eq, same_axes, order, array. split.
  - case_bool_decide as Ho; simpl; [|done]. intros [= Ha%bool_decide_eq_true].
    rewrite <- (zip_fst_snd p), <- (zip_fst_snd q). by rewrite Ho, Ha.
  - intros ->. rewrite bool_decide_true by done. simpl. by rewrite bool_decide_true.
Qed.

Lemma bind_inv {S A B} (m : M S A) (k : A -> M S B) s r s' :
  bind m k s = (r, s') ->
  (exists a s1, m s = (Ok a, s1) /\ k a s1 = (r, s'))
  \/ (exists e, m s = (Raise e, s') /\ r = Raise e)
  \/ (m s = (OutOfFuel, s') /\ r = OutOfFuel).
Proof.
  unfold bind. destruct (m s) as [[a|e|] s1]; intros H.
  - left. eauto.
  - right. left. simplify_eq. eauto.
  - right. right. by simplify_eq.
Qed.

Lemma bind_inv_readonly {S A B} (m : M S A) (k : A -> M S B) s r s' :
  readonly m ->
  bind m k s = (r, s') ->
  (exists a, m s = (Ok a, s) /\ k a s = (r, s'))
  \/ (exists e, m s = (Raise e, s) /\ r = Raise e /\ s' = s).
Proof.
  intros Hm H. apply bind_inv in H as [(a & s1 & Hms & Hk)|[(e & Hms & ->)|[Hms ->]]];
    destruct (Hm _ _ _ Hms) as [-> Hne]; [left|right|done]; eauto.
Qed.

Section ValidateShapeFacts.

Variable _validate_shape :
  device -> list Z -> option (gmap string pyval) -> exn + list Z.

Lemma validate_shape_outcome devices shape train_mode st r st' :
  validate_shape _validate_shape devices shape train_mode st = (r, st') ->
  validate_outcome _validate_shape devices shape train_mode st r st'.
Proof.
  unfold validate_shape. intros H.
  apply bind_inv_readonly in H as [([] & Hdev & H)|(e & _ & -> & ->)];
    [| apply VRaiseEarly | apply readonly_py_assert].
  assert (Hne : devices ≠ []).
  { unfold py_assert in Hdev. by case_bool_decide. }
  clear Hdev.
  apply bind_inv_readonly in H as [(criterion & Hcrit & H)|(e & _ & -> & ->)];
    [| apply VRaiseEarly | apply readonly_criterion_arguments].
  apply bind_inv_readonly in H as [(input & Hinput & H)|(e & _ & -> & ->)];
    [| apply VRaiseEarly | apply readonly_shape_argument].
  unfold bind at 1 in H. simpl in H.
  fold (launched devices input train_mode) in H.
  fold (answers _validate_shape devices input criterion) in H.
  destruct (first_exception (answers _validate_shape devices input criterion)) as [e|] eqn:Hexc.
  { injection H as <- <-. by eapply VException. }
  case_bool_decide as Hdiv.
  { injection H as <- <-. by eapply VDiverging. }
  apply bind_inv in H as [(o & s1 & Ho & H)|[(e & Ho & ->)|[Ho ->]]];
    destruct (readonly_config_getitem _ _ _ _ Ho) as [-> HneO]; [|apply VRaiseLate|done].
  apply bind_inv in H as [(oao & s1 & Hoao & H)|[(e & Hoao & ->)|[Hoao ->]]];
    destruct (readonly_as_str _ _ _ _ Hoao) as [-> HneO']; [|apply VRaiseLate|done].
  assert (Hcfg : config st !! OUTPUT_AXIS_ORDER = Some (PStr oao)).
  { unfold config_getitem, bind, gets, lift, dict_getitem in Ho. simpl in Ho.
    destruct (config st !! OUTPUT_AXIS_ORDER) as [v|]; [|done].
    injection Ho as ->. destruct o; try done. by injection Hoao as ->. }
  unfold bind at 1, lift at 1 in H.
  destruct (compute_shrinkage oao shape _) as [computed|e|] eqn:Hcomp.
  - unfold bind at 1, gets at 1 in H. simpl in H.
    destruct (shrinkage st) as [recorded|] eqn:Hrec.
    + unfold lift in H. injection H as <- <-.
      eapply VCompared; eauto. apply eq_no_OutOfFuel.
    + injection H as <- <-. by eapply VFirst.
  - injection H as <- <-. apply VRaiseLate.
  - by apply compute_shrinkage_no_OutOfFuel in Hcomp.
Qed.
End ValidateShapeFacts.

Section AnswerFacts.

(** No exception and no divergence: all answers are the same output
    shape. *)
Lemma agreeing_answers (output_shapes : list (exn + list Z)) :
  first_exception output_shapes = None ->
  ¬ diverging output_shapes ->
  Forall (fun o => o = inr (output_of (output_shapes !!! 0%nat))) output_shapes.
Proof.
  intros Hexc Hdiv.
  assert (Hinr : Forall (fun o => o = inr (output_of o)) output_shapes).
  { clear Hdiv. induction output_shapes as [|[e|o] l IH]; simpl in *; [done|done|].
    constructor; [done|]. by apply IH. }
  unfold diverging in Hdiv. rewrite <- Forall_Exists_neg in Hdiv.
  destruct output_shapes as [|o l]; [done|]. simpl in *.
  apply Forall_cons in Hinr as [Ho Hl]. constructor; [done|].
  rewrite drop_0 in Hdiv.
  apply Forall_forall. intros o' Hin.
  rewrite (proj1 (Forall_forall _ _) Hl o' Hin).
  f_equal. apply dec_stable. by apply (proj1 (Forall_forall _ _) Hdiv o' Hin).
Qed.

(** Two different answers without any exception: divergence. *)
Lemma different_answers_diverge (output_shapes : list (exn + list Z)) o1 o2 :
  first_exception output_shapes = None ->
  o1 ∈ output_shapes -> o2 ∈ output_shapes -> o1 <> o2 ->
  diverging output_shapes.
Proof.
  intros Hexc H1 H2 Hne.
  destruct (decide (diverging output_shapes)) as [|Hdiv]; [done|].
  exfalso. apply Hne.
  pose proof (agreeing_answers _ Hexc Hdiv) as Hall.
  rewrite (proj1 (Forall_forall _ _) Hall o1 H1).
  by rewrite (proj1 (Forall_forall _ _) Hall o2 H2).
Qed.

End AnswerFacts.

Section ValidateShapeRuns.

Variable _validate_shape :
  device -> list Z -> option (gmap string pyval) -> exn + list Z.

(** The call up to the answers of the devices. *)
Lemma validate_shape_exception devices shape train_mode st criterion input e :
  devices ≠ [] ->
  criterion_arguments train_mode st = (Ok criterion, st) ->
  shape_argument shape st = (Ok input, st) ->
  first_exception (answers _validate_shape devices input criterion) = Some e ->
  validate_shape _validate_shape devices shape train_mode st
  = (Ok false, add_log (debug_invalid shape e)
                 (add_subprocs (launched devices input train_mode) st)).
Proof.
  intros Hdev Hcrit Hinput Hexc. unfold validate_shape.
  rewrite bool_decide_true by done. unfold py_assert.
  rewrite (bind_ok _ _ st tt st) by done.
  rewrite (bind_ok _ _ _ _ _ Hcrit), (bind_ok _ _ _ _ _ Hinput).
  unfold bind at 1. simpl. unfold answers in Hexc. by rewrite Hexc.
Qed.

Lemma validate_shape_diverging devices shape train_mode st criterion input :
  devices ≠ [] ->
  criterion_arguments train_mode st = (Ok criterion, st) ->
  shape_argument shape st = (Ok input, st) ->
  first_exception (answers _validate_shape devices input criterion) = None ->
  diverging (answers _validate_shape devices input criterion) ->
  validate_shape _validate_shape devices shape train_mode st
  = (Ok false, add_log warning_different
                 (add_subprocs (launched devices input train_mode) st)).
Proof.
  intros Hdev Hcrit Hinput Hexc Hdiv. unfold validate_shape.
  rewrite bool_decide_true by done. unfold py_assert.
  rewrite (bind_ok _ _ st tt st) by done.
  rewrite (bind_ok _ _ _ _ _ Hcrit), (bind_ok _ _ _ _ _ Hinput).
  unfold bind at 1. simpl. unfold answers, diverging in Hexc, Hdiv. rewrite Hexc.
  by rewrite bool_decide_true.
Qed.

End ValidateShapeRuns.

(** ** The passes of [find_one_shape] *)

Section ArgsortFacts.
Lemma insert_sorted_perm a i l : insert_sorted a i l ≡ₚ i :: l.
Proof.
  induction l as [|j l IH]; simpl; [done|].
  case_bool_decide; [done|]. rewrite IH. apply Permutation_swap.
Qed.

Lemma argsort_perm a : argsort a ≡ₚ seq 0 (length a).
Proof.
  unfold argsort. induction (seq 0 (length a)) as [|i l IH]; simpl; [done|].
  by rewrite insert_sorted_perm, IH.
Qed.

Lemma elem_of_search_order a i : i ∈ reverse (argsort a) <-> (i < length a)%nat.
Proof. rewrite elem_of_reverse, argsort_perm, elem_of_seq. lia. Qed.
End ArgsortFacts.

Section UpdateNonzeroFacts.
Variable diff0 : list Z.
Local Abbreviation nonzero_index := (nonzero_indices diff0).
Local Abbreviation nonzero := ((fun i => diff0 !!! i) <$> nonzero_indices diff0).
Local Abbreviation ndiff := (length ((fun i => diff0 !!! i) <$> nonzero_indices diff0)).

Lemma update_nonzero_eq : update_nonzero diff0 = (nonzero_index, nonzero, ndiff).
Proof. done. Qed.

Lemma length_nonzero_index : length nonzero_index = ndiff.
Proof. by rewrite length_fmap. Qed.

Lemma nonzero_index_lookup i :
  (i < ndiff)%nat ->
  (nonzero_index !!! i < length diff0)%nat
  /\ nonzero !!! i = diff0 !!! (nonzero_index !!! i)
  /\ diff0 !!! (nonzero_index !!! i) <> 0.
Proof.
  intros Hi. rewrite <- length_nonzero_index in Hi.
  assert (Hin : nonzero_index !!! i ∈ nonzero_indices diff0).
  { by apply list_elem_of_lookup_total_2. }
  apply list_elem_of_filter in Hin as [Hnz Hseq]. apply elem_of_seq in Hseq.
  split; [lia|]. split; [|done].
  apply list_lookup_total_correct. rewrite list_lookup_fmap.
  by rewrite (list_lookup_lookup_total_lt _ _ Hi).
Qed.

Lemma nonzero_index_complete j :
  (j < length diff0)%nat -> diff0 !!! j <> 0 ->
  exists i, (i < ndiff)%nat /\ nonzero_index !!! i = j.
Proof.
  intros Hj Hnz.
  assert (Hin : j ∈ nonzero_indices diff0).
  { apply list_elem_of_filter. split; [done|]. apply elem_of_seq. lia. }
  apply list_elem_of_lookup_total in Hin as (i & Hi & Hij).
  exists i. split; [|done]. by rewrite <- length_nonzero_index.
Qed.

Lemma ndiff_zero : ndiff = 0%nat -> Forall (fun d => d = 0) diff0.
Proof.
  intros Hn. apply (Forall_lookup_total (fun d => d = 0)). intros j Hj.
  destruct (decide (diff0 !!! j = 0)) as [|Hnz]; [done|].
  destruct (nonzero_index_complete j Hj Hnz) as (i & Hi & _). lia.
Qed.
End UpdateNonzeroFacts.

Section PassFacts.
Variables (discard : Q) (diff0 : list Z).
Hypothesis Hdiscard : Qle_bool 0 discard && negb (Qle_bool 1 discard) = true.
Hypothesis Hdiff0 : Forall (fun d => 0 <= d) diff0.
Local Abbreviation nonzero_index := (nonzero_indices diff0).
Local Abbreviation nonzero := ((fun i => diff0 !!! i) <$> nonzero_indices diff0).
Local Abbreviation ndiff := (length ((fun i => diff0 !!! i) <$> nonzero_indices diff0)).

Lemma reduce_nonzero i :
  (i < ndiff)%nat ->
  0 <= reduce discard (nonzero !!! i) <= diff0 !!! (nonzero_index !!! i) - 1.
Proof.
  intros Hi. destruct (nonzero_index_lookup diff0 i Hi) as (Hlt & -> & Hnz).
  apply reduce_bounds; [done|].
  pose proof (Forall_lookup_total_1 _ _ _ Hdiff0 Hlt) as Hge. simpl in Hge.
  lia.
Qed.

Lemma shrunk_step diff i :
  (i < ndiff)%nat -> shrunk diff diff0 ->
  shrunk (<[nonzero_index !!! i := reduce discard (nonzero !!! i)]> diff) diff0.
Proof.
  intros Hi [Hlen Hle]. split; [by rewrite length_insert|].
  intros j Hj. destruct (decide (nonzero_index !!! i = j)) as [<-|Hne].
  - rewrite list_lookup_total_insert_eq by lia.
    pose proof (reduce_nonzero i Hi). lia.
  - rewrite list_lookup_total_insert_ne by done. by apply Hle.
Qed.

(** However far a pass gets, [diff] stays between 0 and its value at the
    start of the pass; an entry that was reduced is strictly below it. *)
Lemma pass_result_shrunk search_order :
  (forall i, i ∈ search_order -> (i < ndiff)%nat) ->
  forall diff, shrunk diff diff0 ->
  shrunk (pass_result discard nonzero_index nonzero search_order diff) diff0
  /\ forall j, (j < length diff0)%nat ->
       (diff !!! j <= diff0 !!! j - 1
        \/ exists i, i ∈ search_order /\ nonzero_index !!! i = j) ->
       pass_result discard nonzero_index nonzero search_order diff !!! j
       <= diff0 !!! j - 1.
Proof.
  induction search_order as [|i rest IH]; intros Hin diff Hsh; simpl.
  - split; [done|]. intros j Hj [Hlt|(i & Hi & _)]; [done|]. by apply elem_of_nil in Hi.
  - assert (Hi : (i < ndiff)%nat) by (apply Hin; left).
    destruct (IH (fun i' H => Hin i' (list_elem_of_further _ _ _ H)) _
                (shrunk_step diff i Hi Hsh)) as [IH1 IH2].
    split; [done|]. intros j Hj Hcase. apply IH2; [done|].
    destruct (decide (nonzero_index !!! i = j)) as [<-|Hne].
    + left. rewrite list_lookup_total_insert_eq by (destruct Hsh; lia).
      apply reduce_nonzero, Hi.
    + rewrite list_lookup_total_insert_ne by done.
      destruct Hcase as [Hlt|(i' & Hi' & Hj')]; [by left|].
      apply elem_of_cons in Hi' as [->|Hi']; [done|]. right. eauto.
Qed.

Lemma shrunk_refl : shrunk diff0 diff0.
Proof.
  split; [done|]. intros j Hj.
  pose proof (Forall_lookup_total_1 _ _ _ Hdiff0 Hj) as Hge. simpl in Hge. lia.
Qed.

(** A full pass strictly reduces every free dimension. *)
Lemma full_pass_decreases :
  let diff' := pass_result discard nonzero_index nonzero (reverse (argsort nonzero)) diff0 in
  shrunk diff' diff0
  /\ forall j, (j < length diff0)%nat -> diff0 !!! j <> 0 -> diff' !!! j <= diff0 !!! j - 1.
Proof.
  assert (Hord : forall i, i ∈ reverse (argsort nonzero) <-> (i < ndiff)%nat).
  { intros i. by rewrite elem_of_search_order. }
  destruct (pass_result_shrunk (reverse (argsort nonzero))
              (fun i H => proj1 (Hord i) H) diff0 shrunk_refl) as [H1 H2].
  split; [done|]. intros j Hj Hnz. apply H2; [done|]. right.
  destruct (nonzero_index_complete diff0 j Hj Hnz) as (i & Hi & Hij).
  exists i. split; [by apply Hord|done].
Qed.
End PassFacts.

Section UntouchedFacts.

Variables (discard : Q) (diff0 : list Z).
Local Abbreviation nonzero_index := (nonzero_indices diff0).
Local Abbreviation nonzero := ((fun i => diff0 !!! i) <$> nonzero_indices diff0).
Local Abbreviation ndiff := (length ((fun i => diff0 !!! i) <$> nonzero_indices diff0)).

Lemma nonzero_index_inj i j :
  (i < ndiff)%nat -> (j < ndiff)%nat ->
  nonzero_index !!! i = nonzero_index !!! j -> i = j.
Proof.
  rewrite <- !(length_nonzero_index diff0). intros Hi Hj Heq.
  assert (Hnd : NoDup nonzero_index) by apply NoDup_filter, NoDup_seq.
  eapply NoDup_lookup; [exact Hnd| |].
  - by apply list_lookup_lookup_total_lt.
  - rewrite Heq. by apply list_lookup_lookup_total_lt.
Qed.

(** A dimension that the pass has not reached yet still has the slack it
    had when the pass started. *)
Lemma pass_result_untouched (done_ : list nat) i :
  (forall i', i' ∈ done_ -> (i' < ndiff)%nat) ->
  (i < ndiff)%nat -> i ∉ done_ ->
  forall diff,
  pass_result discard nonzero_index nonzero done_ diff !!! (nonzero_index !!! i)
  = diff !!! (nonzero_index !!! i).
Proof.
  induction done_ as [|i' rest IH]; intros Hin Hi Hnotin diff; simpl; [done|].
  apply not_elem_of_cons in Hnotin as [Hne Hnotin].
  rewrite IH; [|intros; apply Hin; by right|done|done].
  apply list_lookup_total_insert_ne. intros Heq. apply Hne. symmetry.
  apply nonzero_index_inj; [apply Hin; by left|done|done].
Qed.

End UntouchedFacts.

Lemma shrunk_trans d1 d2 d3 : shrunk d1 d2 -> shrunk d2 d3 -> shrunk d1 d3.
Proof.
  intros [L1 H1] [L2 H2]. split; [congruence|]. intros j Hj.
  specialize (H2 j Hj). rewrite <- L2 in Hj. specialize (H1 j Hj). lia.
Qed.

Lemma shrunk_nonneg d1 d2 : shrunk d1 d2 -> Forall (fun d => 0 <= d) d1.
Proof.
  intros [L H]. apply (Forall_lookup_total (fun d => 0 <= d)). intros j Hj. rewrite L in Hj.
  by apply H.
Qed.

Lemma probes_refl st : probes st st.
Proof. by repeat split. Qed.

Lemma probes_trans st1 st2 st3 : probes st1 st2 -> probes st2 st3 -> probes st1 st3.
Proof.
  intros (?&?&?&?&?&?&?&Hs1) (?&?&?&?&?&?&?&Hs2).
  repeat split; try congruence. intros s Hs. by apply Hs2, Hs1.
Qed.

Lemma frame_probes st st' : frame st' = frame st -> probes st st'.
Proof. intros [=]. repeat split; congruence. Qed.

Section SearchFacts.
Variable _validate_shape :
  device -> list Z -> option (gmap string pyval) -> exn + list Z.
Variables (devices : list device) (train_mode : bool) (discard : Q).
Variables (shape_class : list ascii) (lower_limit : list Z).

Local Abbreviation validate := (validate_shape _validate_shape devices).
Local Abbreviation rejected :=
  (rejected _validate_shape devices train_mode shape_class lower_limit).
Local Abbreviation accepted :=
  (accepted _validate_shape devices train_mode shape_class lower_limit).

Lemma validate_shape_probes shape st r st' :
  validate shape train_mode st = (r, st') -> probes st st' /\ r <> OutOfFuel.
Proof.
  intros H. apply validate_shape_outcome in H.
  destruct H; (split; [|done]); repeat split; simpl; try done.
  intros s Hs. congruence.
Qed.

Lemma validate_shape_rejected_frame shape st st' :
  validate shape train_mode st = (Ok false, st') -> frame st' = frame st.
Proof.
  intros H. apply validate_shape_outcome in H. by inversion H.
Qed.

Lemma rejected_frame st st' diff :
  frame st' = frame st -> rejected st' diff -> rejected st diff.
Proof.
  intros Hf (shape & st1 & st2 & ? & ? & ?). exists shape, st1, st2.
  repeat split; congruence.
Qed.

Local Abbreviation pass :=
  (search_pass _validate_shape devices train_mode discard shape_class lower_limit).

Lemma search_pass_inv nonzero_index nonzero search_order :
  forall diff st r st',
  pass search_order nonzero_index nonzero diff st = (r, st') ->
  probes st st' /\ r <> OutOfFuel
  /\ match r with
     | Ok (Some shape, diff') =>
         (exists done, done `prefix_of` search_order
            /\ diff' = pass_result discard nonzero_index nonzero done diff)
         /\ accepted st diff' shape st'
     | Ok (None, diff') =>
         diff' = pass_result discard nonzero_index nonzero search_order diff
         /\ frame st' = frame st
         /\ Forall (rejected st)
              (pass_candidates discard search_order nonzero_index nonzero diff)
     | _ => True
     end.
Proof.
  induction search_order as [|i rest IH]; intros diff st r st' H; simpl in H.
  - injection H as <- <-. split; [apply probes_refl|]. split; [done|].
    split; [done|]. split; [done|]. constructor.
  - apply bind_inv_readonly in H as [(shape & Hshape & H)|(e & _ & -> & ->)];
      [| by split; [apply probes_refl|] | apply readonly_lift, construct_no_OutOfFuel].
    injection Hshape as Hshape.
    apply bind_inv in H as [(valid & s1 & Hv & H)|[(e & Hv & ->)|[Hv ->]]];
      destruct (validate_shape_probes _ _ _ _ Hv) as [Hp Hne]; [|done|done].
    destruct valid.
    + injection H as <- <-. split; [done|]. split; [done|]. split.
      * exists []. split; [apply prefix_nil|done].
      * split; [done|]. exists st. done.
    + pose proof (validate_shape_rejected_frame _ _ _ Hv) as Hf.
      apply IH in H as (Hp' & Hne' & Hr).
      split; [by eapply probes_trans|]. split; [done|].
      destruct r as [[[shape'|] diff']| |]; try done.
      * destruct Hr as [(pre & Hpre & ->) (Hc & st1 & Hf1 & Hv1)]. split.
        -- exists (i :: pre). split; [by apply prefix_cons|done].
        -- split; [done|]. exists st1. split; [congruence|done].
      * destruct Hr as (-> & Hf' & Hrej). split; [done|]. split; [congruence|].
        constructor.
        -- exists shape, st, s1. done.
        -- eapply Forall_impl; [exact Hrej|]. intros d. by apply rejected_frame.
Qed.
End SearchFacts.

Lemma Forall2_lookup_total_2 (P : Z -> Z -> Prop) (l k : list Z) :
  length l = length k ->
  (forall j, (j < length l)%nat -> P (l !!! j) (k !!! j)) ->
  Forall2 P l k.
Proof.
  intros Hlen H. apply Forall2_same_length_lookup_2; [done|].
  intros j x y Hx Hy.
  rewrite <- (list_lookup_total_correct _ _ _ Hx), <- (list_lookup_total_correct _ _ _ Hy).
  apply H. by eapply lookup_lt_Some.
Qed.

Lemma foldr_max_bound (l : list Z) :
  0 <= foldr Z.max 0 l /\ Forall (fun d => d <= foldr Z.max 0 l) l.
Proof.
  induction l as [|d l [IH0 IH]]; simpl; [by split|]. split; [lia|].
  constructor; [lia|]. eapply Forall_impl; [exact IH|]. simpl. lia.
Qed.

Section LoopFacts.
Variable _validate_shape :
  device -> list Z -> option (gmap string pyval) -> exn + list Z.
Variables (devices : list device) (train_mode : bool) (discard : Q).
Variables (shape_class : list ascii) (lower_limit : list Z).
Hypothesis Hdiscard : Qle_bool 0 discard && negb (Qle_bool 1 discard) = true.

Local Abbreviation loop :=
  (search_loop _validate_shape devices train_mode discard shape_class lower_limit).
Local Abbreviation rejected' :=
  (rejected _validate_shape devices train_mode shape_class lower_limit).
Local Abbreviation accepted' :=
  (accepted _validate_shape devices train_mode shape_class lower_limit).

Lemma search_loop_inv (initial : list Z) (fuel : nat) :
  forall diff st r st',
  shrunk diff initial ->
  Forall (fun d => d <= Z.of_nat fuel) diff ->
  loop fuel diff (update_nonzero diff).1.1 (update_nonzero diff).1.2
    (update_nonzero diff).2 st = (r, st') ->
  probes st st' /\ r <> OutOfFuel
  /\ match r with
     | Ok (Some shape) =>
         exists diff', shrunk diff' initial /\ accepted' st diff' shape st'
     | Ok None =>
         frame st' = frame st
         /\ Forall (rejected' st) (loop_candidates discard fuel diff)
     | _ => True
     end.
Proof.
  induction fuel as [|fuel IH]; intros diff st r st' Hsh Hle H;
    pose proof (shrunk_nonneg _ _ Hsh) as Hge;
    simpl in H; simpl; case_bool_decide as Hnd.
  - injection H as <- <-. split; [apply probes_refl|]. by repeat split.
  - exfalso. destruct (nonzero_index_lookup diff 0%nat) as (Hlt & _ & Hnz); [lia|].
    pose proof (Forall_lookup_total_1 _ _ _ Hle Hlt) as H1.
    pose proof (Forall_lookup_total_1 _ _ _ Hge Hlt) as H2. simpl in *. lia.
  - injection H as <- <-. split; [apply probes_refl|]. by repeat split.
  - apply bind_inv in H as [([found diff'] & s1 & Hpass & H)|[(e & Hpass & ->)|[Hpass ->]]];
      apply search_pass_inv in Hpass as (Hp & Hne & Hr); [|done|done].
    assert (Hord : forall i, i ∈ reverse (argsort ((fun i => diff !!! i) <$> nonzero_indices diff))
                       -> (i < length ((fun i => diff !!! i) <$> nonzero_indices diff))%nat).
    { intros i. by rewrite elem_of_search_order. }
    destruct found as [shape|].
    + injection H as <- <-. split; [done|]. split; [done|].
      destruct Hr as [(pre & Hpre & ->) Hacc]. eexists. split; [|exact Hacc].
      eapply shrunk_trans; [|exact Hsh].
      apply pass_result_shrunk; [done|done| |by apply shrunk_refl].
      intros i Hi. apply Hord. by eapply elem_of_prefix.
    + destruct Hr as (-> & Hf & Hrej).
      destruct (full_pass_decreases discard diff Hdiscard Hge) as [Hsh' Hdec].
      simpl in Hsh', Hdec.
      apply IH in H as (Hp' & Hne' & Hr').
      * split; [by eapply probes_trans|]. split; [done|].
        destruct r as [[shape|]| |]; try done.
        -- destruct Hr' as (diff' & Hsh'' & Hc & st1 & Hf1 & Hv1).
           exists diff'. split; [done|]. split; [done|]. exists st1.
           split; [congruence|done].
        -- destruct Hr' as [Hf' Hrej']. split; [congruence|].
           apply Forall_app. split; [done|].
           eapply Forall_impl; [exact Hrej'|]. intros d. by apply rejected_frame.
      * by eapply shrunk_trans.
      * apply (Forall_lookup_total (fun d => d <= Z.of_nat fuel)). intros j Hj.
        destruct Hsh' as [Hlen Hb]. rewrite Hlen in Hj.
        pose proof (Forall_lookup_total_1 _ _ _ Hle Hj) as H1. simpl in H1.
        destruct (decide (diff !!! j = 0)) as [Hz|Hnz].
        -- specialize (Hb j Hj). lia.
        -- specialize (Hdec j Hj Hnz). lia.
Qed.
End LoopFacts.

Section FuelFacts.

Variable _validate_shape :
  device -> list Z -> option (gmap string pyval) -> exn + list Z.
Variables (devices : list device) (train_mode : bool) (discard : Q).
Variables (shape_class : list ascii) (lower_limit : list Z).

Local Abbreviation loop :=
  (search_loop _validate_shape devices train_mode discard shape_class lower_limit).

(** More fuel does not change a result that was reached. *)
Lemma search_loop_more_fuel (fuel : nat) :
  forall fuel' diff nonzero_index nonzero ndiff st r st',
  (fuel <= fuel')%nat ->
  loop fuel diff nonzero_index nonzero ndiff st = (r, st') ->
  r <> OutOfFuel ->
  loop fuel' diff nonzero_index nonzero ndiff st = (r, st').
Proof.
  induction fuel as [|fuel IH]; intros fuel' diff ni nz nd st r st' Hle H Hne.
  - simpl in H. destruct fuel'; simpl; case_bool_decide; try done;
      by injection H as <- <-.
  - destruct fuel' as [|fuel']; [lia|]. simpl in *.
    case_bool_decide; [done|].
    unfold bind in *.
    destruct (search_pass _ _ _ _ _ _ _ _ _ _ st) as [[[[shape|] diff']|e|] s1];
      try done.
    apply IH; [lia|done..].
Qed.

End FuelFacts.

Lemma py_assert_ok {S} (c : bool) m (s : S) u s' :
  py_assert c m s = (Ok u, s') -> c = true.
Proof. by destruct c. Qed.

Section FindOneShapeFacts.
Variable _validate_shape :
  device -> list Z -> option (gmap string pyval) -> exn + list Z.

Lemma candidate_within (lower_limit upper_limit : Point) diff shape :
  order upper_limit = order lower_limit ->
  shrunk diff (zip_with Z.sub (array upper_limit) (array lower_limit)) ->
  construct (order lower_limit) (zip_with Z.add (array lower_limit) diff) = Ok shape ->
  within lower_limit shape upper_limit.
Proof.
  intros Hord [Hlen Hb] Hc. unfold order, array in *.
  assert (Hl : length upper_limit = length lower_limit).
  { by rewrite <- (length_fmap fst upper_limit), Hord, length_fmap. }
  rewrite length_zip_with, !length_fmap, Hl, Nat.min_id in Hlen, Hb.
  assert (Hla : length (zip_with Z.add lower_limit.*2 diff) = length lower_limit).
  { rewrite length_zip_with, length_fmap. lia. }
  unfold construct in Hc. rewrite Hla, length_fmap in Hc.
  rewrite bool_decide_true in Hc by done. rewrite Nat.sub_diag in Hc. simpl in Hc.
  rewrite app_nil_r in Hc. injection Hc as <-.
  assert (Ho : (zip lower_limit.*1 (zip_with Z.add lower_limit.*2 diff)).*1
               = lower_limit.*1).
  { apply fst_zip. rewrite Hla, length_fmap. done. }
  assert (Ha : (zip lower_limit.*1 (zip_with Z.add lower_limit.*2 diff)).*2
               = zip_with Z.add lower_limit.*2 diff).
  { apply snd_zip. rewrite Hla, length_fmap. done. }
  assert (Hlookup : forall j, (j < length lower_limit)%nat ->
            zip_with Z.add lower_limit.*2 diff !!! j = lower_limit.*2 !!! j + diff !!! j).
  { intros j Hj. apply list_lookup_total_correct. rewrite lookup_zip_with.
    rewrite (list_lookup_lookup_total_lt lower_limit.*2 j) by (rewrite length_fmap; lia).
    rewrite (list_lookup_lookup_total_lt diff j) by lia. done. }
  assert (Hdiff : forall j, (j < length lower_limit)%nat ->
            zip_with Z.sub upper_limit.*2 lower_limit.*2 !!! j
            = upper_limit.*2 !!! j - lower_limit.*2 !!! j).
  { intros j Hj. apply list_lookup_total_correct. rewrite lookup_zip_with.
    rewrite (list_lookup_lookup_total_lt upper_limit.*2 j) by (rewrite length_fmap; lia).
    rewrite (list_lookup_lookup_total_lt lower_limit.*2 j) by (rewrite length_fmap; lia).
    done. }
  unfold within, le, same_axes, order, array. rewrite Ho, Ha, Hord.
  rewrite !bool_decide_true by done. simpl.
  split; f_equal; apply bool_decide_true; apply Forall2_lookup_total_2;
    rewrite ?Hla, ?length_fmap; try done; intros j Hj;
    rewrite Hlookup by lia; specialize (Hb j Hj); rewrite Hdiff in Hb by done; lia.
Qed.

Lemma find_one_shape_inv lower_limit upper_limit devices train_mode discard st r st' :
  find_one_shape _validate_shape lower_limit upper_limit devices train_mode discard st
  = (r, st') ->
  probes st st' /\ r <> OutOfFuel
  /\ match r with
     | Ok (Some shape) =>
         within lower_limit shape upper_limit
         /\ exists st1, frame st1 = frame st
              /\ validate_shape _validate_shape devices shape train_mode st1 = (Ok true, st')
     | Ok None =>
         frame st' = frame st
         /\ Forall (rejected _validate_shape devices train_mode
                      (order lower_limit) (array lower_limit) st)
              (probed_diffs lower_limit upper_limit discard)
     | _ => True
     end.
Proof.
  unfold find_one_shape, find_one_shape_fuel. intros H.
  apply bind_inv_readonly in H as [([] & Hcls & H)|(e & _ & -> & ->)];
    [| by split; [apply probes_refl|] | apply readonly_py_assert].
  apply bind_inv_readonly in H as [([] & Hnonneg & H)|(e & _ & -> & ->)];
    [| by split; [apply probes_refl|] | apply readonly_py_assert].
  apply bind_inv_readonly in H as [([] & Hdiscard & H)|(e & _ & -> & ->)];
    [| by split; [apply probes_refl|] | apply readonly_py_assert].
  apply py_assert_ok in Hcls, Hnonneg, Hdiscard.
  apply bool_decide_eq_true in Hcls, Hnonneg.
  rename Hcls into Hord, Hnonneg into Hge, Hdiscard into Hd.
  set (initial := zip_with Z.sub (array upper_limit) (array lower_limit)) in *.
  simpl in H.
  apply bind_inv in H as [([] & s1 & Hlog & H)|[(e & Hlog & ->)|[Hlog ->]]].
  2,3: by case_bool_decide.
  assert (Hf : frame s1 = frame st).
  { case_bool_decide; by injection Hlog as <-. }
  clear Hlog.
  apply (search_loop_inv _ _ _ _ _ _ Hd initial) in H as (Hp & Hne & Hr).
  - split; [eapply probes_trans; [by apply frame_probes|done]|]. split; [done|].
    destruct r as [[shape|]| |]; try done.
    + destruct Hr as (diff' & Hsh & Hc & st1 & Hf1 & Hv). split.
      * by eapply candidate_within.
      * exists st1. split; [congruence|done].
    + destruct Hr as [Hf' Hrej]. split; [congruence|].
      eapply Forall_impl; [exact Hrej|]. intros d. by apply rejected_frame.
  - split; [done|]. intros j Hj.
    pose proof (Forall_lookup_total_1 _ _ _ Hge Hj) as H1. simpl in H1. lia.
  - unfold enough_fuel. fold initial.
    destruct (foldr_max_bound initial) as [H0 Hmax].
    rewrite Z2Nat.id by done. done.
Qed.
End FindOneShapeFacts.

(** ** The worker *)

Create HintDb no_oof.
#[export] Hint Resolve py_getitem_no_OutOfFuel py_contains_no_OutOfFuel
  getitem_no_OutOfFuel same_axes_no_OutOfFuel sub_no_OutOfFuel eq_no_OutOfFuel
  ne_no_OutOfFuel le_no_OutOfFuel construct_no_OutOfFuel construct_kw_no_OutOfFuel
  drop_batch_no_OutOfFuel add_batch_no_OutOfFuel compute_shrinkage_no_OutOfFuel
  from_spacetime_no_OutOfFuel batch_from_spacetime_no_OutOfFuel : no_oof.

Lemma steady_readonly {A} (m : M DryRunProcess A) : readonly m -> steady m.
Proof. intros Hm s r s' H. by destruct (Hm _ _ _ H) as [-> ?]. Qed.

Lemma steady_bind {A B} (m : M DryRunProcess A) (k : A -> M DryRunProcess B) :
  steady m -> (forall a, steady (k a)) -> steady (bind m k).
Proof.
  intros Hm Hk s r s' H.
  apply bind_inv in H as [(a & s1 & Hms & Hka)|[(e & Hms & ->)|[Hms ->]]].
  - destruct (Hm _ _ _ Hms) as [Hf _]. destruct (Hk _ _ _ _ Hka) as [Hf' ?].
    split; [congruence|done].
  - by destruct (Hm _ _ _ Hms).
  - by destruct (Hm _ _ _ Hms).
Qed.

Lemma steady_modify (f : DryRunProcess -> DryRunProcess) :
  (forall s, worker_frame (f s) = worker_frame s) -> steady (modify f).
Proof. intros Hf s r s' [= <- <-]. by split. Qed.

Lemma steady_probes {A} (m : M DryRunProcess A) :
  (forall s r s', m s = (r, s') -> probes s s' /\ r <> OutOfFuel) -> steady m.
Proof.
  intros Hm s r s' H. destruct (Hm _ _ _ H) as [(?&?&?&?&?&?&?&?) ?].
  split; [|done]. unfold worker_frame. congruence.
Qed.

Ltac steady_step :=
  first
    [ apply steady_readonly;
      first [ apply readonly_config_getitem
            | apply readonly_ret | apply readonly_raise | apply readonly_gets
            | apply readonly_py_assert
            | apply readonly_as_int | apply readonly_as_ints | apply readonly_as_str
            | apply readonly_as_dict
            | apply readonly_lift; solve [auto with no_oof] ]
    | apply steady_bind; [|intros ?]
    | apply steady_modify; reflexivity
    | match goal with
      | |- steady (if ?b then _ else _) => destruct b
      | |- steady (match ?x with _ => _ end) => destruct x
      | |- steady (let '(_, _) := ?x in _) => destruct x
      end ].

Section WorkerFacts.
Variable _minimal_device_test : device -> bool.
Variable _validate_shape :
  device -> list Z -> option (gmap string pyval) -> exn + list Z.

Lemma steady_validate_shape devices shape train_mode :
  steady (validate_shape _validate_shape devices shape train_mode).
Proof. apply steady_probes. intros s r s'. apply validate_shape_probes. Qed.

Lemma steady_find_one_shape lower_limit upper_limit devices train_mode discard :
  steady (find_one_shape _validate_shape lower_limit upper_limit devices train_mode discard).
Proof.
  apply steady_probes. intros s r s' H.
  apply find_one_shape_inv in H as (? & ? & _). done.
Qed.

Lemma steady_minimal_device_test devices :
  steady (minimal_device_test _minimal_device_test devices).
Proof. unfold minimal_device_test. repeat steady_step. Qed.

Lemma steady_bound_from_config b c training key :
  steady (bound_from_config b c training key).
Proof. unfold bound_from_config. repeat steady_step. Qed.

Lemma steady_unless_raise c m : steady (unless_raise c m).
Proof. unfold unless_raise. repeat steady_step. Qed.

Lemma drop_batch_optional_no_OutOfFuel o : drop_batch_optional o <> OutOfFuel.
Proof. destruct o; simpl; auto with no_oof. Qed.

Lemma steady__determine_training_shape devices training_shape :
  steady (_determine_training_shape _validate_shape devices training_shape).
Proof.
  unfold _determine_training_shape.
  repeat first
    [ apply steady_validate_shape | apply steady_find_one_shape
    | apply steady_bound_from_config | apply steady_unless_raise
    | apply steady_readonly, readonly_lift, drop_batch_optional_no_OutOfFuel
    | steady_step ].
Qed.

Lemma steady_list_comprehension {A B} (f : A -> M DryRunProcess B) l :
  (forall a, steady (f a)) -> steady (list_comprehension f l).
Proof.
  intros Hf. induction l as [|a l IH]; simpl; repeat steady_step; done.
Qed.

Lemma steady__determine_valid_shapes devices valid_shapes :
  steady (_determine_valid_shapes _validate_shape devices valid_shapes).
Proof.
  unfold _determine_valid_shapes. destruct valid_shapes as [vs|].
  - apply steady_bind; [|intros ?; repeat steady_step].
    apply steady_list_comprehension. intros s.
    repeat first [apply steady_validate_shape | steady_step].
  - repeat steady_step.
Qed.
End WorkerFacts.

Section DryRunFacts.
Variable _minimal_device_test : device -> bool.
Variable _validate_shape :
  device -> list Z -> option (gmap string pyval) -> exn + list Z.

Local Abbreviation try_block := (_dry_run_try _minimal_device_test _validate_shape).
Local Abbreviation run := (_dry_run _minimal_device_test _validate_shape).

(** The [try] block leaves the worker's attributes alone, except that a
    run to the end resolves the future with a result. *)
Lemma _dry_run_try_inv devices training_shape valid_shapes shrinkage fut st r st' :
  try_block devices training_shape valid_shapes shrinkage fut st = (r, st') ->
  dry_run_queue st' = dry_run_queue st
  /\ shutdown_event st' = shutdown_event st
  /\ next_future st' = next_future st
  /\ match r with
     | Ok _ =>
         devices ≠ []
         /\ futures st' =
              <[fut := FutResult (DryRunRecord devices (self_training_shape st')
                                    (self_valid_shapes st') (self_shrinkage st'))]>
                (futures st)
     | Raise e => futures st' = futures st
     | OutOfFuel => False
     end.
Proof.
  unfold _dry_run_try. intros H.
  assert (Hsteady : forall {A} (m : M DryRunProcess A) s r s',
            steady m -> m s = (r, s') -> worker_frame s' = worker_frame s /\ r <> OutOfFuel).
  { intros A m s r0 s' Hm. apply Hm. }
  apply bind_inv in H as [([] & s1 & H1 & H)|[(e & H1 & ->)|[H1 ->]]];
    unfold raise, ret in H1; case_bool_decide as Hdev; try done;
    [|by injection H1 as <- <-].
  injection H1 as <-.
  apply bind_inv_readonly in H as [(recorded & _ & H)|(e & _ & -> & ->)];
    [| done | apply readonly_gets].
  apply bind_inv in H as [([] & s1 & H1 & H)|[(e & H1 & ->)|[H1 ->]]];
    apply Hsteady in H1 as [[= Hq1 Hs1 Hf1 Hn1] Hne1];
    try done; try (by repeat steady_step).
  apply bind_inv in H as [(working & s2 & H2 & H)|[(e & H2 & ->)|[H2 ->]]];
    apply Hsteady in H2 as [[= Hq2 Hs2 Hf2 Hn2] Hne2];
    try done; try (by apply steady_minimal_device_test);
    [|repeat split; congruence].
  apply bind_inv in H as [([] & s3 & H3 & H)|[(e & H3 & ->)|[H3 ->]]];
    apply Hsteady in H3 as [[= Hq3 Hs3 Hf3 Hn3] Hne3];
    try done; try (by repeat steady_step);
    [|repeat split; congruence].
  apply bind_inv_readonly in H as [(recorded' & _ & H)|(e & _ & -> & ->)];
    [| repeat split; congruence | apply readonly_gets].
  apply bind_inv in H as [([] & s4 & H4 & H)|[(e & H4 & ->)|[H4 ->]]];
    apply Hsteady in H4 as [[= Hq4 Hs4 Hf4 Hn4] Hne4];
    try done;
    try (by repeat first [apply steady__determine_training_shape | steady_step]);
    [|repeat split; congruence].
  apply bind_inv in H as [([] & s5 & H5 & H)|[(e & H5 & ->)|[H5 ->]]];
    apply Hsteady in H5 as [[= Hq5 Hs5 Hf5 Hn5] Hne5];
    try done; try (by apply steady__determine_valid_shapes);
    [|repeat split; congruence].
  injection H as <- <-. simpl.
  repeat split; try congruence. by rewrite Hf5, Hf4, Hf3, Hf2, Hf1.
Qed.

(** [_dry_run] always returns, and the future of the job is resolved:
    with the exception when the [try] block raised one. *)
Lemma _dry_run_resolves devices training_shape valid_shapes shrinkage fut st :
  exists st' outcome,
    run devices training_shape valid_shapes shrinkage fut st = (Ok tt, st')
    /\ futures st' = <[fut := outcome]> (futures st)
    /\ dry_run_queue st' = dry_run_queue st
    /\ shutdown_event st' = shutdown_event st
    /\ (forall e s1,
          try_block devices training_shape valid_shapes shrinkage fut (started devices st)
          = (Raise e, s1) ->
          outcome = FutException e
          /\ st' = set_future fut (FutException e) (add_log (logged_exception e) s1))
    /\ (forall record,
          outcome = FutResult record ->
          devices ≠ []
          /\ record = DryRunRecord devices (self_training_shape st')
                        (self_valid_shapes st') (self_shrinkage st')).
Proof.
  unfold _dry_run, bind, log, modify, try_except. simpl.
  fold (started devices st).
  destruct (try_block devices training_shape valid_shapes shrinkage fut (started devices st))
    as [[[]|e|] s1] eqn:Htry;
    apply _dry_run_try_inv in Htry as (Hq & Hs & Hn & Hr); [| |done].
  - destruct Hr as [Hdev Hf]. eexists _, _. split; [done|]. split; [exact Hf|].
    split; [done|]. split; [done|]. split; [intros e s1' [=]|].
    intros record [= <-]. done.
  - eexists _, _. split; [done|]. simpl. rewrite Hr. split; [done|].
    split; [done|]. split; [done|]. split; [|done].
    intros e' s1' [= <- <-]. done.
Qed.

Lemma _dry_run_try_empty training_shape valid_shapes shrinkage fut st :
  try_block [] training_shape valid_shapes shrinkage fut st
  = (Raise (ValueError "Dry run on empty device list"), st).
Proof. done. Qed.

(** A given shrinkage that differs from the recorded one makes the [try]
    block raise before anything else happens. *)
Lemma _dry_run_try_shrinkage devices training_shape valid_shapes given recorded fut st :
  shrinkage st = Some recorded ->
  given <> recorded ->
  exists e,
    try_block devices training_shape valid_shapes (Some given) fut st = (Raise e, st).
Proof.
  intros Hrec Hne. unfold _dry_run_try. unfold bind at 1.
  case_bool_decide as Hdev; [by eexists|]. simpl.
  unfold bind at 1, gets at 1, self_shrinkage. rewrite Hrec.
  unfold bind at 1, bind at 1, lift, ne.
  destruct (Points.eq given recorded) as [[]| |] eqn:Heq; simpl.
  - by apply eq_true_iff in Heq.
  - by eexists.
  - by eexists.
  - by apply eq_no_OutOfFuel in Heq.
Qed.
End DryRunFacts.

Section WorkerLoopFacts.

Variable _minimal_device_test : device -> bool.
Variable _validate_shape :
  device -> list Z -> option (gmap string pyval) -> exn + list Z.

Local Abbreviation round := (worker_round _minimal_device_test _validate_shape).
Local Abbreviation worker := (_dry_run_worker _minimal_device_test _validate_shape).

Lemma worker_round_inv st :
  exists st',
    round st = (Ok tt, st')
    /\ shutdown_event st' = shutdown_event st
    /\ dry_run_queue st' = drop 1 (dry_run_queue st)
    /\ (forall fut, is_Some (futures st !! fut) -> is_Some (futures st' !! fut))
    /\ (forall args, head (dry_run_queue st) = Some args ->
          is_Some (futures st' !! job_fut args)).
Proof.
  unfold worker_round, bind, gets. simpl.
  destruct (dry_run_queue st) as [|args q] eqn:Hq.
  - exists st. rewrite Hq. by repeat split.
  - unfold modify.
    destruct (_dry_run_resolves _minimal_device_test _validate_shape
                (job_devices args) (job_training_shape args) (job_valid_shapes args)
                (job_shrinkage args) (job_fut args) (set_dry_run_queue (drop 1) st))
      as (st' & outcome & Hrun & Hfut & Hqueue & Hstop & _ & _).
    exists st'. split; [done|]. split; [done|]. split.
    { rewrite Hqueue. simpl. by rewrite Hq. }
    rewrite Hfut. simpl. split.
    + intros fut [v Hv]. destruct (decide (job_fut args = fut)) as [->|Hne].
      * rewrite lookup_insert_eq. eauto.
      * rewrite lookup_insert_ne by done. eauto.
    + intros args' [= <-]. rewrite lookup_insert_eq. eauto.
Qed.

(** The worker that is not told to stop never leaves its loop, whatever
    the jobs do; after [fuel] rounds the first [fuel] jobs are done. *)
Lemma _dry_run_worker_inv (fuel : nat) :
  forall st,
  shutdown_event st = false ->
  exists st',
    worker fuel st = (OutOfFuel, st')
    /\ shutdown_event st' = false
    /\ dry_run_queue st' = drop fuel (dry_run_queue st)
    /\ (forall fut, is_Some (futures st !! fut) -> is_Some (futures st' !! fut))
    /\ (forall args, args ∈ take fuel (dry_run_queue st) ->
          is_Some (futures st' !! job_fut args)).
Proof.
  induction fuel as [|fuel IH]; intros st Hstop; simpl;
    unfold bind at 1, gets at 1; rewrite Hstop.
  - exists st. rewrite drop_0, take_0. repeat split; try done.
    intros args Hin. by apply elem_of_nil in Hin.
  - destruct (worker_round_inv st) as (s1 & Hround & Hstop1 & Hq1 & Hkeep1 & Hhead).
    unfold bind. rewrite Hround.
    destruct (IH s1) as (st' & Hrun & Hstop' & Hq' & Hkeep' & Hdone); [congruence|].
    exists st'. split; [done|]. split; [done|]. split.
    { rewrite Hq', Hq1. by rewrite drop_drop. }
    split; [by auto|].
    intros args Hin. destruct (dry_run_queue st) as [|args0 q]; simpl in *.
    { by apply elem_of_nil in Hin. }
    apply elem_of_cons in Hin as [->|Hin].
    + apply Hkeep', Hhead. done.
    + apply Hdone. rewrite Hq1. simpl. by rewrite drop_0.
Qed.

Lemma _dry_run_worker_stopped fuel st :
  shutdown_event st = true -> worker fuel st = (Ok tt, st).
Proof.
  intros Hstop. destruct fuel; simpl; unfold bind, gets; by rewrite Hstop.
Qed.

End WorkerLoopFacts.

(** ** Probes and devices *)

Section Preserves.
Context (R : relation DryRunProcess) `{!PreOrder R}.

Lemma preserves_readonly {A} (m : M DryRunProcess A) : readonly m -> preserves R m.
Proof. intros Hm s r s' H. by destruct (Hm _ _ _ H) as [-> _]. Qed.

Lemma preserves_bind {A B} (m : M DryRunProcess A) (k : A -> M DryRunProcess B) :
  preserves R m -> (forall a, preserves R (k a)) -> preserves R (bind m k).
Proof.
  intros Hm Hk s r s' H.
  apply bind_inv in H as [(a & s1 & Hms & Hka)|[(e & Hms & ->)|[Hms ->]]].
  - etrans; [by eapply Hm|by eapply Hk].
  - by eapply Hm.
  - by eapply Hm.
Qed.

Lemma preserves_modify (f : DryRunProcess -> DryRunProcess) :
  (forall s, R s (f s)) -> preserves R (modify f).
Proof. intros Hf s r s' [= <- <-]. apply Hf. Qed.

Lemma preserves_list_comprehension {A B} (f : A -> M DryRunProcess B) l :
  (forall a, preserves R (f a)) -> preserves R (list_comprehension f l).
Proof.
  intros Hf. induction l as [|a l IH]; simpl.
  - apply preserves_readonly, readonly_ret.
  - apply preserves_bind; [done|]. intros v.
    apply preserves_bind; [done|]. intros vs. apply preserves_readonly, readonly_ret.
Qed.
End Preserves.

Lemma preserves_try_except {A} (R : relation DryRunProcess) `{!PreOrder R}
    (m : M DryRunProcess A) (h : exn -> M DryRunProcess A) :
  preserves R m -> (forall e, preserves R (h e)) -> preserves R (try_except m h).
Proof.
  intros Hm Hh s r s' H. unfold try_except in H.
  destruct (m s) as [[a|e|] s1] eqn:Hms.
  - injection H as <- <-. by eapply Hm.
  - etrans; [by eapply Hm|by eapply Hh].
  - injection H as <- <-. by eapply Hm.
Qed.

Ltac preserves_step :=
  first
    [ apply preserves_readonly; try apply _;
      first [ apply readonly_config_getitem
            | apply readonly_ret | apply readonly_raise | apply readonly_gets
            | apply readonly_py_assert
            | apply readonly_as_int | apply readonly_as_ints | apply readonly_as_str
            | apply readonly_as_dict
            | apply readonly_lift; solve [auto with no_oof] ]
    | apply preserves_bind; try apply _; [|intros ?]
    | match goal with
      | |- preserves _ (if ?b then _ else _) => destruct b
      | |- preserves _ (match ?x with _ => _ end) => destruct x
      | |- preserves _ (let '(_, _) := ?x in _) => destruct x
      end ].

Section ProbedAll.
Variable _minimal_device_test : device -> bool.
Variable _validate_shape :
  device -> list Z -> option (gmap string pyval) -> exn + list Z.
Variable devices : list device.

#[local] Instance probed_all_preorder : PreOrder (probed_all devices).
Proof.
  split.
  - intros st. split; [done|]. exists []. split; [done|]. intros d i t H.
    by apply elem_of_nil in H.
  - intros s1 s2 s3 [Hl1 (n1 & Hn1 & Ha1)] [Hl2 (n2 & Hn2 & Ha2)].
    split; [by etrans|]. exists (n2 ++ n1). split; [by rewrite Hn2, Hn1, app_assoc|].
    intros d i t Hin d' Hd'. apply elem_of_app in Hin as [Hin|Hin]; apply elem_of_app.
    + left. by eapply Ha2.
    + right. by eapply Ha1.
Qed.

Lemma probed_all_log r st : probed_all devices st (add_log r st).
Proof.
  split; [by apply suffix_cons_r|]. exists []. split; [done|].
  intros d i t H. by apply elem_of_nil in H.
Qed.

Lemma probed_all_same st st' :
  logger st' = logger st -> subprocs st' = subprocs st -> probed_all devices st st'.
Proof.
  intros Hl Hs. split; [by rewrite Hl|]. exists []. split; [done|].
  intros d i t H. by apply elem_of_nil in H.
Qed.

Lemma probed_all_set_shrinkage v st : probed_all devices st (set_shrinkage v st).
Proof. by apply probed_all_same. Qed.

Lemma probed_all_launched input train_mode st :
  probed_all devices st (add_subprocs (launched devices input train_mode) st).
Proof.
  split; [done|]. exists (reverse (launched devices input train_mode)).
  split; [done|]. intros d i t Hin d' Hd'.
  rewrite elem_of_reverse in Hin |- *. unfold launched in *.
  apply list_elem_of_fmap in Hin as (d0 & [= -> -> ->] & _).
  apply list_elem_of_fmap. by exists d'.
Qed.

Lemma preserves_validate_shape shape train_mode :
  preserves (probed_all devices) (validate_shape _validate_shape devices shape train_mode).
Proof.
  intros s r s' H. apply validate_shape_outcome in H.
  destruct H; repeat first
    [ reflexivity | apply probed_all_launched
    | etrans; [|apply probed_all_log] | etrans; [|apply probed_all_set_shrinkage] ].
Qed.

Lemma preserves_log l m a : preserves (probed_all devices) (log l m a).
Proof. apply preserves_modify. intros s. apply probed_all_log. Qed.

Lemma preserves_search_pass train_mode discard shape_class lower_limit
    nonzero_index nonzero search_order :
  forall diff,
  preserves (probed_all devices)
    (search_pass _validate_shape devices train_mode discard shape_class lower_limit
       search_order nonzero_index nonzero diff).
Proof.
  induction search_order as [|i rest IH]; intros diff; simpl.
  - apply preserves_readonly; [apply _|apply readonly_ret].
  - repeat first [apply preserves_validate_shape | apply IH | preserves_step].
Qed.

Lemma preserves_search_loop train_mode discard shape_class lower_limit fuel :
  forall diff nonzero_index nonzero ndiff,
  preserves (probed_all devices)
    (search_loop _validate_shape devices train_mode discard shape_class lower_limit
       fuel diff nonzero_index nonzero ndiff).
Proof.
  induction fuel as [|fuel IH]; intros diff ni nz nd; simpl.
  - case_bool_decide; [apply preserves_readonly; [apply _|apply readonly_ret]|].
    intros s r s' [= <- <-]. reflexivity.
  - case_bool_decide; [apply preserves_readonly; [apply _|apply readonly_ret]|].
    apply preserves_bind; [apply _|apply preserves_search_pass|]. intros [[shape|] diff'].
    + apply preserves_readonly; [apply _|apply readonly_ret].
    + apply IH.
Qed.

Lemma preserves_find_one_shape lower_limit upper_limit train_mode discard :
  preserves (probed_all devices)
    (find_one_shape _validate_shape lower_limit upper_limit devices train_mode discard).
Proof.
  unfold find_one_shape, find_one_shape_fuel.
  repeat first [apply preserves_search_loop | apply preserves_log | preserves_step].
Qed.

Lemma preserves__determine_training_shape training_shape :
  preserves (probed_all devices)
    (_determine_training_shape _validate_shape devices training_shape).
Proof.
  unfold _determine_training_shape, bound_from_config, unless_raise.
  repeat first
    [ apply preserves_validate_shape | apply preserves_find_one_shape
    | (apply preserves_readonly; [apply _|apply readonly_lift, drop_batch_optional_no_OutOfFuel])
    | preserves_step ].
Qed.

Lemma preserves__determine_valid_shapes valid_shapes :
  preserves (probed_all devices)
    (_determine_valid_shapes _validate_shape devices valid_shapes).
Proof.
  unfold _determine_valid_shapes. destruct valid_shapes as [vs|].
  - apply preserves_bind; [apply _| |].
    + apply preserves_list_comprehension; [apply _|]. intros s.
      repeat first [apply preserves_validate_shape | preserves_step].
    + intros v. apply preserves_modify. intros s. by apply probed_all_same.
  - apply preserves_bind; [apply _|apply preserves_readonly; [apply _|apply readonly_gets]|].
    intros t. apply preserves_modify. intros s. by apply probed_all_same.
Qed.
End ProbedAll.

Section DryRunProbes.

Variable _minimal_device_test : device -> bool.
Variable _validate_shape :
  device -> list Z -> option (gmap string pyval) -> exn + list Z.
Variable devices : list device.

#[local] Existing Instance probed_all_preorder.

Lemma probed_all_device_tests ds st :
  probed_all devices st (add_subprocs (SubMinimalDeviceTest <$> ds) st).
Proof.
  split; [done|]. exists (reverse (SubMinimalDeviceTest <$> ds)). split; [done|].
  intros d i t Hin. rewrite elem_of_reverse in Hin.
  by apply list_elem_of_fmap in Hin as (d0 & [=] & _).
Qed.

Lemma preserves_minimal_device_test ds :
  preserves (probed_all devices) (minimal_device_test _minimal_device_test ds).
Proof.
  unfold minimal_device_test. apply preserves_bind; [apply _| |].
  - apply preserves_modify. intros s. apply probed_all_device_tests.
  - intros u. apply preserves_readonly; [apply _|apply readonly_ret].
Qed.

(** The part of the [try] block that follows the log of the failed
    devices. *)
Lemma preserves__dry_run_try training_shape valid_shapes shrinkage fut :
  preserves (probed_all devices)
    (_dry_run_try _minimal_device_test _validate_shape devices training_shape
       valid_shapes shrinkage fut).
Proof.
  unfold _dry_run_try.
  repeat first
    [ apply preserves_minimal_device_test
    | apply preserves__determine_training_shape
    | apply preserves__determine_valid_shapes
    | apply preserves_log
    | (apply preserves_readonly; [apply _|apply readonly_get])
    | (apply preserves_modify; intros ?; by apply probed_all_same)
    | preserves_step ].
Qed.

Lemma preserves__dry_run training_shape valid_shapes shrinkage fut :
  preserves (probed_all devices)
    (_dry_run _minimal_device_test _validate_shape devices training_shape
       valid_shapes shrinkage fut).
Proof.
  unfold _dry_run. apply preserves_bind; [apply _|apply preserves_log|]. intros u.
  apply preserves_try_except; [apply _|apply preserves__dry_run_try|]. intros e.
  apply preserves_bind; [apply _|apply preserves_log|]. intros u'.
  apply preserves_modify. intros s. by apply probed_all_same.
Qed.

Lemma failed_devices_elem d :
  d ∈ devices -> _minimal_device_test d = false ->
  d ∈ elements (failed_devices_of devices
                  (filter (fun d => _minimal_device_test d = true) devices)).
Proof.
  intros Hin Hfail. unfold failed_devices_of.
  rewrite elem_of_elements, elem_of_difference, !elem_of_list_to_set, list_elem_of_filter.
  split; [done|]. intros [Hok _]. congruence.
Qed.

(** Once the device list and the shrinkage have passed the first two
    checks, the devices that fail the minimal test are in the log when
    the [try] block ends, however it ends. *)
Lemma _dry_run_try_logs_failed training_shape valid_shapes given fut st r st' :
  devices ≠ [] ->
  (forall recorded g, shrinkage st = Some recorded -> given = Some g -> g = recorded) ->
  _dry_run_try _minimal_device_test _validate_shape devices training_shape
    valid_shapes given fut st = (r, st') ->
  let failed :=
    elements (failed_devices_of devices
                (filter (fun d => _minimal_device_test d = true) devices)) in
  failed ≠ [] -> logged_failed failed ∈ logger st'.
Proof.
  intros Hdev Hcompat H failed Hfailed. unfold _dry_run_try in H.
  rewrite bool_decide_false in H by done.
  rewrite (bind_ok _ _ st tt st) in H by done.
  rewrite (bind_ok _ _ st (shrinkage st) st) in H by done.
  match type of H with
  | bind ?m3 _ st = _ =>
      assert (H3 : exists s1, m3 st = (Ok tt, s1) /\ logger s1 = logger st)
  end.
  { destruct (shrinkage st) as [recorded|] eqn:Hrec; [|by eexists].
    destruct given as [g|]; [|by eexists].
    rewrite (Hcompat recorded g eq_refl eq_refl).
    unfold bind, lift, ne.
    rewrite (proj2 (eq_true_iff recorded recorded) eq_refl). by eexists. }
  destruct H3 as (s1 & H3 & Hlog1). rewrite (bind_ok _ _ _ _ _ H3) in H. clear H3.
  unfold minimal_device_test in H.
  unfold bind at 1, bind at 1, modify at 1, ret at 1 in H.
  fold failed in H.
  rewrite bool_decide_true in H.
  2: { intros Hempty. apply Hfailed. unfold failed. rewrite Hempty.
       apply elements_empty. }
  unfold bind at 1, log at 1, modify at 1 in H.
  fold (logged_failed failed) in H.
  match type of H with
  | ?rest ?s3 = _ =>
      assert (Hrest : preserves (probed_all devices) rest)
  end.
  { repeat first
      [ apply preserves__determine_training_shape
      | apply preserves__determine_valid_shapes
      | apply preserves_log
      | (apply preserves_readonly; [apply _|apply readonly_get])
      | (apply preserves_modify; intros ?; by apply probed_all_same)
      | preserves_step ]. }
  apply Hrest in H as [Hsuffix _]. simpl in Hsuffix.
  destruct Hsuffix as [k ->]. apply elem_of_app. right. left.
Qed.

End DryRunProbes.


(** ** The claims *)

Section Claims.

Variable _minimal_device_test : device -> bool.
Variable _validate_shape :
device -> list Z -> option (gmap string pyval) -> exn + list Z.



(** C2.  Once [self.shrinkage] holds a value, it holds that value after
  every later call of [validate_shape], whatever the call gives, and the
  call accepts a shape only if the shrinkage it computes, the input
  extents without the batch axis minus the output extents, is exactly the
  recorded one.  A dry run that is given a shrinkage different from the
  recorded one fails: its future is resolved with an exception. *)
Theorem recorded_shrinkage_is_binding st recorded :
shrinkage st = Some recorded ->
(forall devices shape train_mode r st',
   validate_shape _validate_shape devices shape train_mode st = (r, st') ->
   shrinkage st' = Some recorded
   /\ (r = Ok true ->
       exists criterion input output_axis_order,
         criterion_arguments train_mode st = (Ok criterion, st)
         /\ shape_argument shape st = (Ok input, st)
         /\ config st !! OUTPUT_AXIS_ORDER = Some (PStr output_axis_order)
         /\ compute_shrinkage output_axis_order shape
              (output_of (answers _validate_shape devices input criterion !!! 0%nat))
            = Ok recorded))
/\ (forall devices training_shape valid_shapes given fut,
      given <> recorded ->
      exists e st',
        _dry_run _minimal_device_test _validate_shape devices training_shape
          valid_shapes (Some given) fut st = (Ok tt, st')
        /\ futures st' !! fut = Some (FutException e)
        /\ shrinkage st' = Some recorded).
Proof.
intros Hrec. split.
- intros devices shape train_mode r st' H. split.
  + apply validate_shape_probes in H as [(_&_&_&_&_&_&_&Hs) _]. by apply Hs.
  + intros ->. apply validate_shape_outcome in H.
    inversion H as [ | | | | ? ? ? ? ? ? ? ? ? ? ? Hnone
                   | criterion input oao computed recorded' r ? Hc Hi ? ? Hcfg Hcomp Hrec' Heq ];
      subst; [congruence|].
    rewrite Hrec in Hrec'. injection Hrec' as <-.
    apply eq_true_iff in Heq as ->. by exists criterion, input, oao.
- intros devices training_shape valid_shapes given fut Hne.
  destruct (_dry_run_try_shrinkage _minimal_device_test _validate_shape devices
              training_shape valid_shapes given recorded fut (started devices st))
    as [e Htry]; [done|done|].
  destruct (_dry_run_resolves _minimal_device_test _validate_shape devices
              training_shape valid_shapes (Some given) fut st)
    as (st' & outcome & Hrun & Hfut & _ & _ & Hexc & _).
  destruct (Hexc e _ Htry) as [-> ->].
  exists e. eexists. split; [exact Hrun|]. split; [|done].
  simpl. apply lookup_insert_eq.
Qed.

(** C7.  [validate_shape] accepts a shape only if every device answered
  with one and the same output shape.  When no device raised and two
  devices answer differently, the shape is rejected with the warning and
  nothing else is recorded; when some device raised, the shape is
  rejected with the debug record of the exception and no warning: the
  two rejections leave different records in the log. *)
Theorem validate_shape_needs_agreement devices shape train_mode st :
(forall st',
   validate_shape _validate_shape devices shape train_mode st = (Ok true, st') ->
   exists criterion input out,
     criterion_arguments train_mode st = (Ok criterion, st)
     /\ shape_argument shape st = (Ok input, st)
     /\ forall d, d ∈ devices -> _validate_shape d input criterion = inr out)
/\ (forall criterion input,
      criterion_arguments train_mode st = (Ok criterion, st) ->
      shape_argument shape st = (Ok input, st) ->
      first_exception (answers _validate_shape devices input criterion) = None ->
      forall d1 d2, d1 ∈ devices -> d2 ∈ devices ->
      _validate_shape d1 input criterion <> _validate_shape d2 input criterion ->
      validate_shape _validate_shape devices shape train_mode st
      = (Ok false, add_log warning_different
                     (add_subprocs (launched devices input train_mode) st)))
/\ (forall criterion input e,
      devices ≠ [] ->
      criterion_arguments train_mode st = (Ok criterion, st) ->
      shape_argument shape st = (Ok input, st) ->
      first_exception (answers _validate_shape devices input criterion) = Some e ->
      validate_shape _validate_shape devices shape train_mode st
      = (Ok false, add_log (debug_invalid shape e)
                     (add_subprocs (launched devices input train_mode) st))
      /\ debug_invalid shape e <> warning_different).
Proof.
split; [|split].
- intros st' H. apply validate_shape_outcome in H.
  assert (Hagree : forall criterion input,
            first_exception (answers _validate_shape devices input criterion) = None ->
            ¬ diverging (answers _validate_shape devices input criterion) ->
            exists out, forall d, d ∈ devices -> _validate_shape d input criterion = inr out).
  { intros criterion input Hexc Hdiv. eexists. intros d Hd.
    pose proof (agreeing_answers _ Hexc Hdiv) as Hall.
    apply (proj1 (Forall_forall _ _) Hall). unfold answers.
    apply list_elem_of_fmap. by exists d. }
  inversion H as [ | | | | criterion input ? ? ? Hc Hi Hexc Hdiv
                 | criterion input ? ? ? ? ? Hc Hi Hexc Hdiv ]; subst;
    destruct (Hagree criterion input Hexc Hdiv) as [out Hout];
    by exists criterion, input, out.
- intros criterion input Hc Hi Hexc d1 d2 Hd1 Hd2 Hne.
  apply validate_shape_diverging with criterion; try done.
  + intros ->. by apply elem_of_nil in Hd1.
  + apply different_answers_diverge with (_validate_shape d1 input criterion)
                                         (_validate_shape d2 input criterion);
      try done; unfold answers; apply list_elem_of_fmap; eauto.
- intros criterion input e Hdev Hc Hi Hexc. split; [|done].
  by apply validate_shape_exception with criterion.
Qed.


(** C5.  Processing a job never raises: [_dry_run] returns and has
  resolved the future of the job, with the exception whenever the [try]
  block raised one, among them the [ValueError] for an empty device list.
  The worker never leaves its loop because of a job: it only ever stops
  for the shutdown event, and as long as that is not set it takes job
  after job from the queue, so that after as many rounds as there are
  jobs the queue is empty and every job's future is resolved. *)
Theorem worker_survives_errors :
(forall devices training_shape valid_shapes shrinkage fut st,
   exists st' outcome,
     _dry_run _minimal_device_test _validate_shape devices training_shape
       valid_shapes shrinkage fut st = (Ok tt, st')
     /\ futures st' = <[fut := outcome]> (futures st)
     /\ (forall e s1,
           _dry_run_try _minimal_device_test _validate_shape devices training_shape
             valid_shapes shrinkage fut (started devices st) = (Raise e, s1) ->
           outcome = FutException e)
     /\ (devices = [] ->
         outcome = FutException (ValueError "Dry run on empty device list")))
/\ (forall fuel st e,
      fst (_dry_run_worker _minimal_device_test _validate_shape fuel st) <> Raise e)
/\ (forall fuel st,
      shutdown_event st = false ->
      (length (dry_run_queue st) <= fuel)%nat ->
      let st' := snd (_dry_run_worker _minimal_device_test _validate_shape fuel st) in
      dry_run_queue st' = []
      /\ forall args, args ∈ dry_run_queue st -> is_Some (futures st' !! job_fut args)).
Proof.
split; [|split].
- intros devices training_shape valid_shapes shrinkage fut st.
  destruct (_dry_run_resolves _minimal_device_test _validate_shape devices
              training_shape valid_shapes shrinkage fut st)
    as (st' & outcome & Hrun & Hfut & _ & _ & Hexc & _).
  exists st', outcome. split; [done|]. split; [done|]. split.
  + intros e s1 Htry. by destruct (Hexc e s1 Htry).
  + intros ->. by destruct (Hexc _ _ (_dry_run_try_empty _ _ _ _ _ _ _)).
- intros fuel st e. destruct (shutdown_event st) eqn:Hstop.
  + by rewrite _dry_run_worker_stopped.
  + destruct (_dry_run_worker_inv _minimal_device_test _validate_shape fuel st Hstop)
      as (st' & -> & _). done.
- intros fuel st Hstop Hfuel.
  destruct (_dry_run_worker_inv _minimal_device_test _validate_shape fuel st Hstop)
    as (st' & Hrun & _ & Hq & _ & Hdone).
  rewrite Hrun. simpl. split.
  + rewrite Hq. by apply drop_ge.
  + intros args Hin. apply Hdone. by rewrite take_ge.
Qed.

(** C4, as amended.  The minimal device test does not raise.  In a dry run
  that gets as far as the test (a nonempty device list, no conflict with
  a recorded shrinkage), the devices that fail it are logged as an error
  and stay in the log; they are not excluded: every validity probe that
  the run starts is started on each of the devices given, and a run that
  succeeds resolves its future with all of them. *)
Theorem failed_devices_are_logged_not_excluded devices training_shape valid_shapes given fut st :
devices ≠ [] ->
(forall recorded g, shrinkage st = Some recorded -> given = Some g -> g = recorded) ->
let failed :=
  elements (failed_devices_of devices
              (filter (fun d => _minimal_device_test d = true) devices)) in
(forall s, exists working s',
   minimal_device_test _minimal_device_test devices s = (Ok working, s'))
/\ exists st' outcome,
     _dry_run _minimal_device_test _validate_shape devices training_shape
       valid_shapes given fut st = (Ok tt, st')
     /\ futures st' = <[fut := outcome]> (futures st)
     /\ (forall d, d ∈ devices -> _minimal_device_test d = false ->
           d ∈ failed /\ logged_failed failed ∈ logger st')
     /\ (exists new,
           subprocs st' = new ++ subprocs st /\ on_all_devices devices new)
     /\ (forall record, outcome = FutResult record -> res_devices record = devices).
Proof.
intros Hdev Hcompat failed. split; [by eexists _, _|].
destruct (_dry_run_resolves _minimal_device_test _validate_shape devices
            training_shape valid_shapes given fut st)
  as (st' & outcome & Hrun & Hfut & _ & _ & Hexc & Hres).
exists st', outcome. split; [done|]. split; [done|]. split; [|split].
- intros d Hd Hfail.
  pose proof (failed_devices_elem _minimal_device_test devices d Hd Hfail) as Hin.
  split; [done|].
  assert (Hne : failed ≠ []).
  { intros Hnil. unfold failed in Hnil. rewrite Hnil in Hin. by apply elem_of_nil in Hin. }
  pose proof Hrun as Hrun'.
  unfold _dry_run, bind at 1, log at 1, modify at 1, try_except in Hrun'.
  fold (started devices st) in Hrun'.
  destruct (_dry_run_try _ _ _ _ _ _ _ (started devices st)) as [r s1] eqn:Htry.
  assert (Hlogged : logged_failed failed ∈ logger s1).
  { eapply _dry_run_try_logs_failed; [done| |exact Htry|done]. exact Hcompat. }
  destruct r as [[]|e|].
  + by injection Hrun' as <-.
  + injection Hrun' as <-. simpl. by right.
  + done.
- by apply (preserves__dry_run _minimal_device_test _validate_shape devices) in Hrun as [_ ?].
- intros record Hrecord. by destruct (Hres record Hrecord) as [_ ->].
Qed.

End Claims.

(** C10.  [update_config] on a partial configuration whose dict values
    meet existing nested mappings returns normally and leaves a
    configuration in which: a key given a value that is neither a dict nor
    [None] holds that value; a key given [None] is absent; under a key
    given a dict, the nested mapping holds the given subvalues, lacks the
    subkeys given [None] and is unchanged at every other subkey; and every
    key not named is unchanged.  No other attribute of the process
    changes. *)
Theorem update_config_merges (partial_config : list (string * pyval)) (self : DryRunProcess) :
  NoDup partial_config.*1 ->
  (forall key sub, (key, PDict sub) ∈ partial_config ->
     exists d, config self !! key = Some (PDict d)) ->
  exists cfg',
    update_config partial_config self = (Ok tt, set_config (fun _ => cfg') self)
    /\ (forall key v, (key, v) ∈ partial_config -> is_dict v = false -> is_None v = false ->
          cfg' !! key = Some v)
    /\ (forall key, (key, PNone) ∈ partial_config -> cfg' !! key = None)
    /\ (forall key sub, (key, PDict sub) ∈ partial_config ->
          exists d d',
            config self !! key = Some (PDict d)
            /\ cfg' !! key = Some (PDict d')
            /\ forall subkey,
                 d' !! subkey = match sub !! subkey with
                                | None => d !! subkey
                                | Some PNone => None
                                | Some subvalue => Some subvalue
                                end)
    /\ (forall key, key ∉ partial_config.*1 -> cfg' !! key = config self !! key).
Proof.
  intros Hnd Hdict.
  destruct (ConfigFacts.update_config_ok partial_config Hnd (config self) Hdict)
    as (cfg' & Hrun & Hin & Hother).
  exists cfg'. split; [by unfold update_config; rewrite Hrun|].
  repeat split.
  - intros key v Hkv Hd HN. rewrite (Hin key v Hkv). by destruct v.
  - intros key Hkv. by rewrite (Hin key PNone Hkv).
  - intros key sub Hkv. destruct (Hdict key sub Hkv) as [d Hd].
    exists d, (foldl merge_item d (map_to_list sub)).
    split; [done|]. split.
    + rewrite (Hin key _ Hkv). simpl. by rewrite Hd.
    + intros subkey.
      rewrite ConfigFacts.foldl_merge_item_lookup by apply NoDup_fst_map_to_list.
      by rewrite list_to_map_to_list.
  - done.
Qed.

(** C9.  Built from a model description whose number of inputs or of
    outputs is not exactly one, both adapters raise [NotImplementedError],
    and nothing has been done by then: no model instantiated, no device
    placement, no weights loaded. *)
Theorem adapters_need_one_input_one_output
    (has_batch_dim : string -> result bool) (spec : Adapters.model_spec)
    (devices : list device) (effects : list Adapters.effect) :
  length (Adapters.inputs spec) <> 1%nat \/ length (Adapters.outputs spec) <> 1%nat ->
  Adapters.Exemplum.__init__ has_batch_dim spec devices effects
  = (Raise (NotImplementedError "Only single input, single output models are supported"),
     effects)
  /\ Adapters.TensorflowModelAdapter.__init__ has_batch_dim spec devices effects
     = (Raise (NotImplementedError "Only single input, single output models are supported"),
        effects).
Proof.
  intros Hio.
  assert (Hcheck : bool_decide (length (Adapters.inputs spec) ≠ 1%nat)
                   || bool_decide (length (Adapters.outputs spec) ≠ 1%nat) = true).
  { apply orb_true_iff. destruct Hio; [left|right]; by apply bool_decide_eq_true. }
  assert (Hread : forall check_framework,
            Adapters.read_spec has_batch_dim spec check_framework effects
            = (Raise (NotImplementedError
                        "Only single input, single output models are supported"),
               effects)).
  { intros check_framework. unfold Adapters.read_spec. unfold bind at 1.
    by rewrite Hcheck. }
  unfold Adapters.Exemplum.__init__, Adapters.TensorflowModelAdapter.__init__.
  unfold bind at 1. rewrite Hread. unfold bind at 1. by rewrite Hread.
Qed.

(** ** The claims on the example inputs *)

Import Examples.


(** The same search with a network that only runs on the lower bound
    itself: [None] again, the loop ends when [diff] reaches zero and
    [lower_limit] is never probed. *)
Example find_one_shape_does_not_probe_the_lower_bound :
  fst (find_one_shape smallest_only lower upper ["cpu"] false 0%Q (fresh searched)) = Ok None
  /\ fst (validate_shape smallest_only ["cpu"] lower false (fresh searched)) = Ok true
  /\ [0; 0; 0; 0] ∉ probed_diffs lower upper 0%Q.
Proof.
  vm_compute. split; [done|]. split; [done|]. intros Hin.
  repeat (apply elem_of_cons in Hin as [Hin|Hin]; [discriminate Hin|]).
  by apply elem_of_nil in Hin.
Qed.



Lemma recorded_shrinkage_is_binding_witness :
  shrinkage negotiated = Some (point2d 0 0 0)
  /\ exists e st',
       _dry_run all_devices_work same_shape ["cpu"] None None (Some (point2d 0 1 1)) 0
         negotiated = (Ok tt, st')
       /\ futures st' !! 0%nat = Some (FutException e)
       /\ shrinkage st' = Some (point2d 0 0 0).
Proof.
  split; [reflexivity|].
  apply (recorded_shrinkage_is_binding all_devices_work same_shape negotiated
           (point2d 0 0 0)); [reflexivity|discriminate].
Defined.

(** C3, at the input where the code departs from it: a shape is supplied
    in [valid_shapes], it is valid, and the record the future is resolved
    with holds [[True]] where the claim and the annotation of [dry_run]
    have a list of shapes. *)
Lemma supplied_valid_shapes_become_verdicts :
  let run :=
    _dry_run all_devices_work same_shape ["cpu"] None (Some [point2d 1 4 4]) None 0
      (fresh pinned) in
  fst run = Ok tt
  /\ futures (snd run) !! 0%nat
     = Some (FutResult
               {| res_devices := ["cpu"];
                  res_training_shape := Some (point2d 1 4 4);
                  res_valid_shapes := Some [OBool true];
                  res_shrinkage := Some (point2d 0 0 0) |}).
Proof. vm_compute. done. Qed.

(** Counterexample to C4 as stated: ["cuda:0"] fails the minimal test and
    is logged, yet the training shape is probed on it; the network does not
    run there, so the negotiation fails, whereas it succeeds on ["cpu"]
    alone. *)
Lemma failed_device_is_probed :
  let run :=
    _dry_run only_cpu_works cpu_only ["cpu"; "cuda:0"] None None None 0 (fresh pinned) in
  let alone :=
    _dry_run only_cpu_works cpu_only ["cpu"] None None None 0 (fresh pinned) in
  only_cpu_works "cuda:0" = false
  /\ logged_failed ["cuda:0"] ∈ logger (snd run)
  /\ SubValidateShape "cuda:0" [1; 1; 4; 4] true ∈ subprocs (snd run)
  /\ futures (snd run) !! 0%nat
     = Some (FutException (ValueError "training_shape could not be processed on devices"))
  /\ futures (snd alone) !! 0%nat
     = Some (FutResult
               {| res_devices := ["cpu"];
                  res_training_shape := Some (point2d 1 4 4);
                  res_valid_shapes := Some [OPoint (point2d 1 4 4)];
                  res_shrinkage := Some (point2d 0 0 0) |}).
Proof.
  vm_compute. split; [done|]. split; [|split; [|done]].
  - do 2 right. left.
  - left.
Qed.

Lemma failed_devices_are_logged_not_excluded_witness :
  exists st' outcome,
    _dry_run only_cpu_works same_shape ["cpu"; "cuda:0"] None None None 0 (fresh pinned)
    = (Ok tt, st')
    /\ futures st' = <[0%nat := outcome]> (futures (fresh pinned))
    /\ (forall d, d ∈ ["cpu"; "cuda:0"] -> only_cpu_works d = false ->
          d ∈ elements (failed_devices_of ["cpu"; "cuda:0"]
                          (filter (fun d => only_cpu_works d = true) ["cpu"; "cuda:0"]))
          /\ logged_failed
               (elements (failed_devices_of ["cpu"; "cuda:0"]
                            (filter (fun d => only_cpu_works d = true) ["cpu"; "cuda:0"])))
             ∈ logger st')
    /\ (exists new,
          subprocs st' = new ++ subprocs (fresh pinned)
          /\ on_all_devices ["cpu"; "cuda:0"] new)
    /\ (forall record, outcome = FutResult record ->
          res_devices record = ["cpu"; "cuda:0"]).
Proof.
  apply (failed_devices_are_logged_not_excluded only_cpu_works same_shape
           ["cpu"; "cuda:0"] None None None 0%nat (fresh pinned)).
  - discriminate.
  - intros recorded g Hrec. discriminate Hrec.
Defined.

Lemma worker_survives_errors_witness :
  let st' := snd (_dry_run_worker all_devices_work same_shape 2 two_jobs) in
  shutdown_event two_jobs = false
  /\ dry_run_queue st' = []
  /\ forall args, args ∈ dry_run_queue two_jobs -> is_Some (futures st' !! job_fut args).
Proof.
  split; [reflexivity|].
  apply (proj2 (proj2 (worker_survives_errors all_devices_work same_shape)) 2%nat two_jobs).
  - reflexivity.
  - vm_compute. lia.
Defined.



Lemma validate_shape_needs_agreement_witness :
  validate_shape uneven ["cuda:0"; "cuda:1"] lower false (fresh pinned)
  = (Ok false, add_log warning_different
                 (add_subprocs (launched ["cuda:0"; "cuda:1"] [1; 1; 4; 4] false)
                    (fresh pinned))).
Proof.
  apply (proj1 (proj2 (validate_shape_needs_agreement uneven ["cuda:0"; "cuda:1"] lower
                         false (fresh pinned)))
           None [1; 1; 4; 4] eq_refl eq_refl eq_refl "cuda:0" "cuda:1").
  - left.
  - right. left.
  - discriminate.
Defined.

Lemma adapters_need_one_input_one_output_witness :
  Adapters.Exemplum.__init__ batch_first two_inputs ["cpu"] []
  = (Raise (NotImplementedError "Only single input, single output models are supported"), [])
  /\ Adapters.TensorflowModelAdapter.__init__ batch_first two_inputs ["cpu"] []
     = (Raise (NotImplementedError "Only single input, single output models are supported"),
        []).
Proof.
  apply (adapters_need_one_input_one_output batch_first two_inputs ["cpu"] []).
  left. simpl. lia.
Defined.

Lemma update_config_merges_witness :
  exists cfg',
    update_config partial_config (fresh pinned)
    = (Ok tt, set_config (fun _ => cfg') (fresh pinned))
    /\ cfg' !! INPUT_CHANNELS = Some (PInt 3)
    /\ cfg' !! OUTPUT_AXIS_ORDER = None
    /\ cfg' !! INPUT_AXIS_ORDER = Some (PStr "bcyx").
Proof.
  destruct (update_config_merges partial_config (fresh pinned))
    as (cfg' & Hrun & Hset & Hdel & _ & Hother).
  - apply (bool_decide_unpack _). by vm_compute.
  - intros key sub Hin. unfold partial_config in Hin.
    apply elem_of_cons in Hin as [[= -> _]|Hin]; [by exists pinned|].
    apply elem_of_cons in Hin as [[=]|Hin].
    apply elem_of_cons in Hin as [[=]|Hin].
    by apply elem_of_nil in Hin.
  - exists cfg'. split; [exact Hrun|]. split; [|split].
    + apply Hset; [|done|done]. right. left.
    + apply Hdel. do 2 right. left.
    + rewrite Hother; [done|]. apply (bool_decide_unpack _). by vm_compute.
Defined.

(** * Further properties of the code *)


(** ** [update_config] *)

Lemma for_each_app {S A} (l1 l2 : list A) (body : A -> M S unit) (s : S) :
  for_each (l1 ++ l2) body s = bind (for_each l1 body) (fun _ => for_each l2 body) s.
Proof.
  revert s. induction l1 as [|a l1 IH]; intros s; simpl; [done|].
  unfold bind. destruct (body a s) as [[[]|e|] s1]; [|done..].
  rewrite IH. done.
Qed.

(** X1.  A dict value for a key that the configuration lacks makes
    [update_config] raise [KeyError] for that key: the items before it have
    been applied, the items after it have not. *)
Theorem update_config_missing_key
    (before after : list (string * pyval)) (key : string) (sub : gmap string pyval)
    (self : DryRunProcess) :
  NoDup (before ++ (key, PDict sub) :: after).*1 ->
  (forall k s, (k, PDict s) ∈ before -> exists d, config self !! k = Some (PDict d)) ->
  config self !! key = None ->
  sub <> ∅ ->
  exists cfg1,
    update_config before self = (Ok tt, set_config (fun _ => cfg1) self)
    /\ update_config (before ++ (key, PDict sub) :: after) self
       = (Raise (KeyError key), set_config (fun _ => cfg1) self).
Proof.
  intros Hnd Hdict Hkey Hsub.
  rewrite fmap_app in Hnd. apply NoDup_app in Hnd as (Hnd1 & Hnotin & _).
  destruct (ConfigFacts.update_config_ok before Hnd1 (config self) Hdict)
    as (cfg1 & Hrun & _ & Hother).
  exists cfg1. unfold update_config. rewrite Hrun. split; [done|].
  unfold Config.update_config in *. rewrite for_each_app. unfold bind at 1.
  rewrite Hrun. simpl.
  assert (Hkey1 : cfg1 !! key = None).
  { rewrite Hother; [done|]. intros Hin. apply (Hnotin _ Hin). simpl. left. }
  destruct (map_to_list sub) as [|[sk sv] items] eqn:Hitems.
  { by apply map_to_list_empty_iff in Hitems. }
  simpl. unfold bind at 1 2. unfold Config.update_subkey. simpl.
  destruct (is_None sv); unfold bind at 1, dict_getitem; by rewrite Hkey1.
Qed.

(** X2.  Applying a partial configuration a second time changes nothing. *)
Theorem update_config_idempotent (partial_config : list (string * pyval))
    (self : DryRunProcess) :
  NoDup partial_config.*1 ->
  (forall key sub, (key, PDict sub) ∈ partial_config ->
     exists d, config self !! key = Some (PDict d)) ->
  exists self',
    update_config partial_config self = (Ok tt, self')
    /\ update_config partial_config self' = (Ok tt, self').
Proof.
  intros Hnd Hdict.
  destruct (ConfigFacts.update_config_ok partial_config Hnd (config self) Hdict)
    as (cfg' & Hrun & Hin & Hother).
  assert (Hdict' : forall key sub, (key, PDict sub) ∈ partial_config ->
            exists d, cfg' !! key = Some (PDict d)).
  { intros key sub Hkv. destruct (Hdict key sub Hkv) as [d Hd].
    rewrite (Hin key _ Hkv), Hd. simpl. by eexists. }
  destruct (ConfigFacts.update_config_ok partial_config Hnd cfg' Hdict')
    as (cfg'' & Hrun' & Hin' & Hother').
  assert (Heq : cfg'' = cfg').
  { apply map_eq. intros key.
    destruct (decide (key ∈ partial_config.*1)) as [Hkey|Hkey]; [|by apply Hother'].
    apply list_elem_of_fmap in Hkey as ([k v] & -> & Hkv). simpl.
    rewrite (Hin' k v Hkv), (Hin k v Hkv).
    destruct v as [|n|s|l|sub]; simpl; try done.
    destruct (Hdict k sub Hkv) as [d ->]. do 2 f_equal.
    apply map_eq. intros subkey.
    rewrite !ConfigFacts.foldl_merge_item_lookup by apply NoDup_fst_map_to_list.
    by destruct (list_to_map (map_to_list sub) !! subkey). }
  subst cfg''. exists (set_config (fun _ => cfg') self).
  unfold update_config. rewrite Hrun. split; [done|]. simpl. by rewrite Hrun'.
Qed.

Lemma pass_result_length discard ni nz order_ : forall diff,
  length (pass_result discard ni nz order_ diff) = length diff.
Proof.
  unfold pass_result.
  induction order_ as [|i rest IH]; intros diff; simpl; [done|].
  rewrite IH. by rewrite length_insert.
Qed.

Lemma zip_with_add_sub (l k : list Z) :
  length l = length k -> zip_with Z.add l (zip_with Z.sub k l) = k.
Proof.
  revert k. induction l as [|a l IH]; intros [|b k] Hlen; simpl in *; try done.
  f_equal; [lia|]. apply IH. lia.
Qed.

Lemma zip_order_array (p : Point) : zip (order p) (array p) = p.
Proof. unfold order, array. apply zip_fst_snd. Qed.

Lemma length_order_array (p : Point) : length (order p) = length (array p).
Proof. unfold order, array. by rewrite !length_fmap. Qed.

Lemma construct_full (cls : list ascii) (args : list Z) :
  length args = length cls -> construct cls args = Ok (zip cls args).
Proof.
  intros Hlen. unfold construct. rewrite bool_decide_true by lia.
  rewrite Hlen, Nat.sub_diag. simpl. by rewrite app_nil_r.
Qed.

Section SearchMore.
Variable _validate_shape :
  device -> list Z -> option (gmap string pyval) -> exn + list Z.
Variables (devices : list device) (train_mode : bool) (discard : Q).
Variables (shape_class : list ascii) (lower_limit : list Z).

Local Abbreviation pass :=
  (search_pass _validate_shape devices train_mode discard shape_class lower_limit).
Local Abbreviation loop :=
  (search_loop _validate_shape devices train_mode discard shape_class lower_limit).

(** A pass that finds a shape stops before an index of the search order
    that it has not used yet. *)
Lemma search_pass_found nonzero_index nonzero search_order :
  forall diff st shape diff' st',
  pass search_order nonzero_index nonzero diff st = (Ok (Some shape, diff'), st') ->
  exists done_ i rest,
    search_order = done_ ++ i :: rest
    /\ diff' = pass_result discard nonzero_index nonzero done_ diff
    /\ construct shape_class (zip_with Z.add lower_limit diff') = Ok shape.
Proof.
  induction search_order as [|i rest IH]; intros diff st shape diff' st' H; simpl in H.
  - done.
  - apply bind_inv_readonly in H as [(shape0 & Hshape & H)|(e & _ & ? & _)];
      [| done | apply readonly_lift, construct_no_OutOfFuel].
    injection Hshape as Hshape.
    apply bind_inv in H as [(valid & s1 & Hv & H)|[(e & _ & ?)|[_ ?]]]; [|done..].
    destruct valid.
    + injection H as <- <- <-. by exists [], i, rest.
    + apply IH in H as (done_ & i' & rest' & -> & -> & Hc).
      by exists (i :: done_), i', rest'.
Qed.

(** The array [diff] at which the loop finds a shape has a nonzero
    entry. *)
Lemma search_loop_found (fuel : nat) :
  forall diff st shape st',
  loop fuel diff (update_nonzero diff).1.1 (update_nonzero diff).1.2
    (update_nonzero diff).2 st = (Ok (Some shape), st') ->
  exists diff' j,
    length diff' = length diff
    /\ (j < length diff)%nat
    /\ diff' !!! j <> 0
    /\ construct shape_class (zip_with Z.add lower_limit diff') = Ok shape.
Proof.
  induction fuel as [|fuel IH]; intros diff st shape st' H;
    simpl in H; case_bool_decide as Hnd; try done.
  apply bind_inv in H as [([found diff'] & s1 & Hpass & H)|[(e & _ & ?)|[_ ?]]]; [|done..].
  destruct found as [shape'|].
  - injection H as <- <-.
    apply search_pass_found in Hpass as (done_ & i & rest & Horder & -> & Hc).
    assert (Hnodup : NoDup (done_ ++ i :: rest)).
    { rewrite <- Horder, reverse_Permutation, argsort_perm. apply NoDup_seq. }
    assert (Hin : forall i', i' ∈ done_ ++ i :: rest ->
              (i' < length ((fun i => diff !!! i) <$> nonzero_indices diff))%nat).
    { intros i'. rewrite <- Horder. by rewrite elem_of_search_order. }
    apply NoDup_app in Hnodup as (_ & Hnotin & _).
    assert (Hi : (i < length ((fun i => diff !!! i) <$> nonzero_indices diff))%nat).
    { apply Hin. set_solver. }
    destruct (nonzero_index_lookup diff i Hi) as (Hlt & _ & Hnz).
    eexists _, (nonzero_indices diff !!! i). split; [apply pass_result_length|].
    split; [done|]. split; [|exact Hc].
    rewrite pass_result_untouched; [done| |done|].
    + intros i' Hi'. apply Hin. set_solver.
    + intros Hi'. apply (Hnotin _ Hi'). set_solver.
  - apply search_pass_inv in Hpass as (_ & _ & -> & _).
    apply IH in H as (diff' & j & Hlen & Hj & Hnz & Hc).
    rewrite pass_result_length in Hlen, Hj. by exists diff', j.
Qed.

End SearchMore.

Section FindOneShapeMore.
Variable _validate_shape :
  device -> list Z -> option (gmap string pyval) -> exn + list Z.

(** X3.  [find_one_shape] never returns [lower_limit] itself: the shape
    it returns exceeds [lower_limit] on some axis. *)
Theorem find_one_shape_above_lower_limit lower_limit upper_limit devices
    train_mode discard st shape st' :
  find_one_shape _validate_shape lower_limit upper_limit devices train_mode discard st
  = (Ok (Some shape), st') ->
  order shape = order lower_limit
  /\ exists j, (j < length (array lower_limit))%nat
       /\ array lower_limit !!! j < array shape !!! j.
Proof.
  intros H. pose proof H as Hinv.
  apply find_one_shape_inv in Hinv as (_ & _ & [Hle _] & _).
  unfold find_one_shape, find_one_shape_fuel in H.
  apply bind_inv_readonly in H as [([] & Hcls & H)|(e & _ & ? & _)];
    [| done | apply readonly_py_assert].
  apply bind_inv_readonly in H as [([] & Hnonneg & H)|(e & _ & ? & _)];
    [| done | apply readonly_py_assert].
  apply bind_inv_readonly in H as [([] & Hdiscard & H)|(e & _ & ? & _)];
    [| done | apply readonly_py_assert].
  apply py_assert_ok in Hcls. apply bool_decide_eq_true in Hcls.
  set (initial := zip_with Z.sub (array upper_limit) (array lower_limit)) in *.
  simpl in H.
  apply bind_inv in H as [([] & s1 & _ & H)|[(e & _ & ?)|[_ ?]]]; [|done..].
  apply search_loop_found in H as (diff' & j & Hlen & Hj & Hnz & Hc).
  assert (Hlen0 : length initial = length (array lower_limit)).
  { unfold initial. rewrite length_zip_with.
    pose proof (length_order_array lower_limit).
    pose proof (length_order_array upper_limit). rewrite Hcls in *. lia. }
  rewrite construct_full in Hc
    by (rewrite length_zip_with, length_order_array; lia).
  injection Hc as <-.
  unfold le, same_axes in Hle. case_bool_decide as Hord; [|done].
  simpl in Hle. injection Hle as Hle. apply bool_decide_eq_true in Hle.
  split; [done|]. exists j. split; [lia|].
  assert (Harr : array (zip (order lower_limit)
                          (zip_with Z.add (array lower_limit) diff'))
                 = zip_with Z.add (array lower_limit) diff').
  { unfold array at 1. apply snd_zip.
    rewrite length_zip_with, length_order_array. lia. }
  rewrite Harr in *.
  assert (Hj' : (j < length (array lower_limit))%nat) by lia.
  destruct (lookup_lt_is_Some_2 _ _ Hj') as [a Ha].
  assert (Hj'' : (j < length diff')%nat) by lia.
  destruct (lookup_lt_is_Some_2 _ _ Hj'') as [d Hd].
  assert (Hsum : zip_with Z.add (array lower_limit) diff' !! j = Some (a + d)).
  { rewrite lookup_zip_with, Ha. simpl. by rewrite Hd. }
  pose proof (Forall2_lookup_lr _ _ _ _ _ _ Hle Ha Hsum) as Hge.
  rewrite (list_lookup_total_correct _ _ _ Ha).
  rewrite (list_lookup_total_correct _ _ _ Hsum).
  rewrite (list_lookup_total_correct _ _ _ Hd) in Hnz. lia.
Qed.

(** X4.  A violated precondition of [find_one_shape] (bounds of different
    classes, an upper bound below the lower bound on some axis, a
    [discard] outside [0, 1)) raises [AssertionError] before anything is
    probed or logged. *)
Theorem find_one_shape_asserts lower_limit upper_limit devices train_mode discard st :
  order upper_limit <> order lower_limit
  \/ ¬ Forall (fun d => 0 <= d) (zip_with Z.sub (array upper_limit) (array lower_limit))
  \/ ¬ valid_discard discard ->
  exists msg,
    find_one_shape _validate_shape lower_limit upper_limit devices train_mode discard st
    = (Raise (AssertionError msg), st).
Proof.
  intros Hbad. unfold find_one_shape, find_one_shape_fuel, valid_discard in *.
  unfold bind at 1, py_assert at 1. case_bool_decide as Hcls; [|by eexists].
  simpl. unfold bind at 1, py_assert at 1. case_bool_decide as Hge; [|by eexists].
  simpl. unfold bind at 1, py_assert at 1.
  destruct (Qle_bool 0 discard && negb (Qle_bool 1 discard)) eqn:Hd; [|by eexists].
  exfalso. destruct Hbad as [?|[?|?]]; done.
Qed.

(** X5.  When the upper bound differs from the lower bound and the probe
    accepts it, [find_one_shape] returns the upper bound. *)
Theorem find_one_shape_prefers_upper_limit lower_limit upper_limit devices
    train_mode discard st :
  order upper_limit = order lower_limit ->
  Forall (fun d => 0 <= d) (zip_with Z.sub (array upper_limit) (array lower_limit)) ->
  valid_discard discard ->
  array upper_limit <> array lower_limit ->
  (forall st1, frame st1 = frame st ->
     fst (validate_shape _validate_shape devices upper_limit train_mode st1) = Ok true) ->
  fst (find_one_shape _validate_shape lower_limit upper_limit devices train_mode discard st)
  = Ok (Some upper_limit).
Proof.
  intros Hcls Hge Hd Hne Hv.
  unfold find_one_shape, find_one_shape_fuel, valid_discard in *.
  rewrite !bool_decide_true by done. rewrite Hd.
  set (initial := zip_with Z.sub (array upper_limit) (array lower_limit)) in *.
  simpl. unfold bind at 1, py_assert, ret. unfold bind at 1. unfold bind at 1.
  unfold bind at 1.
  match goal with
  | |- context [(if bool_decide ?c then ?a else ?b) st] =>
      assert (Hst1 : exists s1, (if bool_decide c then a else b) st = (Ok tt, s1)
                                /\ frame s1 = frame st)
        by (case_bool_decide; by eexists);
      destruct Hst1 as (s1 & -> & Hf)
  end.
  assert (Hlen : length (array upper_limit) = length (array lower_limit)).
  { rewrite <- !length_order_array. by rewrite Hcls. }
  assert (Hnz : exists j, (j < length initial)%nat /\ initial !!! j <> 0).
  { destruct (decide (Forall (fun d => d = 0) initial)) as [Hz|Hnz].
    - exfalso. apply Hne. rewrite <- (zip_with_add_sub (array lower_limit) (array upper_limit))
        by done.
      fold initial. clear -Hz Hlen. unfold initial in *.
      revert Hz Hlen. generalize (array upper_limit) as u.
      induction (array lower_limit) as [|a l IH]; intros [|b u] Hz Hlen; simpl in *;
        try done.
      inversion Hz as [|? ? H1 H2]; subst. f_equal; [lia|]. apply IH; [done|lia].
    - apply not_Forall_Exists in Hnz; [|intros ?; apply _].
      apply Exists_exists in Hnz as (d & Hin & Hd0).
      apply list_elem_of_lookup in Hin as [j Hj]. exists j.
      split; [by eapply lookup_lt_Some|].
      by rewrite (list_lookup_total_correct _ _ _ Hj). }
  destruct Hnz as (j & Hj & Hnzj).
  destruct (nonzero_index_complete initial j Hj Hnzj) as (i & Hi & _).
  assert (Hfuel : exists fuel, enough_fuel lower_limit upper_limit = S fuel).
  { unfold enough_fuel. fold initial.
    destruct (foldr_max_bound initial) as [_ Hmax].
    pose proof (Forall_lookup_total_1 _ _ _ Hmax Hj) as H1.
    pose proof (Forall_lookup_total_1 _ _ _ Hge Hj) as H2. simpl in H1, H2.
    exists (Nat.pred (Z.to_nat (foldr Z.max 0 initial))). lia. }
  destruct Hfuel as [fuel ->]. simpl.
  rewrite bool_decide_false by lia.
  destruct (reverse (argsort ((fun i => initial !!! i) <$> nonzero_indices initial)))
    as [|i0 rest] eqn:Horder.
  { exfalso. assert (Hin : i ∈ reverse (argsort ((fun i => initial !!! i)
                                         <$> nonzero_indices initial))).
    { by apply elem_of_search_order. }
    rewrite Horder in Hin. by apply elem_of_nil in Hin. }
  simpl. unfold initial at 1. rewrite zip_with_add_sub by done.
  rewrite construct_full by (by rewrite length_order_array).
  rewrite <- Hcls, zip_order_array.
  specialize (Hv s1 Hf). unfold bind, lift.
  destruct (validate_shape _ devices upper_limit train_mode s1) as [r s2].
  simpl in Hv. by subst r.
Qed.

End FindOneShapeMore.

Lemma total_slack_insert (d : list Z) (j : nat) (v : Z) :
  (j < length d)%nat -> total_slack (<[j := v]> d) = total_slack d - d !!! j + v.
Proof.
  revert j. induction d as [|a d IH]; intros [|j] Hj; simpl in *; try lia.
  rewrite IH by lia. unfold total_slack. simpl.
  change (lookup_total (S j) (a :: d)) with (d !!! j). lia.
Qed.

Lemma total_slack_entry (d : list Z) (j : nat) :
  Forall (fun x => 0 <= x) d -> (j < length d)%nat ->
  0 <= d !!! j <= total_slack d.
Proof.
  intros Hd. revert j. induction Hd as [|a d Ha Hd IH]; intros [|j] Hj; simpl in *; try lia.
  - unfold total_slack. simpl. fold (total_slack d).
    assert (0 <= total_slack d).
    { clear -Hd. induction Hd as [|b d Hb Hd IH]; unfold total_slack in *; simpl; lia. }
    change (lookup_total 0%nat (a :: d)) with a. lia.
  - change (lookup_total (S j) (a :: d)) with (d !!! j).
    specialize (IH j ltac:(lia)). unfold total_slack in *. simpl. lia.
Qed.

Lemma total_slack_nonneg (d : list Z) : Forall (fun x => 0 <= x) d -> 0 <= total_slack d.
Proof. induction 1 as [|b d Hb Hd IH]; unfold total_slack in *; simpl; lia. Qed.

Section ProbeCount.
Variable _validate_shape :
  device -> list Z -> option (gmap string pyval) -> exn + list Z.
Variables (devices : list device) (train_mode : bool) (discard : Q).
Variables (shape_class : list ascii) (lower_limit : list Z).
Hypothesis Hdiscard : Qle_bool 0 discard && negb (Qle_bool 1 discard) = true.

Local Abbreviation launches st := (Z.of_nat (length (subprocs st))).
Local Abbreviation per_probe := (Z.of_nat (length devices)).

Lemma validate_shape_launches shape st r st' :
  validate_shape _validate_shape devices shape train_mode st = (r, st') ->
  launches st <= launches st' <= launches st + per_probe.
Proof.
  intros H. apply validate_shape_outcome in H.
  assert (Hl : forall input s,
            length (subprocs (add_subprocs (launched devices input train_mode) s))
            = (length devices + length (subprocs s))%nat).
  { intros input s. simpl. rewrite length_app, length_reverse. unfold launched.
    by rewrite length_fmap. }
  destruct H; simpl; rewrite ?length_app, ?length_reverse; unfold launched;
    rewrite ?length_fmap; lia.
Qed.

Section Pass.
Variable diff0 : list Z.
Hypothesis Hdiff0 : Forall (fun d => 0 <= d) diff0.
Local Abbreviation nonzero_index := (nonzero_indices diff0).
Local Abbreviation nonzero := ((fun i => diff0 !!! i) <$> nonzero_indices diff0).
Local Abbreviation ndiff := (length ((fun i => diff0 !!! i) <$> nonzero_indices diff0)).

Lemma search_pass_launches search_order :
  NoDup search_order ->
  (forall i, i ∈ search_order -> (i < ndiff)%nat) ->
  forall diff st r st',
  length diff = length diff0 ->
  Forall (fun d => 0 <= d) diff ->
  (forall i, i ∈ search_order ->
     diff !!! (nonzero_index !!! i) = diff0 !!! (nonzero_index !!! i)) ->
  search_pass _validate_shape devices train_mode discard shape_class lower_limit
    search_order nonzero_index nonzero diff st = (r, st') ->
  match r with
  | Ok (None, diff') =>
      launches st' + per_probe * total_slack diff'
      <= launches st + per_probe * total_slack diff
  | _ => launches st' <= launches st + per_probe * total_slack diff
  end.
Proof.
  induction search_order as [|i rest IH];
    intros Hnd Hlt diff st r st' Hlen Hge Hsame H; simpl in H.
  - injection H as <- <-. lia.
  - pose proof (total_slack_nonneg diff Hge) as Hsum0.
    assert (Hi : (i < ndiff)%nat) by (apply Hlt; left).
    destruct (nonzero_index_lookup diff0 i Hi) as (Hk & Hnzi & Hnz).
    pose proof (reduce_nonzero discard diff0 Hdiscard Hdiff0 i Hi) as Hred.
    assert (Hentry : 1 <= diff !!! (nonzero_index !!! i) <= total_slack diff).
    { pose proof (total_slack_entry diff (nonzero_index !!! i) Hge ltac:(lia)).
      pose proof (Forall_lookup_total_1 _ _ _ Hdiff0 Hk) as Hpos. simpl in Hpos.
      rewrite (Hsame i) in * by left. lia. }
    apply bind_inv_readonly in H as [(shape & _ & H)|(e & _ & -> & ->)];
      [| nia | apply readonly_lift, construct_no_OutOfFuel].
    apply bind_inv in H as [(valid & s1 & Hv & H)|[(e & Hv & ->)|[Hv ->]]];
      apply validate_shape_launches in Hv; [|nia..].
    destruct valid.
    + injection H as <- <-. nia.
    + apply NoDup_cons in Hnd as [Hnotin Hnd].
      apply IH in H; [| done | by intros; apply Hlt; right
                      | by rewrite length_insert | |].
      * rewrite total_slack_insert in H by lia.
        rewrite (Hsame i) in * by left.
        destruct r as [[[shape'|] diff']| |]; nia.
      * apply Forall_insert; [done|]. lia.
      * intros i' Hi'. rewrite list_lookup_total_insert_ne; [apply Hsame; by right|].
        intros Heq. apply nonzero_index_inj in Heq; [|done|apply Hlt; by right].
        by subst.
Qed.
End Pass.

Lemma search_loop_launches (fuel : nat) :
  forall diff st r st',
  Forall (fun d => 0 <= d) diff ->
  search_loop _validate_shape devices train_mode discard shape_class lower_limit
    fuel diff (update_nonzero diff).1.1 (update_nonzero diff).1.2
    (update_nonzero diff).2 st = (r, st') ->
  launches st' <= launches st + per_probe * total_slack diff.
Proof.
  induction fuel as [|fuel IH]; intros diff st r st' Hge H;
    pose proof (total_slack_nonneg diff Hge) as Hsum0;
    simpl in H; case_bool_decide as Hnd.
  1-3: injection H as <- <-; nia.
  apply bind_inv in H as [([found diff'] & s1 & Hpass & H)|[(e & Hpass & ->)|[Hpass ->]]].
  all: pose proof Hpass as Hinv; apply search_pass_inv in Hinv as (_ & _ & Hr).
  all: apply (search_pass_launches diff Hge) in Hpass;
    [ | rewrite reverse_Permutation, argsort_perm; apply NoDup_seq
      | by intros i; rewrite elem_of_search_order | done | done | done ].
  2,3: done.
  destruct found as [shape|].
  - injection H as <- <-. done.
  - destruct Hr as (-> & _).
    destruct (full_pass_decreases discard diff Hdiscard Hge) as [Hsh _].
    apply IH in H; [|by eapply shrunk_nonneg]. lia.
Qed.

End ProbeCount.

Section ProbeBound.
Variable _validate_shape :
  device -> list Z -> option (gmap string pyval) -> exn + list Z.

End ProbeBound.

Lemma config_only_readonly_pure {A} (m : M DryRunProcess A) :
  readonly m -> (forall s s1, fst (m s1) = fst (m s)) -> config_only m.
Proof. intros Hr Hp. split; [done|]. intros s s1 _. apply Hp. Qed.

Lemma config_only_bind {A B} (m : M DryRunProcess A) (k : A -> M DryRunProcess B) :
  config_only m -> (forall a, config_only (k a)) -> config_only (bind m k).
Proof.
  intros [Hr Hm] Hk. split.
  - apply readonly_bind; [done|]. intros a. apply Hk.
  - intros s s1 Hc. specialize (Hm s s1 Hc). unfold bind.
    destruct (m s) as [r s'] eqn:H. destruct (m s1) as [r1 s1'] eqn:H1.
    apply Hr in H as [-> _]. apply Hr in H1 as [-> _]. simpl in Hm. subst r1.
    destruct r as [a| |]; [|done..]. by apply Hk.
Qed.

Lemma config_only_config_getitem key : config_only (config_getitem key).
Proof.
  split; [apply readonly_config_getitem|]. intros s s1 Hc.
  unfold config_getitem, bind, gets, lift. simpl. by rewrite Hc.
Qed.

Lemma config_only_list_comprehension {A B} (f : A -> M DryRunProcess B) l :
  (forall a, config_only (f a)) -> config_only (list_comprehension f l).
Proof.
  intros Hf. induction l as [|a l IH]; simpl.
  - by apply config_only_readonly_pure; [apply readonly_ret|].
  - apply config_only_bind; [done|]. intros v. apply config_only_bind; [done|]. intros vs.
    by apply config_only_readonly_pure; [apply readonly_ret|].
Qed.

Ltac config_only_step :=
  first
    [ apply config_only_config_getitem
    | apply config_only_bind; [|intros ?]
    | apply config_only_list_comprehension; intros ?
    | (apply config_only_readonly_pure;
       [ first [ apply readonly_ret | apply readonly_raise
               | apply readonly_as_int | apply readonly_as_ints | apply readonly_as_str
               | apply readonly_as_dict
               | apply readonly_lift; solve [auto with no_oof] ]
       | intros ? ?; unfold as_int, as_ints, as_str, as_dict; by repeat case_match ]) ].

Lemma config_only_criterion_arguments t : config_only (criterion_arguments t).
Proof.
  unfold criterion_arguments. destruct t; repeat config_only_step.
Qed.

Lemma config_only_shape_argument shape : config_only (shape_argument shape).
Proof.
  unfold shape_argument. repeat config_only_step.
Qed.

(** A computation that reads only the configuration gives in [s1] what it
    gave in [s]. *)
Lemma config_only_run {A} (m : M DryRunProcess A) s s1 r :
  config_only m -> config s1 = config s -> m s = (r, s) -> m s1 = (r, s1).
Proof.
  intros [Hr Hc] Hcfg H. specialize (Hc s s1 Hcfg). rewrite H in Hc.
  destruct (m s1) as [r1 s1'] eqn:H1. apply Hr in H1 as [-> _]. simpl in Hc. by subst.
Qed.

Section ValidateAgain.
Variable _validate_shape :
  device -> list Z -> option (gmap string pyval) -> exn + list Z.

(** The call when no device raises and all agree, with a shrinkage on
    record. *)
Lemma validate_shape_compared devices shape train_mode st criterion input
    output_axis_order computed recorded :
  devices ≠ [] ->
  criterion_arguments train_mode st = (Ok criterion, st) ->
  shape_argument shape st = (Ok input, st) ->
  first_exception (answers _validate_shape devices input criterion) = None ->
  ¬ diverging (answers _validate_shape devices input criterion) ->
  config st !! OUTPUT_AXIS_ORDER = Some (PStr output_axis_order) ->
  compute_shrinkage output_axis_order shape
    (output_of (answers _validate_shape devices input criterion !!! 0%nat)) = Ok computed ->
  shrinkage st = Some recorded ->
  validate_shape _validate_shape devices shape train_mode st
  = (Points.eq recorded computed, add_subprocs (launched devices input train_mode) st).
Proof.
  intros Hdev Hcrit Hinput Hexc Hdiv Hoao Hcomp Hrec. unfold validate_shape.
  rewrite bool_decide_true by done. unfold py_assert.
  rewrite (bind_ok _ _ st tt st) by done.
  rewrite (bind_ok _ _ _ _ _ Hcrit), (bind_ok _ _ _ _ _ Hinput).
  unfold bind at 1. simpl. unfold answers, diverging in Hexc, Hdiv, Hcomp. rewrite Hexc.
  rewrite bool_decide_false by done.
  unfold config_getitem, bind, gets, lift, dict_getitem. simpl. rewrite Hoao. simpl.
  match goal with
  | |- context [compute_shrinkage ?a ?b ?c] =>
      replace (compute_shrinkage a b c) with (Ok computed : result Point)
        by (symmetry; exact Hcomp)
  end.
  by rewrite Hrec.
Qed.

(** X7.  A shape that [validate_shape] accepts is accepted again by the
    next call, and by any later call made with the configuration and the
    recorded shrinkage as the first call left them. *)
Theorem validate_shape_accepts_again devices shape train_mode st st' later :
  validate_shape _validate_shape devices shape train_mode st = (Ok true, st') ->
  config later = config st' ->
  shrinkage later = shrinkage st' ->
  exists later',
    validate_shape _validate_shape devices shape train_mode later = (Ok true, later')
    /\ shrinkage later' = shrinkage st'.
Proof.
  intros H Hcfg Hshr. apply validate_shape_outcome in H.
  inversion H as
    [ | | | | criterion input oao computed Hdev Hcrit Hinput Hexc Hdiv Hoao Hcomp Hrec
    | criterion input oao computed recorded r Hdev Hcrit Hinput Hexc Hdiv Hoao Hcomp Hrec
        Heq Hne ]; subst.
  - simpl in Hcfg, Hshr.
    assert (Hcrit' : criterion_arguments train_mode later = (Ok criterion, later)).
    { eapply config_only_run; [apply config_only_criterion_arguments|done|done]. }
    assert (Hinput' : shape_argument shape later = (Ok input, later)).
    { eapply config_only_run; [apply config_only_shape_argument|done|done]. }
    rewrite <- Hcfg in Hoao.
    rewrite (validate_shape_compared devices shape train_mode later criterion input
               oao computed computed Hdev Hcrit' Hinput' Hexc Hdiv Hoao Hcomp Hshr).
    rewrite (proj2 (eq_true_iff computed computed) eq_refl). by eexists.
  - simpl in Hcfg, Hshr. rewrite Hrec in Hshr.
    assert (Hcrit' : criterion_arguments train_mode later = (Ok criterion, later)).
    { eapply config_only_run; [apply config_only_criterion_arguments|done|done]. }
    assert (Hinput' : shape_argument shape later = (Ok input, later)).
    { eapply config_only_run; [apply config_only_shape_argument|done|done]. }
    rewrite <- Hcfg in Hoao.
    rewrite (validate_shape_compared devices shape train_mode later criterion input
               oao computed recorded Hdev Hcrit' Hinput' Hexc Hdiv Hoao Hcomp Hshr).
    rewrite Heq. eexists. split; [done|]. simpl. congruence.
Qed.

End ValidateAgain.

Lemma bind_ok_inv {S A B} (m : M S A) (k : A -> M S B) s b s' :
  bind m k s = (Ok b, s') -> exists a s1, m s = (Ok a, s1) /\ k a s1 = (Ok b, s').
Proof.
  intros H. by apply bind_inv in H as [(a & s1 & H1 & H)|[(e & _ & ?)|[_ ?]]]; eauto.
Qed.

Lemma config_getitem_ok key st v s1 :
  config_getitem key st = (Ok v, s1) -> config st !! key = Some v /\ s1 = st.
Proof.
  unfold config_getitem, bind, gets, lift, dict_getitem. simpl.
  destruct (config st !! key); [|done]. by intros [= -> ->].
Qed.

Lemma bind_assoc {S A B C} (m : M S A) (k : A -> M S B) (h : B -> M S C) s :
  bind (bind m k) h s = bind m (fun a => bind (k a) h) s.
Proof. unfold bind. by destruct (m s) as [[a|e|] s1]. Qed.

Lemma bind_ext {S A B} (m : M S A) (k k' : A -> M S B) s :
  (forall a s1, k a s1 = k' a s1) -> bind m k s = bind m k' s.
Proof. intros H. unfold bind. by destruct (m s) as [[a|e|] s1]. Qed.

Lemma config_getitem_run key st v :
  config st !! key = Some v -> config_getitem key st = (Ok v, st).
Proof.
  intros H. unfold config_getitem, bind, gets, lift, dict_getitem. simpl. by rewrite H.
Qed.

Lemma as_int_ok {S} v (s : S) n s1 : as_int v s = (Ok n, s1) -> v = PInt n /\ s1 = s.
Proof. destruct v; try done. by intros [= -> ->]. Qed.

Lemma as_ints_ok {S} v (s : S) l s1 : as_ints v s = (Ok l, s1) -> v = PInts l /\ s1 = s.
Proof. destruct v; try done. by intros [= -> ->]. Qed.

Lemma unless_raise_ok {S} c m (s : S) u s1 :
  unless_raise c m s = (Ok u, s1) -> c = true /\ s1 = s.
Proof. destruct c; [|done]. intros H. by injection H as _ <-. Qed.

Lemma py_getitem_ok v key w :
  py_getitem v key = Ok w -> exists d, v = PDict d /\ d !! key = Some w.
Proof.
  destruct v as [| | | |d]; try done. simpl. unfold dict_getitem.
  destruct (d !! key) eqn:E; [|done]. intros [= ->]. by exists d.
Qed.

Lemma bound_from_config_ok b c training key p st s1 :
  bound_from_config b c training key st = (Ok p, s1) ->
  exists spacetime d,
    training = PDict d /\ d !! key = Some (PInts spacetime)
    /\ batch_from_spacetime b c spacetime = Ok p /\ s1 = st.
Proof.
  unfold bound_from_config. intros H.
  apply bind_ok_inv in H as (v & s & Hv & H). injection Hv as Hv <-.
  apply bind_ok_inv in H as (l & s & Hl & H). apply as_ints_ok in Hl as [-> ->].
  injection H as H <-. apply py_getitem_ok in Hv as (d & -> & Hd). by exists l, d.
Qed.

Section TrainingShape.
Variable _validate_shape :
  device -> list Z -> option (gmap string pyval) -> exn + list Z.


(** The search branch of [_determine_training_shape]. *)
Lemma _determine_training_shape_search devices given st lower_limit upper_limit :
  search_bounds st lower_limit upper_limit ->
  _determine_training_shape _validate_shape devices given st
  = (let* fits := lift (le lower_limit upper_limit) in
     let* _ :=
       unless_raise fits
         "training_shape_lower_bound incompatible with training_shape_upper_bound" in
     let* found :=
       find_one_shape _validate_shape lower_limit upper_limit devices false 0%Q in
     lift (drop_batch_optional found)) st.
Proof.
  intros (training & b & c & u & Htr & Hb & Hc & Hts & Hu & Hub & Hlb).
  unfold _determine_training_shape.
  rewrite (bind_ok _ _ st (PDict training) st) by (by apply config_getitem_run).
  rewrite (bind_ok _ _ st (PInt b) st)
    by (unfold lift; simpl; unfold dict_getitem; by rewrite Hb).
  rewrite (bind_ok _ _ st b st) by done.
  rewrite (bind_ok _ _ st (PInt c) st) by (by apply config_getitem_run).
  rewrite (bind_ok _ _ st c st) by done.
  rewrite (bind_ok _ _ st (bool_decide (is_Some (training !! TRAINING_SHAPE))) st) by done.
  rewrite bool_decide_false by (rewrite Hts; by intros [? ?]).
  rewrite bind_assoc.
  rewrite (bind_ok _ _ st (bool_decide (is_Some (training !! TRAINING_SHAPE_UPPER_BOUND))) st)
    by done.
  rewrite bool_decide_true by (by rewrite Hu).
  rewrite bind_assoc. rewrite (bind_ok _ _ st tt st) by done.
  rewrite bind_assoc. rewrite (bind_ok _ _ st upper_limit st).
  2: { unfold bound_from_config.
       rewrite (bind_ok _ _ st (PInts u) st)
         by (unfold lift; simpl; unfold dict_getitem; by rewrite Hu).
       rewrite (bind_ok _ _ st u st) by done. unfold lift. by rewrite Hub. }
  rewrite bind_assoc.
  rewrite (bind_ok _ _ st (bool_decide (is_Some (training !! TRAINING_SHAPE_LOWER_BOUND))) st)
    by done.
  rewrite bind_assoc. rewrite (bind_ok _ _ st lower_limit st).
  2: { destruct (training !! TRAINING_SHAPE_LOWER_BOUND) as [lower|] eqn:Hl.
       - destruct Hlb as (l & -> & Hlb). rewrite bool_decide_true by done.
         unfold bound_from_config.
         rewrite (bind_ok _ _ st (PInts l) st)
           by (unfold lift; simpl; unfold dict_getitem; by rewrite Hl).
         rewrite (bind_ok _ _ st l st) by done. unfold lift. by rewrite Hlb.
       - rewrite bool_decide_false by (by intros [? ?]). by subst. }
  etrans; [apply bind_assoc|]. apply bind_ext. intros fits s. apply bind_assoc.
Qed.







End TrainingShape.


#[local] Instance keeps_negotiated_preorder : PreOrder keeps_negotiated.
Proof.
  split.
  - intros st. by repeat split.
  - intros s1 s2 s3 (Hc1 & Ht1 & Hs1) (Hc2 & Ht2 & Hs2).
    split; [congruence|]. split; eauto.
Qed.

Lemma keeps_negotiated_same st st' :
  config st' = config st -> training_shape st' = training_shape st ->
  shrinkage st' = shrinkage st -> keeps_negotiated st st'.
Proof. intros Hc Ht Hs. split; [done|]. split; intros ?; congruence. Qed.

Lemma probes_keeps_negotiated st st' : probes st st' -> keeps_negotiated st st'.
Proof.
  intros (Hc & Ht & _ & _ & _ & _ & _ & Hs). split; [done|]. split; [|done].
  intros t. congruence.
Qed.

Lemma preserves_gets_bind {A B} (R : relation DryRunProcess)
    (f : DryRunProcess -> A) (k : A -> M DryRunProcess B) :
  (forall s r s', k (f s) s = (r, s') -> R s s') -> preserves R (bind (gets f) k).
Proof. intros Hk s r s' H. exact (Hk s r s' H). Qed.

#[local] Instance probes_preorder : PreOrder probes.
Proof. split; [exact probes_refl|exact probes_trans]. Qed.

Lemma bind_rel {A B} (R : relation DryRunProcess) `{!PreOrder R}
    (m : M DryRunProcess A) (k : A -> M DryRunProcess B) s r s' :
  bind m k s = (r, s') ->
  (forall r1 s1, m s = (r1, s1) -> R s s1) ->
  (forall a, preserves R (k a)) ->
  R s s'.
Proof.
  intros H Hm Hk.
  apply bind_inv in H as [(a & s1 & H1 & H)|[(e & H1 & ->)|[H1 ->]]]; [|by eauto..].
  etrans; [by eapply Hm|by eapply Hk].
Qed.

Section KeepsNegotiated.
Variable _minimal_device_test : device -> bool.
Variable _validate_shape :
  device -> list Z -> option (gmap string pyval) -> exn + list Z.

Lemma keeps_validate_shape devices shape train_mode :
  preserves keeps_negotiated (validate_shape _validate_shape devices shape train_mode).
Proof.
  intros s r s' H. apply probes_keeps_negotiated.
  by apply (validate_shape_probes _validate_shape) in H as [? _].
Qed.

Lemma keeps_find_one_shape lower_limit upper_limit devices train_mode discard :
  preserves keeps_negotiated
    (find_one_shape _validate_shape lower_limit upper_limit devices train_mode discard).
Proof.
  intros s r s' H. apply probes_keeps_negotiated.
  by apply find_one_shape_inv in H as [? _].
Qed.

Lemma keeps_log l m a : preserves keeps_negotiated (log l m a).
Proof. apply preserves_modify. intros s. by apply keeps_negotiated_same. Qed.

Lemma probes__determine_training_shape devices training_shape :
  preserves probes (_determine_training_shape _validate_shape devices training_shape).
Proof.
  unfold _determine_training_shape, bound_from_config, unless_raise.
  repeat first
    [ (intros s r s' H; by apply (validate_shape_probes _validate_shape) in H as [? _])
    | (intros s r s' H; by apply find_one_shape_inv in H as [? _])
    | (apply preserves_readonly; [apply _|apply readonly_lift, drop_batch_optional_no_OutOfFuel])
    | preserves_step ].
Qed.

Lemma keeps__determine_training_shape devices training_shape :
  preserves keeps_negotiated
    (_determine_training_shape _validate_shape devices training_shape).
Proof.
  intros s r s' H. by apply probes__determine_training_shape, probes_keeps_negotiated in H.
Qed.

Lemma keeps__determine_valid_shapes devices valid_shapes :
  preserves keeps_negotiated
    (_determine_valid_shapes _validate_shape devices valid_shapes).
Proof.
  unfold _determine_valid_shapes. destruct valid_shapes as [vs|].
  - apply preserves_bind; [apply _| |].
    + apply preserves_list_comprehension; [apply _|]. intros s.
      repeat first [apply keeps_validate_shape | preserves_step].
    + intros v. apply preserves_modify. intros s. by apply keeps_negotiated_same.
  - apply preserves_bind; [apply _|apply preserves_readonly; [apply _|apply readonly_gets]|].
    intros t. apply preserves_modify. intros s. by apply keeps_negotiated_same.
Qed.

Lemma keeps_minimal_device_test ds :
  preserves keeps_negotiated (minimal_device_test _minimal_device_test ds).
Proof.
  unfold minimal_device_test. apply preserves_bind; [apply _| |].
  - apply preserves_modify. intros s. by apply keeps_negotiated_same.
  - intros u. apply preserves_readonly; [apply _|apply readonly_ret].
Qed.

Ltac keeps_step :=
  first
    [ apply keeps_minimal_device_test
    | apply keeps__determine_training_shape
    | apply keeps__determine_valid_shapes
    | apply keeps_log
    | (apply preserves_readonly; [apply _|apply readonly_get])
    | (apply preserves_modify; intros ?; by apply keeps_negotiated_same)
    | preserves_step ].

Lemma keeps__dry_run_try devices given_training_shape valid_shapes given_shrinkage fut :
  preserves keeps_negotiated
    (_dry_run_try _minimal_device_test _validate_shape devices given_training_shape
       valid_shapes given_shrinkage fut).
Proof.
  unfold _dry_run_try.
  apply preserves_bind; [apply _|repeat keeps_step|]. intros _.
  apply preserves_gets_bind. intros s r s' H.
  apply (bind_rel keeps_negotiated) in H; [done| |].
  { intros r1 s1 H1. destruct (self_shrinkage s) as [recorded|] eqn:Hrec.
    - destruct given_shrinkage as [given|]; revert H1; [|by repeat keeps_step].
      generalize s r1 s1. change (preserves keeps_negotiated
        (let* differs := lift (ne given recorded) in
         if (differs : bool)
         then raise (ValueError "given shrinkage incompatible with self.shrinkage")
         else ret tt)). repeat keeps_step.
    - injection H1 as <- <-. split; [done|]. split; [done|].
      unfold self_shrinkage in Hrec. intros ? ?. congruence. }
  intros _.
  apply preserves_bind; [apply _|repeat keeps_step|]. intros working.
  apply preserves_bind; [apply _|repeat keeps_step|]. intros _.
  apply preserves_gets_bind. clear s r s' H. intros s r s' H.
  apply (bind_rel keeps_negotiated) in H; [done| |].
  { intros r1 s1 H1. destruct (self_training_shape s) as [recorded|] eqn:Hrec.
    - destruct given_training_shape as [given|]; revert H1; [|by repeat keeps_step].
      generalize s r1 s1. change (preserves keeps_negotiated
        (let* differs := lift (ne recorded given) in
         if (differs : bool)
         then raise (ValueError "given training_shape incompatible with self.training_shape")
         else ret tt)). repeat keeps_step.
    - apply bind_inv in H1 as [(found & s2 & H1 & H2)|[(e & H1 & ->)|[H1 ->]]].
      2,3: by apply keeps__determine_training_shape in H1.
      injection H2 as <- <-.
      pose proof H1 as Hk. apply keeps__determine_training_shape in Hk.
      etrans; [exact Hk|]. split; [done|]. split; [|done].
      intros t Ht. exfalso.
      apply probes__determine_training_shape in H1 as (_ & Hsame & _).
      unfold self_training_shape in Hrec. congruence. }
  intros _. repeat keeps_step.
Qed.

Lemma keeps__dry_run devices training_shape valid_shapes shrinkage fut :
  preserves keeps_negotiated
    (_dry_run _minimal_device_test _validate_shape devices training_shape
       valid_shapes shrinkage fut).
Proof.
  unfold _dry_run. apply preserves_bind; [apply _|apply keeps_log|]. intros u.
  apply preserves_try_except; [apply _|apply keeps__dry_run_try|]. intros e.
  repeat keeps_step.
Qed.

Lemma keeps_worker_round :
  preserves keeps_negotiated (worker_round _minimal_device_test _validate_shape).
Proof.
  unfold worker_round.
  repeat first [apply keeps__dry_run | keeps_step].
Qed.

Lemma keeps__dry_run_worker fuel :
  preserves keeps_negotiated (_dry_run_worker _minimal_device_test _validate_shape fuel).
Proof.
  induction fuel as [|fuel IH]; simpl.
  - apply preserves_bind; [apply _|repeat keeps_step|]. intros [|]; [repeat keeps_step|].
    intros s r s' [= <- <-]. reflexivity.
  - apply preserves_bind; [apply _|repeat keeps_step|]. intros [|]; [repeat keeps_step|].
    apply preserves_bind; [apply _|apply keeps_worker_round|]. intros _. apply IH.
Qed.

(** The [try] block of a dry run that succeeds, step by step. *)
Lemma _dry_run_try_ok devices given_training_shape given_valid_shapes given_shrinkage
    fut st u st' :
  _dry_run_try _minimal_device_test _validate_shape devices given_training_shape
    given_valid_shapes given_shrinkage fut st = (Ok u, st') ->
  exists s3 s4 s5,
    training_shape s3 = training_shape st
    /\ match training_shape st, given_training_shape with
       | None, _ =>
           exists found s3',
             _determine_training_shape _validate_shape devices given_training_shape s3
             = (Ok found, s3')
             /\ s4 = set_training_shape (Some found) s3'
       | Some recorded, Some given => given = recorded /\ s4 = s3
       | Some _, None => s4 = s3
       end
    /\ _determine_valid_shapes _validate_shape devices given_valid_shapes s4 = (Ok tt, s5)
    /\ st' = add_log (LogRecord INFO "dry run done" [])
               (set_future fut
                  (FutResult (DryRunRecord devices (training_shape s5) (valid_shapes s5)
                                (shrinkage s5))) s5).
Proof.
  unfold _dry_run_try. intros H.
  apply bind_inv in H as [([] & s0 & H0 & H)|[(e & _ & ?)|[_ ?]]]; [|done..].
  assert (s0 = st) as -> by (case_bool_decide; by injection H0). clear H0.
  rewrite (bind_ok _ _ st (self_shrinkage st) st) in H by done.
  apply bind_inv in H as [([] & s1 & H1 & H)|[(e & _ & ?)|[_ ?]]]; [|done..].
  assert (Ht1 : training_shape s1 = training_shape st).
  { destruct (self_shrinkage st) as [recorded|].
    - destruct given_shrinkage as [given|]; [|by injection H1 as <-].
      apply bind_inv_readonly in H1 as [(d & _ & H1)|(e & _ & ? & _)];
        [| done | apply readonly_lift, ne_no_OutOfFuel].
      destruct d; [done|]. by injection H1 as <-.
    - by injection H1 as <-. }
  clear H1.
  apply bind_inv in H as [(working & s2 & H2 & H)|[(e & _ & ?)|[_ ?]]]; [|done..].
  assert (Ht2 : training_shape s2 = training_shape s1) by (by injection H2 as _ <-).
  clear H2.
  apply bind_inv in H as [([] & s3 & H3 & H)|[(e & _ & ?)|[_ ?]]]; [|done..].
  assert (Ht3 : training_shape s3 = training_shape s2).
  { case_bool_decide; by injection H3 as <-. }
  clear H3.
  rewrite (bind_ok _ _ s3 (self_training_shape s3) s3) in H by done.
  apply bind_inv in H as [([] & s4 & H4 & H)|[(e & _ & ?)|[_ ?]]]; [|done..].
  apply bind_inv in H as [([] & s5 & H5 & H)|[(e & _ & ?)|[_ ?]]]; [|done..].
  rewrite (bind_ok _ _ s5 s5 s5) in H by done.
  injection H as <-.
  exists s3, s4, s5. split; [congruence|]. split; [|done].
  unfold self_training_shape in H4. rewrite <- Ht1, <- Ht2, <- Ht3.
  destruct (training_shape s3) as [recorded|].
  - destruct given_training_shape as [given|]; [|by injection H4 as <-].
    apply bind_inv_readonly in H4 as [(d & Hd & H4)|(e & _ & ? & _)];
      [| done | apply readonly_lift, ne_no_OutOfFuel].
    destruct d; [done|]. injection H4 as <-. split; [|done].
    injection Hd as Hd. unfold ne in Hd.
    destruct (Points.eq recorded given) as [[|]| |] eqn:Heq; try done.
    symmetry. by apply eq_true_iff.
  - apply bind_inv in H4 as [(found & s3' & Hf & H4)|[(e & _ & ?)|[_ ?]]]; [|done..].
    injection H4 as <-. by exists found, s3'.
Qed.

End KeepsNegotiated.

Lemma list_comprehension_ok {S A B} (f : A -> M S B) (l : list A) :
  forall s vs s',
  list_comprehension f l s = (Ok vs, s') ->
  Forall2 (fun a v => exists s1 s2, f a s1 = (Ok v, s2)) l vs.
Proof.
  induction l as [|a l IH]; intros s vs s' H; simpl in H.
  - injection H as <- <-. constructor.
  - apply bind_inv in H as [(v & s1 & Hv & H)|[(e & _ & ?)|[_ ?]]]; [|done..].
    apply bind_inv in H as [(vs' & s2 & Hvs & H)|[(e & _ & ?)|[_ ?]]]; [|done..].
    injection H as <- <-. constructor; [by eauto|by eapply IH].
Qed.

Section DryRunResults.
Variable _minimal_device_test : device -> bool.
Variable _validate_shape :
  device -> list Z -> option (gmap string pyval) -> exn + list Z.


(** A dry run whose future holds a result went through its [try] block
    without an exception. *)
Lemma _dry_run_result devices given_training_shape given_valid_shapes given_shrinkage
    fut st r st' record :
  _dry_run _minimal_device_test _validate_shape
        devices given_training_shape given_valid_shapes given_shrinkage fut st = (r, st') ->
  futures st' !! fut = Some (FutResult record) ->
  _dry_run_try _minimal_device_test _validate_shape
        devices given_training_shape given_valid_shapes given_shrinkage fut
    (started devices st) = (Ok tt, st').
Proof.
  unfold _dry_run. intros H Hfut.
  unfold bind at 1, log at 1, modify at 1 in H. fold (started devices st) in H.
  unfold try_except in H.
  destruct (_dry_run_try _minimal_device_test _validate_shape
        devices given_training_shape given_valid_shapes given_shrinkage fut
              (started devices st)) as [[[]|e|] s1] eqn:Htry.
  - by injection H as <- <-.
  - injection H as <- <-. simpl in Hfut. by rewrite lookup_insert_eq in Hfut.
  - by apply _dry_run_try_inv in Htry as (_ & _ & _ & ?).
Qed.

End DryRunResults.


Section DryRunExtras.
Variable _minimal_device_test : device -> bool.
Variable _validate_shape :
  device -> list Z -> option (gmap string pyval) -> exn + list Z.


(** X14.  No dry run changes the configuration, however it ends, and
    neither does the worker, however many jobs it serves. *)
Theorem dry_runs_leave_the_configuration devices given_training_shape
    given_valid_shapes given_shrinkage fut fuel st :
  config (snd (_dry_run _minimal_device_test _validate_shape
        devices given_training_shape given_valid_shapes given_shrinkage fut st))
  = config st
  /\ config (snd (_dry_run_worker _minimal_device_test _validate_shape fuel st)) = config st.
Proof.
  split.
  - destruct (_dry_run _minimal_device_test _validate_shape _ _ _ _ _ st) as [r st'] eqn:H.
    by apply keeps__dry_run in H as [? _].
  - destruct (_dry_run_worker _minimal_device_test _validate_shape fuel st) as [r st'] eqn:H.
    by apply keeps__dry_run_worker in H as [? _].
Qed.

(** X15.  A training shape, once negotiated, is final: no later dry run
    replaces it, whatever its arguments, and it is still there after any
    number of rounds of the worker. *)
Theorem training_shape_is_final st t :
  training_shape st = Some t ->
  (forall devices given_training_shape given_valid_shapes given_shrinkage fut,
     training_shape
       (snd (_dry_run _minimal_device_test _validate_shape
             devices given_training_shape given_valid_shapes given_shrinkage fut st))
     = Some t)
  /\ forall fuel, training_shape (snd (_dry_run_worker _minimal_device_test _validate_shape
        fuel st)) = Some t.
Proof.
  intros Ht. split.
  - intros devices ts vs shr fut. destruct (_dry_run _minimal_device_test _validate_shape
        _ _ _ _ _ st) as [r st'] eqn:H.
    apply keeps__dry_run in H as (_ & H & _). by apply H.
  - intros fuel. destruct (_dry_run_worker _minimal_device_test _validate_shape
        fuel st) as [r st'] eqn:H.
    apply keeps__dry_run_worker in H as (_ & H & _). by apply H.
Qed.

(** X16.  A dry run that is given a training shape different from the
    negotiated one fails: its future is resolved with an exception. *)
Theorem dry_run_rejects_another_training_shape devices given valid_shapes
    given_shrinkage fut st recorded :
  training_shape st = Some recorded ->
  given <> recorded ->
  exists e st',
    _dry_run _minimal_device_test _validate_shape
          devices (Some given) valid_shapes given_shrinkage fut st = (Ok tt, st')
    /\ futures st' !! fut = Some (FutException e).
Proof.
  intros Hrec Hne.
  destruct (_dry_run_resolves _minimal_device_test _validate_shape devices (Some given)
              valid_shapes given_shrinkage fut st)
    as (st' & outcome & Hrun & Hfut & _ & _ & _ & _).
  destruct outcome as [record|e].
  - exfalso. assert (Hl : futures st' !! fut = Some (FutResult record)).
    { by rewrite Hfut, lookup_insert_eq. }
    pose proof (_dry_run_result _ _ _ _ _ _ _ _ _ _ _ Hrun Hl) as Htry.
    apply _dry_run_try_ok in Htry as (s3 & s4 & s5 & _ & Hm & _).
    simpl in Hm. rewrite Hrec in Hm. by destruct Hm.
  - exists e, st'. split; [done|]. by rewrite Hfut, lookup_insert_eq.
Qed.

(** X17.  A dry run without [valid_shapes] that succeeds reports the
    training shape as the one valid shape. *)
Theorem dry_run_default_valid_shapes devices given_training_shape given_shrinkage
    fut st r st' record :
  _dry_run _minimal_device_test _validate_shape
        devices given_training_shape None given_shrinkage fut st = (r, st') ->
  futures st' !! fut = Some (FutResult record) ->
  exists t,
    res_training_shape record = Some t
    /\ res_valid_shapes record = Some [OPoint t]
    /\ training_shape st' = Some t
    /\ valid_shapes st' = Some [OPoint t].
Proof.
  intros Hrun Hfut.
  pose proof (_dry_run_result _ _ _ _ _ _ _ _ _ _ _ Hrun Hfut) as Htry.
  apply _dry_run_try_ok in Htry as (s3 & s4 & s5 & Ht3 & Hm & Hvs & ->).
  simpl in Hfut. rewrite lookup_insert_eq in Hfut. injection Hfut as <-. simpl.
  injection Hvs as <-. simpl.
  assert (Ht4 : exists t, training_shape s4 = Some t).
  { simpl in Ht3, Hm. destruct (training_shape st) as [recorded|].
    - exists recorded. destruct given_training_shape as [given|].
      + destruct Hm as [_ ->]. done.
      + by subst s4.
    - destruct Hm as (found & s3' & _ & ->). by exists found. }
  destruct Ht4 as [t Ht4]. exists t. by rewrite Ht4.
Qed.


(** X19.  The worker resolves the futures of the jobs it takes from the
    queue and no other: a future that belongs to none of the first
    [fuel] jobs is, after [fuel] rounds, what it was. *)
Theorem worker_resolves_only_its_jobs fuel :
  forall st fut,
  fut ∉ job_fut <$> take fuel (dry_run_queue st) ->
  futures (snd (_dry_run_worker _minimal_device_test _validate_shape
        fuel st)) !! fut = futures st !! fut.
Proof.
  induction fuel as [|fuel IH]; intros st fut Hfut; simpl.
  - unfold bind, gets. by destruct (shutdown_event st).
  - unfold bind at 1, gets at 1. destruct (shutdown_event st); [done|].
    unfold bind at 1, worker_round, bind at 1, gets at 1.
    destruct (dry_run_queue st) as [|args q] eqn:Hq.
    + simpl. rewrite IH; [done|]. rewrite Hq. by rewrite take_nil.
    + unfold bind at 1, modify at 1.
      destruct (_dry_run_resolves _minimal_device_test _validate_shape
                  (job_devices args) (job_training_shape args) (job_valid_shapes args)
                  (job_shrinkage args) (job_fut args) (set_dry_run_queue (drop 1) st))
        as (st1 & outcome & -> & Hfut1 & Hq1 & _).
      simpl in Hfut. apply not_elem_of_cons in Hfut as [Hne Hfut].
      rewrite IH.
      * rewrite Hfut1. simpl. by rewrite lookup_insert_ne.
      * rewrite Hq1. simpl. by rewrite Hq.
Qed.

(** X20.  After [shutdown] the worker leaves its loop without taking
    another job: the jobs still on the queue stay there and their
    futures stay as they are. *)
Theorem shutdown_stops_the_worker st fuel :
  let st1 := snd (shutdown st) in
  fst (shutdown st) = Ok tt
  /\ _dry_run_worker _minimal_device_test _validate_shape fuel st1 = (Ok tt, st1)
  /\ dry_run_queue st1 = dry_run_queue st
  /\ futures st1 = futures st.
Proof.
  simpl. split; [done|]. split; [|done].
  by apply _dry_run_worker_stopped.
Qed.

(** X21.  A call of [dry_run] is answered: it returns the next unused
    future and resolves nothing itself, and a worker that is not shut
    down has resolved that future, with a result or with an exception,
    once it has served the jobs queued before it. *)
Theorem dry_run_is_answered devices given_training_shape given_valid_shapes
    given_shrinkage st :
  shutdown_event st = false ->
  exists st1,
    dry_run devices given_training_shape given_valid_shapes given_shrinkage st
    = (Ok (next_future st), st1)
    /\ next_future st1 = S (next_future st)
    /\ futures st1 = futures st
    /\ let st2 := snd (_dry_run_worker _minimal_device_test _validate_shape
          (S (length (dry_run_queue st))) st1) in
       is_Some (futures st2 !! next_future st) /\ dry_run_queue st2 = [].
Proof.
  intros Hrun. eexists. split; [reflexivity|]. split; [done|]. split; [done|].
  set (st1 := set_dry_run_queue _ (new_future st)).
  destruct (_dry_run_worker_inv _minimal_device_test _validate_shape
              (S (length (dry_run_queue st))) st1 Hrun)
    as (st2 & -> & _ & Hq & _ & Hres).
  simpl. split.
  - apply (Hres (Job devices given_training_shape given_valid_shapes given_shrinkage
                   (next_future st))).
    change (dry_run_queue st1) with
      (dry_run_queue st ++ [Job devices given_training_shape given_valid_shapes
                              given_shrinkage (next_future st)]).
    rewrite take_ge by (rewrite length_app; simpl; lia). set_solver.
  - rewrite Hq. apply drop_ge. subst st1. simpl. rewrite length_app. simpl. lia.
Qed.

End DryRunExtras.

Lemma stateless_pure {S A} (r : result A) : stateless (fun s : S => (r, s)).
Proof. by intros s r' s' [= _ <-]. Qed.

Lemma stateless_bind {S A B} (m : M S A) (k : A -> M S B) :
  stateless m -> (forall a, stateless (k a)) -> stateless (bind m k).
Proof.
  intros Hm Hk s r s' H.
  apply bind_inv in H as [(a & s1 & H1 & H)|[(e & H1 & _)|[H1 _]]].
  - apply Hm in H1 as ->. by apply Hk in H.
  - by apply Hm in H1.
  - by apply Hm in H1.
Qed.

Module AdapterFacts.
Import Adapters.

Lemma list_ascii_of_string_tail s :
  list_ascii_of_string (str_tail s) = drop 1 (list_ascii_of_string s).
Proof. by destruct s. Qed.

Lemma zip_zeros (l : list ascii) : zip l ((fun _ => 0) <$> l) = (fun c => (c, 0)) <$> l.
Proof. induction l as [|a l IH]; simpl; [done|]. f_equal. exact IH. Qed.

Section ReadSpec.
Variable has_batch_dim : string -> result bool.

(** What [read_spec] gives for a description with one input and one
    output. *)
Lemma read_spec_single spec check_framework effects input output in_batch out_batch :
  inputs spec = [input] -> outputs spec = [output] ->
  (check_framework = true -> framework spec = "tensorflow") ->
  has_batch_dim (axes input) = Ok in_batch ->
  has_batch_dim (axes output) = Ok out_batch ->
  exists parts, read_spec has_batch_dim spec check_framework effects = (Ok parts, effects).
Proof.
  intros Hin Hout Hfw Hbi Hbo. unfold read_spec. rewrite Hin, Hout. simpl.
  unfold bind at 1. simpl. unfold bind at 1. simpl. unfold bind at 1. simpl.
  unfold bind at 1.
  assert (Hchk : (if check_framework
                  then py_assert (bool_decide (framework spec = "tensorflow")) ""
                  else ret tt) effects = (Ok tt, effects)).
  { destruct check_framework; [|done]. by rewrite bool_decide_true by auto. }
  rewrite Hchk. unfold bind at 1. simpl. unfold bind at 1. simpl.
  unfold bind at 1, lift at 1. rewrite Hbi.
  destruct in_batch; unfold bind at 1, lift at 1; rewrite Hbo;
    destruct out_batch; by eexists.
Qed.

Lemma read_spec_effects spec check_framework :
  stateless (read_spec has_batch_dim spec check_framework).
Proof.
  unfold read_spec, py_assert.
  repeat first
    [ apply stateless_bind; [|intros ?]
    | apply stateless_pure
    | match goal with
      | |- stateless (if ?b then _ else _) => destruct b
      | |- stateless (let '(_, _) := ?x in _) => destruct x
      end ].
Qed.

(** The halo that [read_spec] gives when the output has none. *)
Lemma read_spec_halo spec check_framework effects effects' output
    internal_in internal_out in_axes in_transform in_shape out_axes out_transform
    out_halo :
  read_spec has_batch_dim spec check_framework effects
  = (Ok (internal_in, internal_out, in_axes, in_transform, in_shape,
         out_axes, out_transform, out_halo), effects') ->
  outputs spec = [output] ->
  halo output = None \/ halo output = Some [] ->
  out_halo = (fun c => (c, 0)) <$> list_ascii_of_string out_axes.
Proof.
  unfold read_spec. intros H Hout Hhalo. rewrite Hout in H.
  apply bind_ok_inv in H as ([] & s & _ & H).
  apply bind_ok_inv in H as ([] & s0 & _ & H).
  apply bind_ok_inv in H as ([] & s1 & _ & H).
  apply bind_ok_inv in H as ([] & s2 & _ & H).
  apply bind_ok_inv in H as (input & s3 & _ & H).
  apply bind_ok_inv in H as (output' & s4 & Ho & H). injection Ho as <- <-.
  apply bind_ok_inv in H as (in_batch & s4 & _ & H).
  assert (Hzeros : halo_or_zeros (halo output) (axes output)
                   = (fun _ => 0) <$> list_ascii_of_string (axes output)).
  { by destruct Hhalo as [-> | ->]. }
  rewrite Hzeros in H.
  destruct in_batch.
  all: apply bind_ok_inv in H as (out_batch & s5 & _ & H).
  all: destruct out_batch; injection H as <- <- <- <- <- <- <- <- <-.
  all: rewrite ?list_ascii_of_string_tail, <- ?fmap_drop; apply zip_zeros.
Qed.

End ReadSpec.
End AdapterFacts.

Section AdapterTheorems.
Import Adapters AdapterFacts.
Variable has_batch_dim : string -> result bool.

(** X22.  Each adapter serves one framework, and checks it at a
    different moment.  [Exemplum] raises [NotImplementedError] for a
    model that is not a [pytorch] model, after it has instantiated the
    model, though before any device placement;
    [TensorflowModelAdapter] asserts the framework before it does
    anything. *)
Theorem adapters_check_the_framework spec devs effects input output in_batch out_batch :
  inputs spec = [input] -> outputs spec = [output] ->
  has_batch_dim (axes input) = Ok in_batch ->
  has_batch_dim (axes output) = Ok out_batch ->
  (framework spec <> "pytorch" ->
   Exemplum.__init__ has_batch_dim spec devs effects
   = (Raise (NotImplementedError ""), GetInstance "pybio_model" :: effects))
  /\ (framework spec <> "tensorflow" ->
      TensorflowModelAdapter.__init__ has_batch_dim spec devs effects
      = (Raise (AssertionError ""), effects)).
Proof.
  intros Hin Hout Hbi Hbo. split; intros Hfw.
  - destruct (read_spec_single has_batch_dim spec false effects input output
                in_batch out_batch Hin Hout) as [parts Hread]; [done..|].
    unfold Exemplum.__init__. rewrite (bind_ok _ _ _ _ _ Hread).
    destruct parts as [[[[[[[? ?] ?] ?] ?] ?] ?] ?].
    unfold bind at 1, do at 1, modify at 1.
    by rewrite bool_decide_false by done.
  - unfold TensorflowModelAdapter.__init__, read_spec.
    rewrite Hin, Hout. simpl. unfold bind, py_assert. simpl.
    by rewrite bool_decide_false by done.
Qed.


(** X24.  Without any device, [Exemplum] raises [IndexError] for a
    [pytorch] model, once the model is instantiated. *)
Theorem exemplum_needs_a_device spec effects input output in_batch out_batch :
  inputs spec = [input] -> outputs spec = [output] ->
  has_batch_dim (axes input) = Ok in_batch ->
  has_batch_dim (axes output) = Ok out_batch ->
  framework spec = "pytorch" ->
  Exemplum.__init__ has_batch_dim spec [] effects
  = (Raise (IndexError "list index out of range"),
     GetInstance "pybio_model" :: effects).
Proof.
  intros Hin Hout Hbi Hbo Hfw.
  destruct (read_spec_single has_batch_dim spec false effects input output
              in_batch out_batch Hin Hout) as [parts Hread]; [done..|].
  unfold Exemplum.__init__. rewrite (bind_ok _ _ _ _ _ Hread).
  destruct parts as [[[[[[[? ?] ?] ?] ?] ?] ?] ?].
  unfold bind at 1, do at 1, modify at 1.
  by rewrite bool_decide_true by done.
Qed.

(** X25.  An adapter built for an output without halo has a halo of 0 on
    every output axis, the batch axis left out. *)
Theorem adapters_default_halo spec devs effects output :
  outputs spec = [output] ->
  halo output = None \/ halo output = Some [] ->
  (forall a effects',
     Exemplum.__init__ has_batch_dim spec devs effects = (Ok a, effects') ->
     adapter_halo a = (fun c => (c, 0)) <$> list_ascii_of_string (output_axes a))
  /\ (forall a effects',
        TensorflowModelAdapter.__init__ has_batch_dim spec devs effects
        = (Ok a, effects') ->
        adapter_halo a = (fun c => (c, 0)) <$> list_ascii_of_string (output_axes a)).
Proof.
  intros Hout Hhalo. split; intros a effects' H.
  - unfold Exemplum.__init__ in H.
    apply bind_ok_inv in H as (parts & s & Hread & H).
    destruct parts as [[[[[[[ii io] ia] it] ish] oa] ot] oh].
    pose proof (read_spec_halo _ _ _ _ _ _ _ _ _ _ _ _ _ _ Hread Hout Hhalo) as ->.
    apply bind_ok_inv in H as ([] & s0 & _ & H).
    apply bind_ok_inv in H as ([] & s1 & _ & H).
    apply bind_ok_inv in H as ([] & s2 & _ & H).
    apply bind_ok_inv in H as ([] & s3 & _ & H).
    by injection H as <- <-.
  - unfold TensorflowModelAdapter.__init__ in H.
    apply bind_ok_inv in H as (parts & s & Hread & H).
    destruct parts as [[[[[[[ii io] ia] it] ish] oa] ot] oh].
    pose proof (read_spec_halo _ _ _ _ _ _ _ _ _ _ _ _ _ _ Hread Hout Hhalo) as ->.
    apply bind_ok_inv in H as ([] & s0 & _ & H).
    apply bind_ok_inv in H as (source & s1 & _ & H).
    apply bind_ok_inv in H as ([] & s2 & _ & H).
    apply bind_ok_inv in H as ([] & s3 & _ & H).
    by injection H as <- <-.
Qed.

End AdapterTheorems.


Section TransformTheorems.
Import Transforms.

End TransformTheorems.

Section ReaderTheorems.
Import Reader.

Lemma guess_model_path_spec (file_names : list string) :
  match guess_model_path file_names with
  | Some file_name =>
      exists before after,
        file_names = before ++ file_name :: after
        /\ endswith_any file_name MODEL_EXTENSIONS = true
        /\ Forall (fun other => endswith_any other MODEL_EXTENSIONS = false) before
  | None => Forall (fun other => endswith_any other MODEL_EXTENSIONS = false) file_names
  end.
Proof.
  induction file_names as [|f l IH]; cbn [guess_model_path]; [constructor|].
  destruct (endswith_any f MODEL_EXTENSIONS) eqn:Hf.
  - exists [], l. by repeat split.
  - destruct (guess_model_path l) as [g|].
    + destruct IH as (before & after & -> & Hg & Hbefore).
      exists (f :: before), after. split; [done|]. split; [done|]. by constructor.
    + by constructor.
Qed.

Lemma endswith_spec (s suffix : string) :
  endswith s suffix = true <-> exists stem, s = stem +:+ suffix.
Proof.
  unfold endswith. rewrite bool_decide_eq_true. split.
  - intros [k Hk]. exists (string_of_list_ascii k).
    rewrite <- (string_of_list_ascii_of_string s), Hk.
    clear. induction k as [|a k IH]; simpl.
    + by rewrite string_of_list_ascii_of_string.
    + by rewrite IH.
  - intros [stem ->]. exists (list_ascii_of_string stem).
    induction stem as [|a stem IH]; simpl; [done|]. by rewrite IH.
Qed.

(** X27.  [guess_model_path] returns the first of the names that ends in
    [.model.yaml] or [.model.yml], and [None] exactly when no name
    does. *)
Theorem guess_model_path_finds_the_first (file_names : list string) :
  (forall file_name,
     guess_model_path file_names = Some file_name <->
     exists before after stem,
       file_names = before ++ file_name :: after
       /\ (file_name = stem +:+ ".model.yaml" \/ file_name = stem +:+ ".model.yml")
       /\ forall other, other ∈ before ->
            forall stem', other <> stem' +:+ ".model.yaml"
                          /\ other <> stem' +:+ ".model.yml")
  /\ (guess_model_path file_names = None <->
      forall other, other ∈ file_names ->
        forall stem', other <> stem' +:+ ".model.yaml" /\ other <> stem' +:+ ".model.yml").
Proof.
  assert (Hyes : forall f, endswith_any f MODEL_EXTENSIONS = true <->
            exists stem, f = stem +:+ ".model.yaml" \/ f = stem +:+ ".model.yml").
  { intros f. unfold endswith_any, MODEL_EXTENSIONS. simpl.
    rewrite orb_false_r, orb_true_iff, !endswith_spec.
    split; [intros [[stem H]|[stem H]]|intros [stem [H|H]]]; eauto. }
  assert (Hno : forall f, endswith_any f MODEL_EXTENSIONS = false <->
            forall stem, f <> stem +:+ ".model.yaml" /\ f <> stem +:+ ".model.yml").
  { intros f. rewrite <- not_true_iff_false, Hyes. split.
    - intros Hf stem. split; intros H; apply Hf; eauto.
    - intros Hf [stem [H|H]]; by destruct (Hf stem). }
  pose proof (guess_model_path_spec file_names) as Hspec.
  split.
  - intros file_name. split.
    + intros Hg. rewrite Hg in Hspec.
      destruct Hspec as (before & after & -> & Hf & Hbefore).
      apply Hyes in Hf as [stem Hf]. exists before, after, stem.
      split; [done|]. split; [done|]. intros other Hin.
      apply Hno. by eapply Forall_forall in Hbefore.
    + intros (before & after & stem & -> & Hf & Hbefore).
      clear Hspec. induction before as [|b before IH]; cbn [guess_model_path app].
      * rewrite (proj2 (Hyes file_name)); [done|]. by exists stem.
      * rewrite (proj2 (Hno b)) by (apply Hbefore; left).
        apply IH. intros other Hin. apply Hbefore. by right.
  - split.
    + intros Hg. rewrite Hg in Hspec. intros other Hin. apply Hno.
      by eapply Forall_forall in Hspec.
    + intros Hall. clear Hspec.
      induction file_names as [|f l IH]; cbn [guess_model_path]; [done|].
      rewrite (proj2 (Hno f)) by (apply Hall; left).
      apply IH. intros other Hin. apply Hall. by right.
Qed.

Ltac no_rmtree :=
  let Hin := fresh "Hin" in
  intros Hin;
  repeat (apply elem_of_cons in Hin as [Hin|Hin]; [discriminate|]);
  by apply elem_of_nil in Hin.

Section EvalModelZip.
Context {pybio_model model_adapter : Type}.
Variable temp_path : string.
Variable extracted : list string.
Variable load_model : string -> string -> string -> exn + pybio_model.
Variable training_is_None : pybio_model -> bool.
Variable create_model_adapter : pybio_model -> list device -> exn + model_adapter.
Variable train : pybio_model -> list device -> exn + model_adapter.


(** X28.  An archive without a model description at its root makes
    [eval_model_zip] raise its own [Exception] before anything is
    loaded; the temporary directory it extracted the archive into is
    left behind. *)
Theorem eval_model_zip_needs_a_model_file devices cache_path :
  (forall name, name ∈ extracted ->
     forall stem, name <> stem +:+ ".model.yaml" /\ name <> stem +:+ ".model.yml") ->
  eval_model_zip temp_path extracted load_model training_is_None
    create_model_adapter train devices cache_path
  = (inl (Exception
            "Model config file not found, make sure that .model.yaml file in the root of your model archive"),
     [Mkdtemp temp_path; ExtractAll temp_path]).
Proof.
  intros Hnone. unfold eval_model_zip.
  assert (Hg : guess_model_path extracted = None).
  { clear -Hnone. induction extracted as [|f l IH]; cbn [guess_model_path]; [done|].
    destruct (endswith_any f MODEL_EXTENSIONS) eqn:Hf.
    - exfalso. unfold endswith_any, MODEL_EXTENSIONS in Hf. simpl in Hf.
      rewrite orb_false_r, orb_true_iff, !endswith_spec in Hf.
      destruct Hf as [[stem Hf]|[stem Hf]];
        destruct (Hnone f (list_elem_of_here _ _) stem); done.
    - apply IH. intros name Hin. apply Hnone. by right. }
  by rewrite Hg.
Qed.

(** X29.  [eval_model_zip] removes its temporary directory only when it
    returns a trained model: not when it returns an adapter for a
    model without training, and not when anything raises. *)
Theorem eval_model_zip_cleans_up_after_training_only devices cache_path :
  Rmtree temp_path ∈ snd (eval_model_zip temp_path extracted load_model training_is_None
    create_model_adapter train devices cache_path) <->
  exists spec_file model trained,
    guess_model_path extracted = Some spec_file
    /\ load_model spec_file temp_path (default (temp_path +:+ "/cache") cache_path)
       = inr model
    /\ training_is_None model = false
    /\ train model devices = inr trained
    /\ fst (eval_model_zip temp_path extracted load_model training_is_None
    create_model_adapter train devices cache_path) = inr trained.
Proof.
  unfold eval_model_zip.
  destruct (guess_model_path extracted) as [[|a spec_file]|] eqn:Hg; simpl.
  1,3: split; [no_rmtree|by intros (? & ? & ? & ? & ? & ? & ? & ?)].
  destruct (load_model _ _ _) as [e|model] eqn:Hload; simpl.
  { split; [no_rmtree|]. intros (? & ? & ? & [= <-] & ? & _). congruence. }
  destruct (training_is_None model) eqn:Htr; simpl.
  { split.
    - destruct (create_model_adapter model devices); simpl; no_rmtree.
    - intros (? & ? & ? & [= <-] & ? & ? & _). congruence. }
  destruct (train model devices) as [e|trained] eqn:Htrain; simpl.
  { split; [no_rmtree|].
    intros (? & ? & ? & [= <-] & ? & ? & ? & _). congruence. }
  split.
  - intros _. by exists (String a spec_file), model, trained.
  - intros _. do 4 right. left.
Qed.

End EvalModelZip.
End ReaderTheorems.

(** ** [__init__] *)
Import MoreExamples.

Section Init.
Context {criterion_class : Type}.
Variables torch_nn criteria : string -> option criterion_class.

End Init.


(** ** The further properties on the example inputs *)

Lemma update_config_missing_key_witness :
  exists cfg1,
    update_config [(INPUT_CHANNELS, PInt 3)] (fresh pinned)
    = (Ok tt, set_config (fun _ => cfg1) (fresh pinned))
    /\ update_config
         ([(INPUT_CHANNELS, PInt 3)]
          ++ ("optimizer_config", PDict {[ "lr" := PInt 1 ]}) :: [(OUTPUT_AXIS_ORDER, PNone)])
         (fresh pinned)
       = (Raise (KeyError "optimizer_config"), set_config (fun _ => cfg1) (fresh pinned)).
Proof.
  apply (update_config_missing_key [(INPUT_CHANNELS, PInt 3)] [(OUTPUT_AXIS_ORDER, PNone)]
           "optimizer_config" {[ "lr" := PInt 1 ]} (fresh pinned)).
  - apply (bool_decide_unpack _). by vm_compute.
  - intros k s Hin. apply list_elem_of_singleton in Hin. discriminate Hin.
  - by vm_compute.
  - apply map_non_empty_singleton.
Defined.

Lemma update_config_idempotent_witness :
  exists self',
    update_config partial_config (fresh pinned) = (Ok tt, self')
    /\ update_config partial_config self' = (Ok tt, self').
Proof.
  apply (update_config_idempotent partial_config (fresh pinned)).
  - apply (bool_decide_unpack _). by vm_compute.
  - intros key sub Hin. unfold partial_config in Hin.
    apply elem_of_cons in Hin as [[= -> _]|Hin]; [by exists pinned|].
    apply elem_of_cons in Hin as [[=]|Hin].
    apply elem_of_cons in Hin as [[=]|Hin].
    by apply elem_of_nil in Hin.
Defined.

Lemma find_one_shape_above_lower_limit_witness :
  order upper = order lower
  /\ exists j, (j < length (array lower))%nat /\ array lower !!! j < array upper !!! j.
Proof.
  apply (find_one_shape_above_lower_limit same_shape lower upper ["cpu"] false 0%Q
           (fresh searched) upper
           (snd (find_one_shape same_shape lower upper ["cpu"] false 0%Q (fresh searched)))).
  by vm_compute.
Defined.

Lemma find_one_shape_asserts_witness :
  exists msg,
    find_one_shape same_shape upper lower ["cpu"] false 0%Q (fresh searched)
    = (Raise (AssertionError msg), fresh searched).
Proof.
  apply (find_one_shape_asserts same_shape upper lower ["cpu"] false 0%Q (fresh searched)).
  right. left. apply (bool_decide_unpack _). by vm_compute.
Defined.

Lemma find_one_shape_prefers_upper_limit_witness :
  fst (find_one_shape same_shape lower upper ["cpu"] false 0%Q (fresh searched))
  = Ok (Some upper).
Proof.
  apply (find_one_shape_prefers_upper_limit same_shape lower upper ["cpu"] false 0%Q
           (fresh searched)).
  - reflexivity.
  - apply (bool_decide_unpack _). by vm_compute.
  - reflexivity.
  - discriminate.
  - intros [cfg ts vs sh q ev lg sp fu nf] Hf. unfold frame in Hf. simpl in Hf.
    injection Hf as -> -> -> -> -> -> -> ->. by vm_compute.
Defined.

Lemma validate_shape_accepts_again_witness :
  let st1 := snd (validate_shape same_shape ["cpu"] lower false (fresh pinned)) in
  exists later',
    validate_shape same_shape ["cpu"] lower false st1 = (Ok true, later')
    /\ shrinkage later' = shrinkage st1.
Proof.
  apply (validate_shape_accepts_again same_shape ["cpu"] lower false (fresh pinned)).
  - by vm_compute.
  - reflexivity.
  - reflexivity.
Defined.

Ltac searched_bounds :=
  exists searched, 1, 1, [6; 7];
  split; [reflexivity|]; split; [by vm_compute|]; split; [by vm_compute|];
  split; [by vm_compute|]; split; [by vm_compute|]; split; [by vm_compute|];
  replace (searched !! TRAINING_SHAPE_LOWER_BOUND) with (Some (PInts [4; 4]))
    by (by vm_compute);
  exists [4; 4]; split; [reflexivity|by vm_compute].





Ltac pinned_4x4 :=
  exists pinned, 1, [4; 4];
  split; [reflexivity|]; split; [by vm_compute|]; split; [by vm_compute|];
  split; by vm_compute.



Lemma training_shape_is_final_witness :
  (forall devices given_training_shape given_valid_shapes given_shrinkage fut,
     training_shape
       (snd (_dry_run all_devices_work same_shape devices given_training_shape
               given_valid_shapes given_shrinkage fut settled))
     = Some (point2d 1 4 4))
  /\ forall fuel,
       training_shape (snd (_dry_run_worker all_devices_work same_shape fuel settled))
       = Some (point2d 1 4 4).
Proof.
  apply (training_shape_is_final all_devices_work same_shape settled (point2d 1 4 4)).
  reflexivity.
Defined.

Lemma dry_run_rejects_another_training_shape_witness :
  exists e st',
    _dry_run all_devices_work same_shape ["cpu"] (Some (point2d 1 5 5)) None None 0 settled
    = (Ok tt, st')
    /\ futures st' !! 0%nat = Some (FutException e).
Proof.
  apply (dry_run_rejects_another_training_shape all_devices_work same_shape ["cpu"]
           (point2d 1 5 5) None None 0%nat settled (point2d 1 4 4)).
  - reflexivity.
  - discriminate.
Defined.

Lemma dry_run_default_valid_shapes_witness :
  let run := _dry_run all_devices_work same_shape ["cpu"] None None None 0 (fresh pinned) in
  exists t,
    Some (point2d 1 4 4) = Some t
    /\ Some [OPoint (point2d 1 4 4)] = Some [OPoint t]
    /\ training_shape (snd run) = Some t
    /\ valid_shapes (snd run) = Some [OPoint t].
Proof.
  apply (dry_run_default_valid_shapes all_devices_work same_shape ["cpu"] None None 0%nat
           (fresh pinned) (Ok tt) _
           {| res_devices := ["cpu"];
              res_training_shape := Some (point2d 1 4 4);
              res_valid_shapes := Some [OPoint (point2d 1 4 4)];
              res_shrinkage := Some (point2d 0 0 0) |}).
  - by vm_compute.
  - by vm_compute.
Defined.


Lemma worker_resolves_only_its_jobs_witness :
  futures (snd (_dry_run_worker all_devices_work same_shape 1 two_jobs)) !! 1%nat
  = futures two_jobs !! 1%nat.
Proof.
  apply (worker_resolves_only_its_jobs all_devices_work same_shape 1 two_jobs 1%nat).
  apply (bool_decide_unpack _). by vm_compute.
Defined.

Lemma dry_run_is_answered_witness :
  exists st1,
    dry_run ["cpu"] None None None (fresh pinned) = (Ok (next_future (fresh pinned)), st1)
    /\ next_future st1 = S (next_future (fresh pinned))
    /\ futures st1 = futures (fresh pinned)
    /\ let st2 :=
         snd (_dry_run_worker all_devices_work same_shape
                (S (length (dry_run_queue (fresh pinned)))) st1) in
       is_Some (futures st2 !! next_future (fresh pinned)) /\ dry_run_queue st2 = [].
Proof.
  apply (dry_run_is_answered all_devices_work same_shape ["cpu"] None None None
           (fresh pinned)).
  reflexivity.
Defined.

Lemma adapters_check_the_framework_witness :
  Adapters.Exemplum.__init__ batch_first caffe_model ["cpu"] []
  = (Raise (NotImplementedError ""), [Adapters.GetInstance "pybio_model"])
  /\ Adapters.TensorflowModelAdapter.__init__ batch_first caffe_model ["cpu"] []
     = (Raise (AssertionError ""), []).
Proof.
  destruct (adapters_check_the_framework batch_first caffe_model ["cpu"] []
              tensor_yx tensor_yx true true) as [Hexemplum Htensorflow];
    [reflexivity..|].
  split; [apply Hexemplum|apply Htensorflow]; discriminate.
Defined.

Lemma exemplum_needs_a_device_witness :
  Adapters.Exemplum.__init__ batch_first torch_model [] []
  = (Raise (IndexError "list index out of range"), [Adapters.GetInstance "pybio_model"]).
Proof.
  apply (exemplum_needs_a_device batch_first torch_model [] tensor_yx tensor_yx true true);
    reflexivity.
Defined.

Lemma adapters_default_halo_witness :
  let built := Adapters.Exemplum.__init__ batch_first torch_model ["cpu"] [] in
  exists a,
    fst built = Ok a
    /\ Adapters.adapter_halo a = [("c"%char, 0); ("y"%char, 0); ("x"%char, 0)].
Proof.
  destruct (adapters_default_halo batch_first torch_model ["cpu"] [] tensor_yx)
    as [Hexemplum _]; [reflexivity|by left|].
  eexists. split; [by vm_compute|].
  match goal with
  | |- Adapters.adapter_halo ?a = _ =>
      rewrite (Hexemplum a
                 (snd (Adapters.Exemplum.__init__ batch_first torch_model ["cpu"] [])))
        by (by vm_compute)
  end.
  by vm_compute.
Defined.

Lemma eval_model_zip_needs_a_model_file_witness :
  Reader.eval_model_zip (pybio_model := unit) (model_adapter := unit)
    "/tmp/tiktorch_x" ["/tmp/tiktorch_x/weights.pt"; "/tmp/tiktorch_x/README.md"]
    (fun _ _ _ => inr tt) (fun _ => true) (fun _ _ => inr tt) (fun _ _ => inr tt)
    ["cpu"] None
  = (inl (Reader.Exception
            "Model config file not found, make sure that .model.yaml file in the root of your model archive"),
     [Reader.Mkdtemp "/tmp/tiktorch_x"; Reader.ExtractAll "/tmp/tiktorch_x"]).
Proof.
  apply (eval_model_zip_needs_a_model_file (pybio_model := unit) (model_adapter := unit)).
  intros name Hin stem.
  assert (Hends : Reader.endswith name ".model.yaml" = false
                  /\ Reader.endswith name ".model.yml" = false).
  { apply elem_of_cons in Hin as [->|Hin]; [by vm_compute|].
    apply elem_of_cons in Hin as [->|Hin]; [by vm_compute|].
    by apply elem_of_nil in Hin. }
  destruct Hends as [Hyaml Hyml].
  split; intros Heq.
  - apply not_true_iff_false in Hyaml. apply Hyaml. apply endswith_spec. by exists stem.
  - apply not_true_iff_false in Hyml. apply Hyml. apply endswith_spec. by exists stem.
Defined.
